(** * FontSniffer: a shallow embedding of [Sniffer.py]

    The engine of the repository is the class [FontSniffer]: page-count
    detection, the retrying fetcher, the page parser with its keyword filter,
    the [search] generator that drains a thread pool, and the request
    counters.  Every method is translated into a function of a small
    state-and-exception monad over the object's attributes and the outside
    world (the requests issued, the polls of the stop callback, the sleeps,
    the tasks submitted, the events yielded).

    What is outside the repository is a parameter: the [Runtime] class holds
    the network, the scheduler, the HTML parser and the text primitives of
    Python.  [raise_for_status] follows the requests library: it raises for
    the status codes 400 to 599 and for no other.  The HTML parser either
    returns a document or raises, as [BeautifulSoup(html, 'html.parser')]
    does on markup it rejects.  Console output ([print]) is not modelled.

    A text is the string of the bytes of its UTF-8 form; a character is
    the one to four bytes its lead byte announces.  [\d] and [int] read the
    decimal digits of Unicode, which the runtime decodes: the digits 0 to 9
    and the decimal digits of the other scripts.

    Of the window of [gui_model.py], the caller of [search], the model keeps
    what [check_queue] does with the status and result events it takes from
    the queue (the page and total it reads from a status line, the count and
    the list of the results) and the links [copy_all_urls] reads back from
    the list; the widgets are not modelled.

    The thread pool is taken at the granularity of a task in [search] (a
    task takes effect when its future completes, in an order chosen by the
    runtime), and at the granularity of the reads and writes of the shared
    counters in [Workers]. *)

From stdpp Require Import gmap strings list fin_maps pretty.
From Stdlib Require Import Ascii ZArith QArith Lia.

Set Warnings "-register-all".
Local Open Scope string_scope.
Local Open Scope Z_scope.
Local Open Scope list_scope.

(** ** Text primitives *)

Definition dquote : string := String (ascii_of_nat 34) EmptyString.
Definition newline : string := String (ascii_of_nat 10) EmptyString.

(** [bool(s)] of a Python string. *)
Definition truthy (s : string) : bool :=
  match s with EmptyString => false | String _ _ => true end.

(** [needle in hay] *)
Fixpoint str_contains (hay needle : string) : bool :=
  String.prefix needle hay ||
  match hay with
  | EmptyString => false
  | String _ hay' => str_contains hay' needle
  end.

(** [hay] holds [needle] as a substring. *)
Definition substring_of (needle hay : string) : Prop :=
  exists pre post, hay = pre +:+ needle +:+ post.

(** The first [n] bytes of [s], and [s] without them. *)
Fixpoint str_take (n : nat) (s : string) : string :=
  match n, s with
  | S n', String c s' => String c (str_take n' s')
  | _, _ => EmptyString
  end.

Fixpoint str_drop (n : nat) (s : string) : string :=
  match n, s with
  | S n', String _ s' => str_drop n' s'
  | _, _ => s
  end.

(** The width in bytes of the character whose first byte is [c]. *)
Definition utf8_width (c : ascii) : nat :=
  let n := nat_of_ascii c in
  if (n <? 192)%nat then 1%nat
  else if (n <? 224)%nat then 2%nat
  else if (n <? 240)%nat then 3%nat
  else 4%nat.

(** [s[:n]]: the first [n] characters of [s]. *)
Fixpoint str_slice_to (n : nat) (s : string) : string :=
  match n, s with
  | S n', String c _ =>
      str_take (utf8_width c) s +:+ str_slice_to n' (str_drop (utf8_width c) s)
  | _, _ => EmptyString
  end.

(** [s * n] *)
Fixpoint str_repeat (s : string) (n : nat) : string :=
  match n with
  | O => EmptyString
  | S n' => s +:+ str_repeat s n'
  end.

Fixpoint str_join (sep : string) (l : list string) : string :=
  match l with
  | [] => EmptyString
  | [s] => s
  | s :: l' => s +:+ sep +:+ str_join sep l'
  end.

(** [template.format(page=page)] for a template whose only replacement
    field is [{page}]. *)
Fixpoint format_page (template : string) (page : Z) : string :=
  if String.prefix "{page}" template
  then pretty page +:+ str_drop 6 template
  else match template with
       | EmptyString => EmptyString
       | String c t' => String c (format_page t' page)
       end.

(** ** Exceptions and outcomes *)

Inductive PyExc :=
| HTTPError (msg : string)
| ConnectionError (msg : string)
| Timeout (msg : string)
| ValueError (msg : string)
| KeyError (msg : string)
| RuntimeError (msg : string)
| ParserRejectedMarkup (msg : string).

(** [isinstance(e, requests.exceptions.RequestException)] *)
Definition is_RequestException (e : PyExc) : bool :=
  match e with
  | HTTPError _ | ConnectionError _ | Timeout _ => true
  | _ => false
  end.

(** [str(e)] *)
Definition exc_str (e : PyExc) : string :=
  match e with
  | HTTPError m | ConnectionError m | Timeout m
  | ValueError m | KeyError m | RuntimeError m | ParserRejectedMarkup m => m
  end.

(** What a call does: it returns, it raises, or the model ran out of fuel
    (the last never happens for the methods of the class, see
    [fetch_page_sound]). *)
Inductive outcome (A : Type) :=
| Ret (a : A)
| Raise (e : PyExc)
| OutOfFuel.
Arguments Ret {A} a.
Arguments Raise {A} e.
Arguments OutOfFuel {A}.

(** ** The parsed document (BeautifulSoup) *)

Inductive Node :=
| Tag (name : string) (attrs : gmap string string) (contents : list Node)
| NavigableString (s : string)
| Comment (s : string).

(** [tag.descendants]: document order, the tag itself excluded. *)
Fixpoint descendants (n : Node) : list Node :=
  match n with
  | Tag _ _ cs => flat_map (fun c => c :: descendants c) cs
  | _ => []
  end.

(** [tag.get(key)] *)
Definition get (n : Node) (key : string) : option string :=
  match n with
  | Tag _ attrs _ => attrs !! key
  | _ => None
  end.

Definition has_name (name : string) (n : Node) : bool :=
  match n with
  | Tag nm _ _ => String.eqb nm name
  | _ => false
  end.

(** [find_all(...)] and [find(...)] over the descendants, with the
    criteria as a predicate. *)
Definition find_all (root : Node) (crit : Node -> bool) : list Node :=
  List.filter crit (descendants root).

Definition find (root : Node) (crit : Node -> bool) : option Node :=
  head (find_all root crit).

(** An attribute compared with a string ([id="..."]). *)
Definition attr_is (key want : string) (n : Node) : bool :=
  match get n key with
  | Some v => String.eqb v want
  | None => false
  end.

(** An attribute given to a callable ([href=lambda x: ...]); the callable
    receives [None] when the attribute is missing. *)
Definition attr_satisfies (key : string) (f : option string -> bool) (n : Node) : bool :=
  f (get n key).

(** ** Digits

    The ASCII digits; the decimal digits of the other scripts, which [\d]
    matches and [int] reads as well, are the runtime's (see [decimal]). *)
Definition is_ascii_digit (c : ascii) : bool :=
  let n := nat_of_ascii c in (48 <=? n)%nat && (n <=? 57)%nat.

(** A string of ASCII digits, and the number it writes after [acc]. *)
Fixpoint all_ascii_digits (s : string) : bool :=
  match s with
  | EmptyString => true
  | String c s' => is_ascii_digit c && all_ascii_digits s'
  end.

Fixpoint digits_value (acc : Z) (s : string) : Z :=
  match s with
  | EmptyString => acc
  | String c s' => digits_value (10 * acc + (Z.of_nat (nat_of_ascii c) - 48)) s'
  end.

(** ** The runtime outside the repository *)

Record Response := { status_code : Z; text : string }.

Class Runtime := {
  (** [session.get(url, timeout=..., allow_redirects=...)]; the first
      argument counts the requests issued before this one. *)
  session_get : nat -> string -> Z -> bool -> PyExc + Response;
  (** [random.uniform(0.1, 0.3)], by the number of sleeps before it. *)
  random_uniform : nat -> Q;
  (** The order in which the pool completes the submitted tasks. *)
  as_completed : list Z -> list Z;
  as_completed_perm : forall l, as_completed l ≡ₚ l;
  (** [BeautifulSoup(html, "html.parser")]: the document, or the exception
      the parser raises ([ParserRejectedMarkup] for markup it rejects). *)
  BeautifulSoup : string -> PyExc + Node;
  (** [unicodedata.decimal(ch, None)]: the value of the character [ch],
      given by its bytes, when [ch] is a decimal digit (category Nd) of any
      script; these are the characters [\d] matches and [int] reads.  The
      ASCII digits are among them and no other ASCII character is; the
      three-byte characters from U+4000 to U+9FFF (the CJK ideographs) are
      not. *)
  decimal : string -> option Z;
  decimal_ascii : forall c,
    decimal (String c EmptyString) =
      if is_ascii_digit c then Some (Z.of_nat (nat_of_ascii c) - 48) else None;
  decimal_range : forall ch v, decimal ch = Some v -> 0 <= v <= 9;
  decimal_cjk : forall a b c,
    (228 <= nat_of_ascii a <= 233)%nat ->
    decimal (String a (String b (String c EmptyString))) = None;
  (** The tokens of a [class] attribute (the parser's [\S+] split). *)
  nonwhitespace_findall : string -> list string;
  (** [str.lower], [str.strip] and [urllib.parse.urljoin]. *)
  str_lower : string -> string;
  str_lower_empty : str_lower EmptyString = EmptyString;
  str_strip : string -> string;
  urljoin : string -> string -> string;
  (** [sys.get_int_max_str_digits()]; 0 is no limit. *)
  int_max_str_digits : nat
}.

(** ** Regular expressions of the class *)

(** [self._font_regex.match(s)] with the pattern [/font/]. *)
Definition font_regex_match (s : string) : bool := String.prefix "/font/" s.

Section Patterns.
Context `{Runtime}.

(** One character that is a decimal digit. *)
Definition is_decimal_char (ch : string) : Prop :=
  match ch with
  | EmptyString => False
  | String c _ => String.length ch = utf8_width c
  end /\ is_Some (decimal ch).

(** [\d] at the start of [s]: the bytes of the digit, its value and the
    text after it. *)
Definition digit_at (s : string) : option (string * Z * string) :=
  match s with
  | EmptyString => None
  | String c _ =>
      let ch := str_take (utf8_width c) s in
      if (String.length ch =? utf8_width c)%nat then
        match decimal ch with
        | Some v => Some (ch, v, str_drop (utf8_width c) s)
        | None => None
        end
      else None
  end.

(** [\d*] at the start of [s], greedy: the digits and the text after them.
    [fuel] bounds the number of digits. *)
Fixpoint span_digits_upto (fuel : nat) (s : string) : string * string :=
  match fuel with
  | O => (EmptyString, s)
  | S fuel' =>
      match digit_at s with
      | Some (ch, _, rest) =>
          let '(ds, rest') := span_digits_upto fuel' rest in (ch +:+ ds, rest')
      | None => (EmptyString, s)
      end
  end.

(** A digit is one byte at least, so the length of [s] is fuel enough. *)
Definition span_digits (s : string) : string * string :=
  span_digits_upto (String.length s) s.

(** [list_200_(\d+)\.html] tried at the start of [s]; the result is group 1.
    The digits are taken greedily; a shorter run of digits is followed by a
    digit and cannot be followed by [.html], so there is nothing to
    backtrack to. *)
Definition page_regex_at (s : string) : option string :=
  if String.prefix "list_200_" s then
    let '(ds, rest) := span_digits (str_drop 9 s) in
    if truthy ds && String.prefix ".html" rest then Some ds else None
  else None.

(** [self._page_regex.search(s)]: the leftmost match, as its group 1. *)
Fixpoint page_regex_search (s : string) : option string :=
  match page_regex_at s with
  | Some g => Some g
  | None =>
      match s with
      | EmptyString => None
      | String _ s' => page_regex_search s'
      end
  end.

(** The values of the characters of [s], when all of them are decimal
    digits. *)
Fixpoint digit_values_upto (fuel : nat) (s : string) : option (list Z) :=
  match s with
  | EmptyString => Some []
  | String _ _ =>
      match fuel with
      | O => None
      | S fuel' =>
          match digit_at s with
          | Some (_, v, rest) => cons v <$> digit_values_upto fuel' rest
          | None => None
          end
      end
  end.

Definition digit_values (s : string) : option (list Z) :=
  digit_values_upto (String.length s) s.

End Patterns.

(** ** The object and the world *)

(** A reference to a dict object: the one held by [self.stats], or one of
    the copies handed out by [get_stats]. *)
Inductive ref := SelfStats | Snapshot (i : nat).

Record FontSniffer := {
  base_url : string;
  timeout : Z;
  max_retries : Z;
  base_delay : Q;
  headers : gmap string string;
  max_workers : Z;
  should_stop : nat -> bool;
  stats : gmap string Z;
  _keyword : option string
}.

Record World := {
  snapshots : list (gmap string Z);
  requests : list string;
  polls : nat;
  slept : list Q;
  submitted : list Z;
  yielded : list (gmap string string)
}.

Record State := { self : FontSniffer; world : World }.

Definition with_stats (d : gmap string Z) (st : State) : State :=
  {| self := {| base_url := base_url (self st); timeout := timeout (self st);
                max_retries := max_retries (self st);
                base_delay := base_delay (self st);
                headers := headers (self st);
                max_workers := max_workers (self st);
                should_stop := should_stop (self st);
                stats := d; _keyword := _keyword (self st) |};
     world := world st |}.

Definition with_keyword (k : string) (st : State) : State :=
  {| self := {| base_url := base_url (self st); timeout := timeout (self st);
                max_retries := max_retries (self st);
                base_delay := base_delay (self st);
                headers := headers (self st);
                max_workers := max_workers (self st);
                should_stop := should_stop (self st);
                stats := stats (self st); _keyword := Some k |};
     world := world st |}.

(** The front-end's [sniffer.should_stop = ...]. *)
Definition with_should_stop (f : nat -> bool) (st : State) : State :=
  {| self := {| base_url := base_url (self st); timeout := timeout (self st);
                max_retries := max_retries (self st);
                base_delay := base_delay (self st);
                headers := headers (self st);
                max_workers := max_workers (self st);
                should_stop := f;
                stats := stats (self st); _keyword := _keyword (self st) |};
     world := world st |}.

Definition with_world (w : World) (st : State) : State :=
  {| self := self st; world := w |}.

Definition with_snapshots (l : list (gmap string Z)) (w : World) : World :=
  {| snapshots := l; requests := requests w; polls := polls w;
     slept := slept w; submitted := submitted w; yielded := yielded w |}.

Definition log_request (url : string) (w : World) : World :=
  {| snapshots := snapshots w; requests := requests w ++ [url];
     polls := polls w; slept := slept w; submitted := submitted w;
     yielded := yielded w |}.

Definition log_poll (w : World) : World :=
  {| snapshots := snapshots w; requests := requests w; polls := S (polls w);
     slept := slept w; submitted := submitted w; yielded := yielded w |}.

Definition log_sleep (d : Q) (w : World) : World :=
  {| snapshots := snapshots w; requests := requests w; polls := polls w;
     slept := slept w ++ [d]; submitted := submitted w; yielded := yielded w |}.

Definition log_submit (page : Z) (w : World) : World :=
  {| snapshots := snapshots w; requests := requests w; polls := polls w;
     slept := slept w; submitted := submitted w ++ [page];
     yielded := yielded w |}.

Definition log_yield (ev : gmap string string) (w : World) : World :=
  {| snapshots := snapshots w; requests := requests w; polls := polls w;
     slept := slept w; submitted := submitted w;
     yielded := yielded w ++ [ev] |}.

(** ** The monad of a method call *)

Definition M (A : Type) : Type := State -> outcome A * State.

Definition ret {A} (a : A) : M A := fun st => (Ret a, st).

Definition raise {A} (e : PyExc) : M A := fun st => (Raise e, st).

Definition bind {A B} (m : M A) (k : A -> M B) : M B :=
  fun st =>
    match m st with
    | (Ret a, st') => k a st'
    | (Raise e, st') => (Raise e, st')
    | (OutOfFuel, st') => (OutOfFuel, st')
    end.

Notation "x <- m ;; k" := (bind m (fun x => k))
  (at level 100, m at next level, right associativity).
Notation "m ;; k" := (bind m (fun _ => k))
  (at level 100, right associativity).

(** [try: body  except C as e: handler e], with [catches] the test
    [isinstance(e, C)]. *)
Definition try_except {A} (body : M A) (catches : PyExc -> bool)
    (handler : PyExc -> M A) : M A :=
  fun st =>
    match body st with
    | (Raise e, st') => if catches e then handler e st' else (Raise e, st')
    | r => r
    end.

(** A computation without effect that returns or raises. *)
Definition lift_exc {A} (r : PyExc + A) : M A :=
  match r with
  | inl e => raise e
  | inr a => ret a
  end.

(** Every class of [PyExc] derives from [Exception]. *)
Definition is_Exception (e : PyExc) : bool := true.

(** [self.<attribute>] *)
Definition attr {A} (f : FontSniffer -> A) : M A := fun st => (Ret (f (self st)), st).

(** [self._keyword = keyword] *)
Definition set_keyword (keyword : string) : M unit :=
  fun st => (Ret tt, with_keyword keyword st).

(** [self.should_stop()] *)
Definition call_should_stop : M bool :=
  fun st => (Ret (should_stop (self st) (polls (world st))),
             with_world (log_poll (world st)) st).

(** [self.stats[k]] *)
Definition stats_getitem (k : string) : M Z :=
  fun st =>
    match stats (self st) !! k with
    | Some v => (Ret v, st)
    | None => (Raise (KeyError k), st)
    end.

(** [d[k] = v] through a reference to a dict. *)
Definition setitem (r : ref) (k : string) (v : Z) : M unit :=
  fun st =>
    match r with
    | SelfStats => (Ret tt, with_stats (<[k := v]> (stats (self st))) st)
    | Snapshot i =>
        (Ret tt, with_world
                   (with_snapshots (alter (insert k v) i (snapshots (world st)))
                                   (world st)) st)
    end.

(** [self.stats[k] += 1]: the item is read, then written. *)
Definition stats_incr (k : string) : M unit :=
  v <- stats_getitem k ;; setitem SelfStats k (v + 1).

(** [time.sleep(d)] *)
Definition time_sleep (d : Q) : M unit :=
  fun st => (Ret tt, with_world (log_sleep d (world st)) st).

(** [yield ev] *)
Definition yield (ev : gmap string string) : M unit :=
  fun st => (Ret tt, with_world (log_yield ev (world st)) st).

(** [executor.submit(self._parse_and_filter_page, page)] *)
Definition submit (page : Z) : M unit :=
  fun st => (Ret tt, with_world (log_submit page (world st)) st).

Definition event (type content : string) : gmap string string :=
  {[ "type" := type; "content" := content ]}.

Definition status (content : string) := event "status" content.

Definition event_type (ev : gmap string string) : option string := ev !! "type".

Definition is_status (ev : gmap string string) : bool :=
  bool_decide (event_type ev = Some "status").

Definition is_result (ev : gmap string string) : bool :=
  bool_decide (event_type ev = Some "result").

Definition is_done (ev : gmap string string) : bool :=
  bool_decide (event_type ev = Some "done").

(** [max(l)] of a non-empty list. *)
Definition py_max (l : list Z) : option Z :=
  match l with
  | [] => None
  | x :: l' => Some (foldl Z.max x l')
  end.

(** [response.raise_for_status()] of the requests library: only the codes
    400 to 599 raise. *)
Definition raise_for_status (r : Response) : M unit :=
  if (400 <=? status_code r) && (status_code r <? 600)
  then raise (HTTPError (pretty (status_code r) +:+ " Error"))
  else ret tt.

(** ** The methods of [FontSniffer] *)

Section Methods.
Context `{Runtime}.

(** [class_="..."]: one of the attribute's tokens is the string, or the
    tokens joined by one space are. *)
Definition class_matches (want : string) (n : Node) : bool :=
  match get n "class" with
  | None => false
  | Some v =>
      let cs := nonwhitespace_findall v in
      existsb (String.eqb want) cs || String.eqb (str_join " " cs) want
  end.

(** [tag.get_text(strip=True)]: the stripped strings below the tag, the
    empty ones dropped, joined without separator. *)
Definition get_text_strip (n : Node) : string :=
  String.concat EmptyString
    (omap (fun d => match d with
                    | NavigableString s =>
                        let s' := str_strip s in
                        if truthy s' then Some s' else None
                    | _ => None
                    end) (descendants n)).

(** [int(ds)]: the number written by the decimal digits of [ds].  A text
    that holds another character, or none, is refused; so is one with more
    digits than the limit. *)
Definition py_int (ds : string) : PyExc + Z :=
  match digit_values ds with
  | Some (v :: vs) =>
      if (0 <? int_max_str_digits)%nat && (int_max_str_digits <? length (v :: vs))%nat
      then inl (ValueError "Exceeds the limit for integer string conversion")
      else inr (foldl (fun acc d => 10 * acc + d) 0 (v :: vs))
  | _ => inl (ValueError "invalid literal for int() with base 10")
  end.

Definition __init__ (user_agent : string) (max_workers0 : Z) : State :=
  {| self :=
       {| base_url := "http://www.downcc.com/font/list_200_{page}.html";
          timeout := 15;
          max_retries := 3;
          base_delay := (3 # 10)%Q;
          headers :=
            {[ "User-Agent" := user_agent;
               "Accept" := "text/html,application/xhtml+xml,application/xml;q=0.9,*/*;q=0.8";
               "Accept-Language" := "zh-CN,zh;q=0.9,en;q=0.8";
               "Connection" := "keep-alive" ]};
          max_workers := Z.max 1 (Z.min max_workers0 20);
          should_stop := fun _ => false;
          stats := {[ "total_requests" := 0; "successful_requests" := 0;
                      "failed_requests" := 0; "retried_requests" := 0 ]};
          _keyword := None |};
     world := {| snapshots := []; requests := []; polls := 0%nat; slept := [];
                 submitted := []; yielded := [] |} |}.

(** [self.session.get(url, timeout=self.timeout, allow_redirects=False)] *)
Definition get_url (url : string) : M Response :=
  fun st =>
    let st' := with_world (log_request url (world st)) st in
    match session_get (length (requests (world st))) url (timeout (self st)) false with
    | inl e => (Raise e, st')
    | inr r => (Ret r, st')
    end.

(** [self.base_delay * (2 ** retry_count) + random.uniform(0.1, 0.3)].  The
    delay is the exact rational: the rounding of Python's floats, and their
    overflow for a [retry_count] of 1024 or more, are not modelled.  The
    value is only slept and printed. *)
Definition backoff_delay (retry_count : Z) : M Q :=
  fun st =>
    (Ret (Qplus (Qmult (base_delay (self st)) (Qpower (2 # 1) retry_count))
                (random_uniform (length (slept (world st))))), st).

(** [_fetch_page]; [fuel] bounds the depth of the recursion. *)
Fixpoint _fetch_page_rec (fuel : nat) (page retry_count : Z) : M (option string) :=
  stop <- call_should_stop ;;
  if stop then ret None else
  try_except
    (stats_incr "total_requests" ;;
     url <- attr (fun s => format_page (base_url s) page) ;;
     response <- get_url url ;;
     raise_for_status response ;;
     stats_incr "successful_requests" ;;
     ret (Some (text response)))
    is_RequestException
    (fun e =>
       stats_incr "failed_requests" ;;
       limit <- attr max_retries ;;
       again <- (if retry_count <? limit
                 then (stop' <- call_should_stop ;; ret (negb stop'))
                 else ret false) ;;
       if again then
         stats_incr "retried_requests" ;;
         delay <- backoff_delay retry_count ;;
         time_sleep delay ;;
         match fuel with
         | S fuel' => _fetch_page_rec fuel' page (retry_count + 1)
         | O => fun st => (OutOfFuel, st)
         end
       else ret None).

Definition _fetch_page (page retry_count : Z) : M (option string) :=
  fun st =>
    _fetch_page_rec (Z.to_nat (max_retries (self st) - retry_count))
                    page retry_count st.

(** [not html] for an optional string. *)
Definition falsy (html : option string) : bool :=
  match html with
  | Some s => negb (truthy s)
  | None => true
  end.

(** [soup.find("div", class_="pages")] *)
Definition pager_crit (n : Node) : bool :=
  has_name "div" n && class_matches "pages" n.

(** [pager.find_all("a", href=self._page_regex)] *)
Definition page_link_crit (n : Node) : bool :=
  has_name "a" n &&
  attr_satisfies "href"
    (fun v => match v with
              | Some h => bool_decide (is_Some (page_regex_search h))
              | None => false
              end) n.

(** The comprehension of [_detect_total_pages]; it stops at the first
    conversion that raises. *)
Fixpoint page_numbers_of (page_links : list Node) : PyExc + list Z :=
  match page_links with
  | [] => inr []
  | link :: rest =>
      match page_regex_search (default EmptyString (get link "href")) with
      | Some g =>
          match py_int g with
          | inl e => inl e
          | inr n =>
              match page_numbers_of rest with
              | inl e => inl e
              | inr ns => inr (n :: ns)
              end
          end
      | None => page_numbers_of rest
      end
  end.

Definition _detect_total_pages : M Z :=
  try_except
    (html <- _fetch_page 1 0 ;;
     if falsy html then ret 383 else
     soup <- lift_exc (BeautifulSoup (default EmptyString html)) ;;
     match find soup pager_crit with
     | Some pager =>
         let page_links := find_all pager page_link_crit in
         match page_links with
         | _ :: _ =>
             page_numbers <- lift_exc (page_numbers_of page_links) ;;
             ret (default 383 (py_max page_numbers))
         | [] => ret 383
         end
     | None => ret 383
     end)
    is_Exception
    (fun e => ret 383).

(** What [_detect_total_pages] returns for a fetched page 1: the part of
    the method after the fetch, with the handler's answer where the parser
    or the conversion of a page number raises. *)
Definition pager_total (html : option string) : Z :=
  if falsy html then 383 else
  match BeautifulSoup (default EmptyString html) with
  | inl _ => 383
  | inr soup =>
      match find soup pager_crit with
      | Some pager =>
          match find_all pager page_link_crit with
          | [] => 383
          | page_links =>
              match page_numbers_of page_links with
              | inl _ => 383
              | inr page_numbers => default 383 (py_max page_numbers)
              end
          end
      | None => 383
      end
  end.

(** The page index of a link, in the words of the specification: the
    number the page-URL pattern reads from the [href] of the link.  It is
    [None] when the pattern finds nothing there, and an exception when the
    digits found cannot be read. *)
Definition page_index (link : Node) : option (PyExc + Z) :=
  py_int <$> page_regex_search (default EmptyString (get link "href")).

(** [soup.find("section", class_="mg-t10 border soft-list")] *)
Definition section_crit (n : Node) : bool :=
  has_name "section" n && class_matches "mg-t10 border soft-list" n.

(** [find("ul", id="li-change-color", class_="soft-list-bd hover-one")] *)
Definition ul_crit (n : Node) : bool :=
  has_name "ul" n && attr_is "id" "li-change-color" n &&
  class_matches "soft-list-bd hover-one" n.

(** [li.find("a", class_="mg-r10", href=lambda x: x and font_regex.match(x))] *)
Definition font_a_crit (n : Node) : bool :=
  has_name "a" n && class_matches "mg-r10" n &&
  attr_satisfies "href"
    (fun v => match v with
              | Some x => truthy x && font_regex_match x
              | None => false
              end) n.

(** The body of the loop over the items: the record of one [li], if any. *)
Definition item_record (keyword_lower : string) (li : Node) : option (string * string) :=
  match find li font_a_crit with
  | None => None
  | Some font_a_tag =>
      let font_name := get_text_strip font_a_tag in
      if truthy keyword_lower &&
         negb (str_contains (str_lower font_name) keyword_lower)
      then None
      else
        let relative_url := default EmptyString (get font_a_tag "href") in
        Some (font_name, urljoin "http://www.downcc.com" relative_url)
  end.

(** The record of one [li] before the keyword is looked at: what the loop
    extracts from the item. *)
Definition anchor_record (li : Node) : option (string * string) :=
  match find li font_a_crit with
  | None => None
  | Some font_a_tag =>
      Some (get_text_strip font_a_tag,
            urljoin "http://www.downcc.com"
                    (default EmptyString (get font_a_tag "href")))
  end.

(** [self._keyword.lower() if hasattr(self, '_keyword') else ""] *)
Definition keyword_lower_of (k : option string) : string :=
  match k with
  | Some kw => str_lower kw
  | None => EmptyString
  end.

Definition _parse_and_filter_page (page : Z) : M (Z * list (string * string)) :=
  html <- _fetch_page page 0 ;;
  if falsy html then ret (page, []) else
  soup <- lift_exc (BeautifulSoup (default EmptyString html)) ;;
  match find soup section_crit with
  | None => ret (page, [])
  | Some target_section =>
      match find target_section ul_crit with
      | None => ret (page, [])
      | Some font_ul =>
          keyword_lower <- attr (fun s => keyword_lower_of (_keyword s)) ;;
          ret (page, omap (item_record keyword_lower)
                          (find_all font_ul (has_name "li")))
      end
  end.

(** The records read from a parsed page: the part of
    [_parse_and_filter_page] after the parser, as a function of the
    document and the lowered keyword. *)
Definition soup_records (keyword_lower : string) (soup : Node) :
    list (string * string) :=
  match find soup section_crit with
  | None => []
  | Some target_section =>
      match find target_section ul_crit with
      | None => []
      | Some font_ul =>
          omap (item_record keyword_lower) (find_all font_ul (has_name "li"))
      end
  end.

(** The records of a fetched page, or the exception of the parser: the part
    of [_parse_and_filter_page] after the fetch. *)
Definition page_records (keyword_lower : string) (html : option string) :
    PyExc + list (string * string) :=
  if falsy html then inr [] else
  match BeautifulSoup (default EmptyString html) with
  | inl e => inl e
  | inr soup => inr (soup_records keyword_lower soup)
  end.

(** A worker runs the task of a page; what the task returns or raises is
    kept in its future. *)
Definition run_task (page : Z) : M (PyExc + Z * list (string * string)) :=
  fun st =>
    match _parse_and_filter_page page st with
    | (Ret r, st') => (Ret (inr r), st')
    | (Raise e, st') => (Ret (inl e), st')
    | (OutOfFuel, st') => (OutOfFuel, st')
    end.

(** The tasks still pending when the [with] block is left run before it
    returns. *)
Fixpoint run_remaining (pages : list Z) : M unit :=
  match pages with
  | [] => ret tt
  | page :: rest => run_task page ;; run_remaining rest
  end.

Definition result_event (r : string * string) : gmap string string :=
  event "result"
    (dquote +:+ fst r +:+ dquote +:+ " 符合条件" +:+ newline +:+
     "下载页面：" +:+ snd r).

Fixpoint yield_all (evs : list (gmap string string)) : M unit :=
  match evs with
  | [] => ret tt
  | ev :: rest => yield ev ;; yield_all rest
  end.

Definition progress_msg (page completed_pages total_pages total_found : Z) : string :=
  "第" +:+ pretty page +:+ "页完成 | " +:+
  "已处理 " +:+ pretty completed_pages +:+ "/" +:+ pretty total_pages +:+ " 页 | " +:+
  "找到 " +:+ pretty total_found +:+ " 个字体".

Definition exception_msg (page : Z) (e : PyExc) : string :=
  "第" +:+ pretty page +:+ "页处理异常: " +:+ str_slice_to 50 (exc_str e) +:+ "...".

(** The loop over [as_completed(future_to_page)].  The pool is taken at
    the granularity of a task: the task of a page takes effect when its
    future completes, just before the loop receives it.  The result is
    [total_found]. *)
Fixpoint drain (total_pages : Z) (futures : list Z)
    (completed_pages total_found : Z) : M Z :=
  match futures with
  | [] => ret total_found
  | page :: rest =>
      outcome_of_task <- run_task page ;;
      stop <- call_should_stop ;;
      if stop then
        yield (status "⏹ 搜索已中止") ;;
        run_remaining rest ;;
        ret total_found
      else
        match outcome_of_task with
        | inr (_, matched_fonts) =>
            let completed_pages := completed_pages + 1 in
            yield (status (progress_msg page completed_pages total_pages total_found)) ;;
            match matched_fonts with
            | _ :: _ =>
                let total_found := total_found + Z.of_nat (length matched_fonts) in
                yield_all (result_event <$> matched_fonts) ;;
                drain total_pages rest completed_pages total_found
            | [] => drain total_pages rest completed_pages total_found
            end
        | inl e =>
            yield (status (exception_msg page e)) ;;
            drain total_pages rest completed_pages total_found
        end
  end.

Fixpoint submit_all (pages : list Z) : M unit :=
  match pages with
  | [] => ret tt
  | page :: rest => submit page ;; submit_all rest
  end.

Definition summary_msg (total_found total ok failed retried : Z) : string :=
  newline +:+ str_repeat "=" 60 +:+ newline +:+
  "✅ 搜索完成！共找到 " +:+ pretty total_found +:+ " 个字体" +:+ newline +:+
  "📊 请求统计: 总=" +:+ pretty total +:+
  " | 成功=" +:+ pretty ok +:+
  " | 失败=" +:+ pretty failed +:+
  " | 重试=" +:+ pretty retried.

Definition detecting_msg : string := "正在检测总页数...".

Definition detected_msg (total_pages : Z) : string :=
  "✅ 检测到总页数: " +:+ pretty total_pages.

Definition starting_msg (workers : Z) (keyword : string) : string :=
  "启动 " +:+ pretty workers +:+ " 个并发线程 | 关键词: '" +:+ keyword +:+ "'".

(** [search], with the generator run to its end. *)
Definition search (keyword : string) : M unit :=
  set_keyword keyword ;;
  yield (status detecting_msg) ;;
  total_pages <- _detect_total_pages ;;
  yield (status (detected_msg total_pages)) ;;
  workers <- attr max_workers ;;
  yield (status (starting_msg workers keyword)) ;;
  let pages := seqZ 1 total_pages in
  submit_all pages ;;
  total_found <- drain total_pages (as_completed pages) 0 0 ;;
  stop <- call_should_stop ;;
  if stop then ret tt else
    total <- stats_getitem "total_requests" ;;
    ok <- stats_getitem "successful_requests" ;;
    failed <- stats_getitem "failed_requests" ;;
    retried <- stats_getitem "retried_requests" ;;
    yield (status (summary_msg total_found total ok failed retried)).

(** [get_stats]: [self.stats.copy()] makes a new dict object and returns
    the reference to it. *)
Definition get_stats : M ref :=
  fun st =>
    (Ret (Snapshot (length (snapshots (world st)))),
     with_world (with_snapshots (snapshots (world st) ++ [stats (self st)])
                                (world st)) st).

(** The dict a reference points to. *)
Definition deref (st : State) (r : ref) : option (gmap string Z) :=
  match r with
  | SelfStats => Some (stats (self st))
  | Snapshot i => snapshots (world st) !! i
  end.

(** A [result] event for a record whose lowered name holds the lowered
    keyword. *)
Definition matching_result (keyword_lower : string) (ev : gmap string string) : Prop :=
  exists name url,
    ev = result_event (name, url) /\ substring_of keyword_lower (str_lower name).

(** A sequence of calls of [_fetch_page], whatever each of them gives. *)
Definition fetch_pages (pages : list Z) (st : State) : State :=
  foldl (fun st page => (_fetch_page page 0 st).2) st pages.

(** The transport fails: the request raises, or the status is refused by
    [raise_for_status]. *)
Definition fails (r : PyExc + Response) : Prop :=
  match r with
  | inl e => is_RequestException e = true
  | inr resp => 400 <= status_code resp < 600
  end.

Definition always_fails (url : string) : Prop :=
  forall n t b, fails (session_get n url t b).

(** The transport raises nothing but the exceptions of the requests
    library. *)
Definition regular_transport : Prop :=
  forall n url t b e, session_get n url t b = inl e -> is_RequestException e = true.

(** The state after the events [evs] have been yielded. *)
Definition yielding (evs : list (gmap string string)) (st : State) : State :=
  foldl (fun st ev => with_world (log_yield ev (world st)) st) st evs.

(** The completions of a search that is not cancelled, in the words of the
    specification.  The tasks complete in the order [futures], each in the
    state the one before has left; the loop asks the stop callback once per
    completion.  The completion of a page is reported by one status event,
    the progress line of the page or the line of the exception its task has
    raised, followed by one result event per record of the page.  The
    result is the events, the number of records found and the last state. *)
Fixpoint completions (total_pages : Z) (futures : list Z)
    (completed_pages total_found : Z) (st : State) :
    list (gmap string string) * Z * State :=
  match futures with
  | [] => ([], total_found, st)
  | page :: rest =>
      let '(task, st1) := _parse_and_filter_page page st in
      let st2 := with_world (log_poll (world st1)) st1 in
      let '(block, completed_pages', total_found') :=
        match task with
        | Ret (_, records) =>
            (status (progress_msg page (completed_pages + 1) total_pages total_found)
               :: (result_event <$> records),
             completed_pages + 1, total_found + Z.of_nat (length records))
        | Raise e => ([status (exception_msg page e)], completed_pages, total_found)
        | OutOfFuel => ([], completed_pages, total_found)
        end in
      let '(evs, found, st') :=
        completions total_pages rest completed_pages' total_found'
                    (yielding block st2) in
      (block ++ evs, found, st')
  end.

End Methods.

(** ** The window (gui_model.py) *)

(** [c0] does not occur in [s]. *)
Fixpoint avoids (c0 : ascii) (s : string) : bool :=
  match s with
  | EmptyString => true
  | String c s' => negb (Ascii.eqb c c0) && avoids c0 s'
  end.

(** [c0] occurs in [p]. *)
Fixpoint occurs (c0 : ascii) (p : string) : bool :=
  match p with
  | EmptyString => false
  | String c p' => Ascii.eqb c c0 || occurs c0 p'
  end.

(** [.+] at the start of [s]: the characters before the first newline. *)
Fixpoint line_head (s : string) : string :=
  match s with
  | EmptyString => EmptyString
  | String c s' =>
      if Ascii.eqb c (ascii_of_nat 10) then EmptyString else String c (line_head s')
  end.

Definition url_marker : string := "下载页面：".

(** [下载页面：(.+)] tried at the start of [s]; the result is group 1. *)
Definition url_regex_at (s : string) : option string :=
  if String.prefix url_marker s then
    let g := line_head (str_drop (String.length url_marker) s) in
    if truthy g then Some g else None
  else None.

(** [re.search(r'下载页面：(.+)', s)]: the leftmost match, as its group 1. *)
Fixpoint url_regex_search (s : string) : option string :=
  match url_regex_at s with
  | Some g => Some g
  | None =>
      match s with
      | EmptyString => None
      | String _ s' => url_regex_search s'
      end
  end.

(** The counters, the status line and the list of the window: what
    [check_queue] reads and writes for a status or a result item. *)
Record FontSnifferGUI := {
  found_count : Z;
  current_page : Z;
  total_pages : Z;
  status_var : string;
  result_list : list string
}.

Definition with_current_page (n : Z) (g : FontSnifferGUI) : FontSnifferGUI :=
  {| found_count := found_count g; current_page := n; total_pages := total_pages g;
     status_var := status_var g; result_list := result_list g |}.

Definition with_total_pages (n : Z) (g : FontSnifferGUI) : FontSnifferGUI :=
  {| found_count := found_count g; current_page := current_page g; total_pages := n;
     status_var := status_var g; result_list := result_list g |}.

Definition with_status_var (s : string) (g : FontSnifferGUI) : FontSnifferGUI :=
  {| found_count := found_count g; current_page := current_page g;
     total_pages := total_pages g; status_var := s; result_list := result_list g |}.

Definition with_result (content : string) (g : FontSnifferGUI) : FontSnifferGUI :=
  {| found_count := found_count g + 1; current_page := current_page g;
     total_pages := total_pages g; status_var := status_var g;
     result_list := result_list g ++ [content] |}.

(** The window as [FontSnifferGUI.__init__] leaves it. *)
Definition gui_init : FontSnifferGUI :=
  {| found_count := 0; current_page := 0; total_pages := 383;
     status_var := "等待搜索指令..."; result_list := [] |}.

Section Window.
Context `{Runtime}.

(** [lead(\d+)页] tried at the start of [s], for [lead] one of [第] and
    [共]; the result is group 1. *)
Definition counted_regex_at (lead s : string) : option string :=
  if String.prefix lead s then
    let '(ds, rest) := span_digits (str_drop (String.length lead) s) in
    if truthy ds && String.prefix "页" rest then Some ds else None
  else None.

(** [re.search(r'第(\d+)页', s)] and [re.search(r'共(\d+)页', s)] *)
Fixpoint counted_regex_search (lead s : string) : option string :=
  match counted_regex_at lead s with
  | Some g => Some g
  | None =>
      match s with
      | EmptyString => None
      | String _ s' => counted_regex_search lead s'
      end
  end.

(** The number a pattern reads from a status line, given to [set]. *)
Definition read_count (lead content : string)
    (set : Z -> FontSnifferGUI -> FontSnifferGUI) (g : FontSnifferGUI) :
    PyExc + FontSnifferGUI :=
  match counted_regex_search lead content with
  | Some ds =>
      match py_int ds with
      | inl e => inl e
      | inr n => inr (set n g)
      end
  | None => inr g
  end.

(** [check_queue] on a status or a result item taken from the queue.  The
    items of the two other types (error, done) touch the widgets and the
    engine's report only; the model gives [None] for them. *)
Definition check_queue (item : gmap string string) (g : FontSnifferGUI) :
    option (PyExc + FontSnifferGUI) :=
  match item !! "type" with
  | None => Some (inl (KeyError "type"))
  | Some type =>
      if String.eqb type "status" then
        match item !! "content" with
        | None => Some (inl (KeyError "content"))
        | Some content =>
            match read_count "第" content with_current_page g with
            | inl e => Some (inl e)
            | inr g1 =>
                match read_count "共" content with_total_pages g1 with
                | inl e => Some (inl e)
                | inr g2 => Some (inr (with_status_var content g2))
                end
            end
        end
      else if String.eqb type "result" then
        match item !! "content" with
        | None => Some (inl (KeyError "content"))
        | Some content => Some (inr (with_result content g))
        end
      else None
  end.

(** The items of a run, taken from the queue one by one. *)
Fixpoint check_queue_all (items : list (gmap string string)) (g : FontSnifferGUI) :
    option (PyExc + FontSnifferGUI) :=
  match items with
  | [] => Some (inr g)
  | item :: rest =>
      match check_queue item g with
      | Some (inr g') => check_queue_all rest g'
      | other => other
      end
  end.

(** [copy_all_urls]: the links of the listed results. *)
Definition copy_all_urls (g : FontSnifferGUI) : list string :=
  omap url_regex_search (result_list g).

End Window.

(** ** Words of the specification *)

Definition never_cancelled (st : State) : Prop :=
  forall n, should_stop (self st) n = false.

(** The stop callback answers true whenever it is asked. *)
Definition always_cancelled (st : State) : Prop :=
  forall n, should_stop (self st) n = true.

Definition counter (st : State) (k : string) : option Z := stats (self st) !! k.

Definition has_counters (st : State) : Prop :=
  is_Some (counter st "total_requests") /\
  is_Some (counter st "successful_requests") /\
  is_Some (counter st "failed_requests") /\
  is_Some (counter st "retried_requests").

(** The counters add up, and every request issued was counted. *)
Definition counters_consistent (st : State) : Prop :=
  exists t s f r,
    counter st "total_requests" = Some t /\
    counter st "successful_requests" = Some s /\
    counter st "failed_requests" = Some f /\
    counter st "retried_requests" = Some r /\
    t = s + f /\ r <= f /\ t = Z.of_nat (length (requests (world st))).

(** What a holder of a reference can do to the dict: a list of writes. *)
Definition mutate (r : ref) (writes : list (string * Z)) (st : State) : State :=
  foldl (fun st kv => (setitem r kv.1 kv.2 st).2) st writes.

(** ** Workers on the shared counters

    The pool runs [_fetch_page] in several threads on the one dict
    [self.stats], without a lock.  As far as the counters go, a worker is the
    list of the keys it increments, and [self.stats[k] += 1] is two steps: the
    item is read, then it is written.  A schedule names the worker that takes
    the next step. *)
Module Workers.

Record worker := { pending : list string; loaded : option Z }.

Definition start (keys : list string) : worker :=
  {| pending := keys; loaded := None |}.

Definition finished (w : worker) : bool :=
  match pending w with [] => true | _ => false end.

(** One step of a worker: the read or the write of its next increment.  A
    missing key raises [KeyError], which ends the worker's task. *)
Definition step_worker (w : worker) (st : State) : worker * State :=
  match pending w with
  | [] => (w, st)
  | k :: rest =>
      match loaded w with
      | None =>
          match stats_getitem k st with
          | (Ret v, st') => ({| pending := k :: rest; loaded := Some v |}, st')
          | (_, st') => ({| pending := []; loaded := None |}, st')
          end
      | Some v =>
          ({| pending := rest; loaded := None |}, (setitem SelfStats k (v + 1) st).2)
      end
  end.

Definition step (i : nat) (s : list worker * State) : list worker * State :=
  match s.1 !! i with
  | Some w => let '(w', st') := step_worker w s.2 in (<[i := w']> s.1, st')
  | None => s
  end.

Definition run (schedule : list nat) (s : list worker * State) : list worker * State :=
  foldl (fun s i => step i s) s schedule.

(** A schedule in which no two increments overlap: each read is followed at
    once by its write. *)
Definition serial (turns : list nat) : list nat :=
  flat_map (fun i => [i; i]) turns.

(** The increments of [k] still to be written. *)
Definition remaining (k : string) (ws : list worker) : Z :=
  Z.of_nat (length (List.filter (String.eqb k) (flat_map pending ws))).

Definition occurrences (k : string) (keys : list string) : Z :=
  Z.of_nat (length (List.filter (String.eqb k) keys)).

(** The value read for an increment of [k] under way leaves room for the
    writes still to come. *)
Definition in_flight_ok (k : string) (v0 B R : Z) (w : worker) : Prop :=
  forall u rest, loaded w = Some u -> pending w = k :: rest -> v0 <= u /\ u + R <= B.

(** The counter [k] started at [v0] and, with the writes still to come,
    stays within [B]. *)
Definition bounded (k : string) (v0 B : Z) (s : list worker * State) : Prop :=
  exists v, counter s.2 k = Some v /\ v0 <= v /\ v + remaining k s.1 <= B /\
            Forall (in_flight_ok k v0 B (remaining k s.1)) s.1.

(** Between two turns of a serial schedule: no increment is under way, no
    key is missing, and the counter [k] with the writes still to come is
    exactly [B]. *)
Definition settled (k : string) (B : Z) (s : list worker * State) : Prop :=
  exists v, counter s.2 k = Some v /\ v + remaining k s.1 = B /\
            Forall (fun w => loaded w = None /\
                             forall key, key ∈ pending w -> is_Some (counter s.2 key)) s.1.

End Workers.

(** ** A sample catalog *)
Module Demo.

Definition lower_char (c : ascii) : ascii :=
  let n := nat_of_ascii c in
  if (65 <=? n)%nat && (n <=? 90)%nat then ascii_of_nat (n + 32) else c.

Fixpoint lower (s : string) : string :=
  match s with
  | EmptyString => EmptyString
  | String c s' => String (lower_char c) (lower s')
  end.

Fixpoint tokens (cur s : string) : list string :=
  match s with
  | EmptyString => if truthy cur then [cur] else []
  | String c s' =>
      if Ascii.eqb c " "
      then (if truthy cur then [cur] else []) ++ tokens EmptyString s'
      else tokens (cur +:+ String c EmptyString) s'
  end.

Fixpoint lstrip (s : string) : string :=
  match s with
  | String c s' => if Ascii.eqb c " " then lstrip s' else s
  | EmptyString => EmptyString
  end.

Definition str_rev (s : string) : string :=
  String.string_of_list_ascii (rev (String.list_ascii_of_string s)).

Definition strip (s : string) : string := str_rev (lstrip (str_rev (lstrip s))).

Definition item (r : string * string) : Node :=
  Tag "li" ∅
    [Tag "a" {[ "class" := "mg-r10"; "href" := r.2 ]} [NavigableString r.1]].

Definition page_link (n : string) : Node :=
  Tag "a" {[ "href" := "/font/list_200_" +:+ n +:+ ".html" ]} [NavigableString n].

Definition listing (items : list (string * string)) (pages : list string) : Node :=
  Tag "[document]" ∅
    [Tag "section" {[ "class" := "mg-t10 border soft-list" ]}
       [Tag "ul" {[ "id" := "li-change-color"; "class" := "soft-list-bd hover-one" ]}
          (item <$> items)];
     Tag "div" {[ "class" := "pages" ]} (page_link <$> pages)].

Definition page1 : Node :=
  listing [(" Song A ", "/font/1.html"); ("Other", "/font/2.html")] ["1"; "2"].

Definition page2 : Node :=
  listing [("SONG B", "/font/3.html")] ["1"; "2"].

(** A page whose pager counts in Arabic-Indic digits: pages 3 and 12. *)
Definition page3 : Node := listing [] ["٣"; "١٢"].

(** The parser, on the sample pages.  It rejects one text, as the parser
    of the library does; any other text is a document without markup. *)
Definition parse (html : string) : PyExc + Node :=
  if String.eqb html "<page1>" then inr page1
  else if String.eqb html "<page2>" then inr page2
  else if String.eqb html "<page3>" then inr page3
  else if String.eqb html "<![x y]>"
  then inl (ParserRejectedMarkup "The markup you provided was rejected by the parser.")
  else inr (Tag "[document]" ∅ [NavigableString html]).

(** The decimal digits of the sample runtime: the ASCII digits and the
    Arabic-Indic digits (U+0660 to U+0669). *)
Definition decimal_digit (ch : string) : option Z :=
  match ch with
  | String c EmptyString =>
      if is_ascii_digit c then Some (Z.of_nat (nat_of_ascii c) - 48) else None
  | String a (String b EmptyString) =>
      if (nat_of_ascii a =? 217)%nat && (160 <=? nat_of_ascii b)%nat &&
         (nat_of_ascii b <=? 169)%nat
      then Some (Z.of_nat (nat_of_ascii b) - 160)
      else None
  | _ => None
  end.

Definition net_down : nat -> string -> Z -> bool -> PyExc + Response :=
  fun _ _ _ _ => inl (ConnectionError "connection refused").

Definition net_moved : nat -> string -> Z -> bool -> PyExc + Response :=
  fun _ _ _ _ => inr {| status_code := 302; text := "<moved>" |}.

Definition net_catalog : nat -> string -> Z -> bool -> PyExc + Response :=
  fun _ url _ _ =>
    if String.eqb url "http://www.downcc.com/font/list_200_1.html"
    then inr {| status_code := 200; text := "<page1>" |}
    else if String.eqb url "http://www.downcc.com/font/list_200_2.html"
    then inr {| status_code := 200; text := "<page2>" |}
    else inr {| status_code := 404; text := EmptyString |}.

(** Two requests time out, the third is answered. *)
Definition net_flaky : nat -> string -> Z -> bool -> PyExc + Response :=
  fun n _ _ _ =>
    if (n <? 2)%nat then inl (Timeout "timed out")
    else inr {| status_code := 200; text := "<page1>" |}.

(** A transport that raises an exception of its own. *)
Definition net_broken : nat -> string -> Z -> bool -> PyExc + Response :=
  fun _ _ _ _ => inl (ValueError "bad url").

(** A site that answers with markup the parser rejects, and one whose
    pager counts in Arabic-Indic digits. *)
Definition net_rejected : nat -> string -> Z -> bool -> PyExc + Response :=
  fun _ _ _ _ => inr {| status_code := 200; text := "<![x y]>" |}.

Definition net_arabic : nat -> string -> Z -> bool -> PyExc + Response :=
  fun _ _ _ _ => inr {| status_code := 200; text := "<page3>" |}.

Definition decimal_digit_range (ch : string) (v : Z) :
    decimal_digit ch = Some v -> 0 <= v <= 9.
Proof.
  destruct ch as [|a [|b [|c ch]]]; cbn [decimal_digit]; try discriminate.
  - unfold is_ascii_digit. destruct (_ && _) eqn:E; [|discriminate].
    intros [= <-]. apply andb_true_iff in E as [E1 E2].
    apply Nat.leb_le in E1, E2. lia.
  - destruct (_ && _) eqn:E; [|discriminate].
    intros [= <-]. apply andb_true_iff in E as [[_ E1]%andb_true_iff E2].
    apply Nat.leb_le in E1, E2. lia.
Qed.

Definition runtime (net : nat -> string -> Z -> bool -> PyExc + Response) : Runtime :=
  {| session_get := net;
     random_uniform := fun _ => (1 # 5)%Q;
     as_completed := reverse;
     as_completed_perm := reverse_Permutation;
     BeautifulSoup := parse;
     decimal := decimal_digit;
     decimal_ascii := fun c => eq_refl;
     decimal_range := decimal_digit_range;
     decimal_cjk := fun a b c _ => eq_refl;
     nonwhitespace_findall := tokens EmptyString;
     str_lower := lower;
     str_lower_empty := eq_refl;
     str_strip := strip;
     urljoin := fun base url => base +:+ url;
     int_max_str_digits := 4300 |}.

Definition fresh : State := __init__ "Mozilla/5.0" 10.

(** The engine with the stop callback set from the start. *)
Definition stopped : State := with_should_stop (fun _ => true) fresh.

(** The engine whose stop callback answers true from the second poll on. *)
Definition stopped_later : State := with_should_stop (fun n => (1 <=? n)%nat) fresh.

(** A search of the sample catalog, and fetches over a dead and over a
    redirecting network. *)
Definition song_search : outcome unit * State :=
  @search (runtime net_catalog) "Song" fresh.

Definition fetch_down : outcome (option string) * State :=
  @_fetch_page (runtime net_down) 5 0 fresh.

Definition fetch_moved : outcome (option string) * State :=
  @_fetch_page (runtime net_moved) 5 0 fresh.

(** Two workers, one increment of [total_requests] each, their reads
    before their writes. *)
Definition racing : list Workers.worker * State :=
  Workers.run [0; 1; 0; 1]%nat
    ([Workers.start ["total_requests"]; Workers.start ["total_requests"]], fresh).

(** The window fed the events of the sample search. *)
Definition window : option (PyExc + FontSnifferGUI) :=
  @check_queue_all (runtime net_catalog) (yielded (world song_search.2)) gui_init.

End Demo.

(** ** Reasoning about a call *)

(** [wp m Q st]: running [m] from [st] ends in an outcome and a state that
    satisfy [Q]. *)
Definition wp {A} (m : M A) (Q : outcome A -> State -> Prop) (st : State) : Prop :=
  Q (m st).1 (m st).2.

(** What no method changes: the configuration, the stop callback, the
    keyword once set, the presence of a counter. *)
Record stable (st st' : State) : Prop := {
  st_base_url : base_url (self st') = base_url (self st);
  st_timeout : timeout (self st') = timeout (self st);
  st_max_retries : max_retries (self st') = max_retries (self st);
  st_max_workers : max_workers (self st') = max_workers (self st);
  st_should_stop : should_stop (self st') = should_stop (self st);
  st_keyword : _keyword (self st') = _keyword (self st);
  st_keys : forall k, is_Some (stats (self st) !! k) -> is_Some (stats (self st') !! k)
}.

(** The events a call yields, the rest being as [stable] says. *)
Definition emits (evs : list (gmap string string)) (st st' : State) : Prop :=
  stable st st' /\
  submitted (world st') = submitted (world st) /\
  yielded (world st') = (yielded (world st) ++ evs)%list.

(** What the fetcher leaves alone in the world. *)
Record quiet (st st' : State) : Prop := {
  q_snapshots : snapshots (world st') = snapshots (world st);
  q_submitted : submitted (world st') = submitted (world st);
  q_yielded : yielded (world st') = yielded (world st)
}.

(** What a call cancelled on entry leaves alone: everything but the count of
    the polls. *)
Record calm (st st' : State) : Prop := {
  c_self : self st' = self st;
  c_snapshots : snapshots (world st') = snapshots (world st);
  c_requests : requests (world st') = requests (world st);
  c_slept : slept (world st') = slept (world st);
  c_submitted : submitted (world st') = submitted (world st);
  c_yielded : yielded (world st') = yielded (world st)
}.

(** * Properties *)

Section Rules.
Context {A B : Type}.

Lemma wp_bind (m : M A) (k : A -> M B) Q st :
  wp m (fun o st' =>
          match o with
          | Ret a => wp (k a) Q st'
          | Raise e => Q (Raise e) st'
          | OutOfFuel => Q OutOfFuel st'
          end) st ->
  wp (bind m k) Q st.
Proof. unfold wp, bind. destruct (m st) as [[a|e|] st']; auto. Qed.

Lemma wp_try (body : M A) (catches : PyExc -> bool) (handler : PyExc -> M A)
    (Q : outcome A -> State -> Prop) st :
  wp body (fun o st' =>
             match o with
             | Raise e => if catches e then wp (handler e) Q st' else Q (Raise e) st'
             | _ => Q o st'
             end) st ->
  wp (try_except body catches handler) Q st.
Proof.
  unfold wp, try_except. destruct (body st) as [[a|e|] st']; cbn; auto.
  destruct (catches e); auto.
Qed.

Lemma wp_ret (a : A) (Q : outcome A -> State -> Prop) st : Q (Ret a) st -> wp (ret a) Q st.
Proof. auto. Qed.

Lemma wp_raise e (Q : outcome A -> State -> Prop) st : Q (Raise e) st -> wp (raise e) Q st.
Proof. auto. Qed.

Lemma wp_attr (f : FontSniffer -> A) (Q : outcome A -> State -> Prop) st :
  Q (Ret (f (self st))) st -> wp (attr f) Q st.
Proof. auto. Qed.

Lemma wp_mono (m : M A) (Q Q' : outcome A -> State -> Prop) st :
  wp m Q st -> (forall o st', Q o st' -> Q' o st') -> wp m Q' st.
Proof. unfold wp. auto. Qed.

End Rules.

Lemma wp_poll (Q : outcome bool -> State -> Prop) st :
  Q (Ret (should_stop (self st) (polls (world st))))
    (with_world (log_poll (world st)) st) ->
  wp call_should_stop Q st.
Proof. auto. Qed.

Lemma wp_getitem k (Q : outcome Z -> State -> Prop) st :
  match stats (self st) !! k with
  | Some v => Q (Ret v) st
  | None => Q (Raise (KeyError k)) st
  end ->
  wp (stats_getitem k) Q st.
Proof. unfold wp, stats_getitem. destruct (stats (self st) !! k); auto. Qed.

Lemma wp_incr k (Q : outcome unit -> State -> Prop) st :
  match stats (self st) !! k with
  | Some v => Q (Ret tt) (with_stats (<[k := v + 1]> (stats (self st))) st)
  | None => Q (Raise (KeyError k)) st
  end ->
  wp (stats_incr k) Q st.
Proof.
  unfold wp, stats_incr, bind, stats_getitem.
  destruct (stats (self st) !! k); auto.
Qed.

Lemma wp_set_keyword keyword (Q : outcome unit -> State -> Prop) st :
  Q (Ret tt) (with_keyword keyword st) -> wp (set_keyword keyword) Q st.
Proof. auto. Qed.

Lemma wp_sleep d (Q : outcome unit -> State -> Prop) st :
  Q (Ret tt) (with_world (log_sleep d (world st)) st) -> wp (time_sleep d) Q st.
Proof. auto. Qed.

Lemma wp_yield ev (Q : outcome unit -> State -> Prop) st :
  Q (Ret tt) (with_world (log_yield ev (world st)) st) -> wp (yield ev) Q st.
Proof. auto. Qed.

Lemma wp_submit page (Q : outcome unit -> State -> Prop) st :
  Q (Ret tt) (with_world (log_submit page (world st)) st) -> wp (submit page) Q st.
Proof. auto. Qed.

Lemma wp_raise_for_status r (Q : outcome unit -> State -> Prop) st :
  (if (400 <=? status_code r) && (status_code r <? 600)
   then Q (Raise (HTTPError (pretty (status_code r) +:+ " Error"))) st
   else Q (Ret tt) st) ->
  wp (raise_for_status r) Q st.
Proof. unfold wp, raise_for_status. destruct (_ && _); auto. Qed.

Global Instance stable_refl : Reflexive stable.
Proof. intros st. split; auto. Qed.

Global Instance stable_trans : Transitive stable.
Proof.
  intros a b c [] []. split; try congruence. auto.
Qed.

Global Instance quiet_refl : Reflexive quiet.
Proof. intros st. split; auto. Qed.

Global Instance quiet_trans : Transitive quiet.
Proof. intros a b c [] []. split; congruence. Qed.

Section MethodRules.
Context `{Runtime}.

Lemma wp_get_url url (Q : outcome Response -> State -> Prop) st :
  match session_get (length (requests (world st))) url (timeout (self st)) false with
  | inl e => Q (Raise e) (with_world (log_request url (world st)) st)
  | inr r => Q (Ret r) (with_world (log_request url (world st)) st)
  end ->
  wp (get_url url) Q st.
Proof. unfold wp, get_url. destruct (session_get _ _ _ _); auto. Qed.

Lemma wp_backoff rc (Post : outcome Q -> State -> Prop) st :
  (forall d, Post (Ret d) st) -> wp (backoff_delay rc) Post st.
Proof. intros HQ. apply HQ. Qed.

End MethodRules.

(** ** Symbolic execution *)

Ltac wp_prim :=
  lazymatch goal with
  | |- wp (bind _ _) _ _ => apply wp_bind
  | |- wp (try_except _ _ _) _ _ => apply wp_try
  | |- wp (ret _) _ _ => apply wp_ret
  | |- wp (raise _) _ _ => apply wp_raise
  | |- wp (attr _) _ _ => apply wp_attr
  | |- wp call_should_stop _ _ => apply wp_poll
  | |- wp (stats_incr _) _ _ => apply wp_incr
  | |- wp (stats_getitem _) _ _ => apply wp_getitem
  | |- wp (set_keyword _) _ _ => apply wp_set_keyword
  | |- wp (time_sleep _) _ _ => apply wp_sleep
  | |- wp (yield _) _ _ => apply wp_yield
  | |- wp (submit _) _ _ => apply wp_submit
  | |- wp (raise_for_status _) _ _ => apply wp_raise_for_status
  | |- wp (get_url _) _ _ => apply wp_get_url
  | |- wp (backoff_delay _) _ _ => apply wp_backoff; intros ?
  | |- wp (fun st => (OutOfFuel, st)) _ _ => unfold wp at 1
  end.

Ltac norm :=
  cbv beta iota;
  cbn [self world stats max_retries max_workers should_stop base_url timeout
       _keyword snapshots requests polls slept submitted yielded
       with_stats with_world with_keyword with_should_stop with_snapshots
       log_poll log_request log_sleep log_submit log_yield fst snd
       is_RequestException is_Exception].

Ltac wp_case :=
  match goal with
  | |- context [match ?x with _ => _ end] =>
      lazymatch x with
      | context [match _ with _ => _ end] => fail
      | _ => destruct x eqn:?
      end
  end.

Ltac wp_run := repeat (first [wp_prim | wp_case]; norm).

Ltac simpl_lookup :=
  repeat first [ rewrite lookup_insert_eq | rewrite lookup_insert_ne by done ].

Tactic Notation "wp_go" tactic(tac) :=
  repeat (first [wp_prim | progress tac | wp_case]; norm).

Ltac fail_cases Hfail :=
  try match goal with
      | E : session_get ?n ?u ?t ?b = _ |- _ =>
          let F := fresh in
          pose proof (Hfail n t b) as F; rewrite E in F; cbn in F
      end;
  try (exfalso; congruence);
  try (exfalso;
       match goal with
       | E : (_ <=? _) && (_ <? _) = false |- _ =>
           apply andb_false_iff in E; destruct E as [E|E];
           [apply Z.leb_gt in E | apply Z.ltb_ge in E]; lia
       | E : (_ <? _) = _ |- _ => first [apply Z.ltb_lt in E | apply Z.ltb_ge in E]; lia
       end).

Ltac consistent_leaf :=
  unfold counters_consistent, counter; norm;
  do 4 eexists; simpl_lookup;
  repeat (split; [first [eassumption | reflexivity] | ]);
  rewrite ?length_app; cbn [length]; repeat split; lia.

Ltac frame_leaf :=
  repeat match goal with
         | H : stable _ _ |- _ => destruct H
         | H : quiet _ _ |- _ => destruct H
         end;
  repeat split; norm; try congruence;
  try (intros ? ?; rewrite ?lookup_insert_is_Some'; eauto 10).

Lemma wp_result {A} (m : M A) (r : outcome A) (P : State -> Prop) st :
  wp m (fun o st' => o = r /\ P st') st -> exists st', m st = (r, st') /\ P st'.
Proof.
  unfold wp. destruct (m st) as [o st']. cbn. intros [-> HP]. eauto.
Qed.

Section Fetcher.
Context `{Runtime}.

Lemma fetch_rec_sound fuel : forall page rc st0 st,
  stable st0 st -> quiet st0 st ->
  (Z.to_nat (max_retries (self st) - rc) <= fuel)%nat ->
  wp (_fetch_page_rec fuel page rc)
     (fun o st' => o <> OutOfFuel /\ stable st0 st' /\ quiet st0 st') st.
Proof.
  induction fuel as [|fuel IH]; intros page rc st0 st Hs Hq Hfuel;
    cbn [_fetch_page_rec].
  - wp_run; try (exfalso; lia); frame_leaf.
  - repeat (first [apply IH | wp_prim | wp_case]; norm);
      try lia; frame_leaf.
Qed.

Lemma wp_fetch_page page rc (Q : outcome (option string) -> State -> Prop) st :
  wp (_fetch_page_rec (Z.to_nat (max_retries (self st) - rc)) page rc) Q st ->
  wp (_fetch_page page rc) Q st.
Proof. auto. Qed.

Lemma fetch_page_sound page rc st :
  wp (_fetch_page page rc)
     (fun o st' => o <> OutOfFuel /\ stable st st' /\ quiet st st') st.
Proof.
  unfold wp, _fetch_page. apply fetch_rec_sound; reflexivity || lia.
Qed.

(** C6: if the stop callback answers true when [_fetch_page] is entered,
    the call returns [None] at once; no counter of [self.stats] changes, no
    request is issued and nothing is slept. *)
Theorem fetch_page_cancelled_on_entry page rc st :
  should_stop (self st) (polls (world st)) = true ->
  exists st',
    _fetch_page page rc st = (Ret None, st') /\
    stats (self st') = stats (self st) /\
    requests (world st') = requests (world st) /\
    slept (world st') = slept (world st).
Proof.
  intros Hstop. apply wp_result. unfold wp, _fetch_page.
  change (wp (_fetch_page_rec (Z.to_nat (max_retries (self st) - rc)) page rc)
             (fun o st' => o = Ret None /\ stats (self st') = stats (self st) /\
                requests (world st') = requests (world st) /\
                slept (world st') = slept (world st)) st).
  destruct (Z.to_nat _); cbn [_fetch_page_rec];
    (apply wp_bind, wp_poll; rewrite Hstop; norm; apply wp_ret; auto).
Qed.

Lemma fetch_rec_always_failing fuel : forall page rc st t f r,
  always_fails (format_page (base_url (self st)) page) ->
  never_cancelled st ->
  max_retries (self st) - rc = Z.of_nat fuel ->
  counter st "total_requests" = Some t ->
  counter st "failed_requests" = Some f ->
  counter st "retried_requests" = Some r ->
  wp (_fetch_page_rec fuel page rc)
     (fun o st' =>
        o = Ret None /\
        counter st' "total_requests" = Some (t + Z.of_nat fuel + 1) /\
        counter st' "failed_requests" = Some (f + Z.of_nat fuel + 1) /\
        counter st' "retried_requests" = Some (r + Z.of_nat fuel) /\
        counter st' "successful_requests" = counter st "successful_requests" /\
        requests (world st') =
          (requests (world st) ++
           replicate (S fuel) (format_page (base_url (self st)) page))%list /\
        length (slept (world st')) = (length (slept (world st)) + fuel)%nat) st.
Proof.
  induction fuel as [|fuel IH]; intros page rc st t f r Hfail Hnever Hfuel Ht Hf Hr;
    unfold counter in *; cbn [_fetch_page_rec].
  - wp_go ltac:(rewrite ?Hnever, ?Ht, ?Hf, ?Hr; simpl_lookup).
    all: fail_cases Hfail.
    all: repeat split; try (f_equal; lia); auto with lia.
  - wp_go ltac:(rewrite ?Hnever, ?Ht, ?Hf, ?Hr; simpl_lookup).
    all: fail_cases Hfail.
    all: (eapply wp_mono;
          [ apply (IH page (rc + 1) _ (t + 1) (f + 1) (r + 1));
            unfold never_cancelled; norm; simpl_lookup; auto; lia
          | norm; simpl_lookup; intros o st' (-> & -> & -> & -> & -> & -> & ->);
            repeat split; try (f_equal; lia);
            [ rewrite <- app_assoc; reflexivity
            | rewrite length_app; cbn [length]; lia ] ]).
Qed.

(** C2: when the transport fails at every attempt for the page and the
    stop callback never answers true, [_fetch_page] issues [max_retries + 1]
    requests ([max_retries] of them retries, each after a sleep) and then
    returns [None]; [retried_requests] grows by [max_retries],
    [failed_requests] and [total_requests] by [max_retries + 1], and
    [successful_requests] is unchanged. *)
Theorem fetch_page_always_failing page st t f r :
  always_fails (format_page (base_url (self st)) page) ->
  never_cancelled st ->
  0 <= max_retries (self st) ->
  counter st "total_requests" = Some t ->
  counter st "failed_requests" = Some f ->
  counter st "retried_requests" = Some r ->
  exists st',
    _fetch_page page 0 st = (Ret None, st') /\
    counter st' "total_requests" = Some (t + max_retries (self st) + 1) /\
    counter st' "failed_requests" = Some (f + max_retries (self st) + 1) /\
    counter st' "retried_requests" = Some (r + max_retries (self st)) /\
    counter st' "successful_requests" = counter st "successful_requests" /\
    requests (world st') =
      (requests (world st) ++
       replicate (Z.to_nat (max_retries (self st) + 1))
                 (format_page (base_url (self st)) page))%list /\
    length (slept (world st')) =
      (length (slept (world st)) + Z.to_nat (max_retries (self st)))%nat.
Proof.
  intros Hfail Hnever Hmax Ht Hf Hr. apply wp_result, wp_fetch_page.
  eapply wp_mono.
  - apply (fetch_rec_always_failing _ page 0 st t f r); auto. lia.
  - cbv beta. intros o st' (-> & -> & -> & -> & -> & -> & ->).
    rewrite Z.sub_0_r, Z2Nat.id by lia.
    replace (Z.to_nat (max_retries (self st) + 1))
      with (S (Z.to_nat (max_retries (self st)))) by lia.
    repeat split.
Qed.

Lemma fetch_rec_redirect fuel page rc st resp t s :
  should_stop (self st) (polls (world st)) = false ->
  session_get (length (requests (world st)))
              (format_page (base_url (self st)) page) (timeout (self st)) false
    = inr resp ->
  300 <= status_code resp < 400 ->
  counter st "total_requests" = Some t ->
  counter st "successful_requests" = Some s ->
  wp (_fetch_page_rec fuel page rc)
     (fun o st' =>
        o = Ret (Some (text resp)) /\
        counter st' "total_requests" = Some (t + 1) /\
        counter st' "successful_requests" = Some (s + 1) /\
        counter st' "failed_requests" = counter st "failed_requests" /\
        counter st' "retried_requests" = counter st "retried_requests" /\
        requests (world st') =
          (requests (world st) ++ [format_page (base_url (self st)) page])%list) st.
Proof.
  intros Hgo Hget Hcode Ht Hs. unfold counter in *.
  assert ((400 <=? status_code resp) && (status_code resp <? 600) = false) as Hok.
  { apply andb_false_iff. left. apply Z.leb_gt. lia. }
  destruct fuel; cbn [_fetch_page_rec];
    (wp_go ltac:(rewrite ?Hgo, ?Hget, ?Hok, ?Ht, ?Hs; simpl_lookup));
    repeat split.
Qed.

Lemma fetch_rec_consistent (Hreg : regular_transport) fuel : forall page rc st,
  counters_consistent st ->
  wp (_fetch_page_rec fuel page rc) (fun _ st' => counters_consistent st') st.
Proof.
  induction fuel as [|fuel IH]; intros page rc st (t & s & f & r & Ht & Hs & Hf & Hr & E1 & E2 & E3);
    unfold counter in *; cbn [_fetch_page_rec].
  - wp_go ltac:(rewrite ?Ht, ?Hs, ?Hf, ?Hr; simpl_lookup).
    all: try match goal with
             | E : session_get _ _ _ _ = inl _ |- _ =>
                 apply Hreg in E; exfalso; congruence
             end.
    all: consistent_leaf.
  - repeat (first [apply IH | wp_prim | progress (rewrite ?Ht, ?Hs, ?Hf, ?Hr; simpl_lookup) | wp_case]; norm).
    all: try match goal with
             | E : session_get _ _ _ _ = inl _ |- _ =>
                 apply Hreg in E; exfalso; congruence
             end.
    all: consistent_leaf.
Qed.

(** C3 (amended): a response with a 3xx status is not followed (one
    request is issued) and is not a failure: [raise_for_status] lets it
    pass, [successful_requests] and [total_requests] grow by one,
    [failed_requests] and [retried_requests] are unchanged, and the body of
    the response is returned. *)
Theorem fetch_page_redirect_is_success page rc st resp t s :
  should_stop (self st) (polls (world st)) = false ->
  session_get (length (requests (world st)))
              (format_page (base_url (self st)) page) (timeout (self st)) false
    = inr resp ->
  300 <= status_code resp < 400 ->
  counter st "total_requests" = Some t ->
  counter st "successful_requests" = Some s ->
  exists st',
    _fetch_page page rc st = (Ret (Some (text resp)), st') /\
    counter st' "total_requests" = Some (t + 1) /\
    counter st' "successful_requests" = Some (s + 1) /\
    counter st' "failed_requests" = counter st "failed_requests" /\
    counter st' "retried_requests" = counter st "retried_requests" /\
    requests (world st') =
      (requests (world st) ++ [format_page (base_url (self st)) page])%list.
Proof.
  intros Hgo Hget Hcode Ht Hs. apply wp_result, wp_fetch_page.
  eapply wp_mono; [ eapply fetch_rec_redirect; eauto | auto ].
Qed.

Lemma fetch_pages_consistent (Hreg : regular_transport) pages : forall st,
  counters_consistent st -> counters_consistent (fetch_pages pages st).
Proof.
  induction pages as [|page pages IH]; intros st Hst; [exact Hst|].
  apply IH. apply (fetch_rec_consistent Hreg _ page 0 st Hst).
Qed.

(** C10 (amended): on an engine as [__init__] leaves it, with any stop
    callback installed, after any sequence of [_fetch_page] calls made one
    after the other over a transport that returns a response or raises a
    request exception, the counters satisfy
    [total_requests = successful_requests + failed_requests] and
    [retried_requests <= failed_requests], and [total_requests] is the
    number of requests issued.  Without the condition on the transport the
    equation fails: an exception that is not a request exception leaves the
    attempt counted in [total_requests] alone. *)
Theorem counters_consistent_after_fetches user_agent workers stop pages :
  regular_transport ->
  counters_consistent
    (fetch_pages pages (with_should_stop stop (__init__ user_agent workers))).
Proof.
  intros Hreg. apply fetch_pages_consistent; [exact Hreg|].
  exists 0, 0, 0, 0. repeat split; reflexivity || lia.
Qed.

End Fetcher.

(** ** Snapshots of the counters *)

Lemma mutate_cons r kv writes st :
  mutate r (kv :: writes) st = mutate r writes (setitem r kv.1 kv.2 st).2.
Proof. reflexivity. Qed.

Lemma mutate_snapshot i writes : forall st d,
  snapshots (world st) !! i = Some d ->
  self (mutate (Snapshot i) writes st) = self st /\
  snapshots (world (mutate (Snapshot i) writes st)) !! i =
    Some (foldl (fun d kv => <[kv.1 := kv.2]> d) d writes).
Proof.
  induction writes as [|[k v] writes IH]; intros st d Hd; [auto|].
  rewrite mutate_cons. cbn [fst snd foldl].
  edestruct (IH (setitem (Snapshot i) k v st).2) as [E1 E2].
  - cbn. rewrite list_lookup_alter_eq, Hd. reflexivity.
  - rewrite E1, E2. auto.
Qed.

(** C9: [get_stats] returns a reference to a new dict, a copy of the
    counters: two calls in a row give references to equal dicts; whatever is
    written through a returned reference lands in the copy and nowhere
    else, so it changes neither the counters of the engine nor what a later
    [get_stats] returns. *)
Theorem get_stats_returns_copy st writes :
  exists i st1 j st2,
    get_stats st = (Ret (Snapshot i), st1) /\
    get_stats st1 = (Ret (Snapshot j), st2) /\
    deref st2 (Snapshot i) = Some (stats (self st)) /\
    deref st2 (Snapshot j) = Some (stats (self st)) /\
    let st3 := mutate (Snapshot i) writes st1 in
    deref st3 (Snapshot i) =
      Some (foldl (fun d kv => <[kv.1 := kv.2]> d) (stats (self st)) writes) /\
    deref st3 SelfStats = Some (stats (self st)) /\
    exists k st4,
      get_stats st3 = (Ret (Snapshot k), st4) /\
      deref st4 (Snapshot k) = Some (stats (self st)).
Proof.
  eexists _, _, _, _. split; [reflexivity|]. split; [reflexivity|].
  cbn [deref get_stats snd]. norm.
  assert ((snapshots (world st) ++ [stats (self st)]) !! length (snapshots (world st))
          = Some (stats (self st))) as Hi.
  { rewrite lookup_app_r, Nat.sub_diag by lia. reflexivity. }
  split. { rewrite lookup_app_l; [exact Hi | rewrite length_app; cbn; lia]. }
  split. { rewrite lookup_app_r, length_app by (rewrite length_app; cbn; lia).
           cbn [length]. replace (_ - _)%nat with 0%nat by lia. reflexivity. }
  destruct (mutate_snapshot (length (snapshots (world st))) writes
              (get_stats st).2 (stats (self st))) as [E1 E2].
  { cbn. exact Hi. }
  cbn [get_stats snd] in E1, E2.
  cbv zeta. rewrite E1. split; [exact E2|]. split; [reflexivity|].
  eexists _, _. split; [reflexivity|]. norm. rewrite E1.
  rewrite lookup_app_r, Nat.sub_diag by lia. reflexivity.
Qed.

(** ** The parser and the keyword filter *)

Lemma prefix_app p : forall s, String.prefix p s = true <-> exists post, s = p +:+ post.
Proof.
  induction p as [|a p IH]; intros [|b s]; cbn.
  - split; [exists EmptyString; reflexivity | reflexivity].
  - split; [exists (String b s); reflexivity | reflexivity].
  - split; [discriminate | intros [post Hp]].
    change (EmptyString = String a (p +:+ post)) in Hp. discriminate.
  - destruct (Ascii.ascii_dec a b) as [->|Hne].
    + rewrite IH. split; intros [post Hp]; exists post.
      * subst. reflexivity.
      * change (String b s = String b (p +:+ post)) in Hp. congruence.
    + split; [discriminate | intros [post Hp]].
      change (String b s = String a (p +:+ post)) in Hp. congruence.
Qed.

Lemma str_contains_spec hay needle :
  str_contains hay needle = true <-> substring_of needle hay.
Proof.
  unfold substring_of. split.
  - induction hay as [|c hay IH]; cbn [str_contains]; rewrite orb_true_iff, prefix_app.
    + intros [[post Hp]|?]; [|discriminate]. exists EmptyString, post. exact Hp.
    + intros [[post Hp]|Hin].
      * exists EmptyString, post. exact Hp.
      * destruct (IH Hin) as (pre & post & ->). exists (String c pre), post. reflexivity.
  - intros (pre & post & ->). induction pre as [|c pre IH].
    + assert (String.prefix needle (needle +:+ post) = true) as Hp
        by (apply prefix_app; eauto).
      change (EmptyString +:+ needle +:+ post) with (needle +:+ post).
      destruct (needle +:+ post); cbn [str_contains]; rewrite Hp; reflexivity.
    + change (String c pre +:+ needle +:+ post)
        with (String c (pre +:+ needle +:+ post)).
      cbn [str_contains]. rewrite orb_true_iff. right. exact IH.
Qed.

Section Parser.
Context `{Runtime}.

Lemma item_record_matches kwl li name url :
  item_record kwl li = Some (name, url) -> substring_of kwl (str_lower name).
Proof.
  unfold item_record. destruct (find li font_a_crit) as [a|]; [|discriminate].
  destruct (truthy kwl && _) eqn:E; [discriminate|]. intros [= <- _].
  apply andb_false_iff in E as [E|E].
  - destruct kwl; [|discriminate]. exists EmptyString, (str_lower (get_text_strip a)).
    reflexivity.
  - apply negb_false_iff in E. apply str_contains_spec. exact E.
Qed.

Lemma item_record_empty li : item_record EmptyString li = anchor_record li.
Proof.
  unfold item_record, anchor_record. destruct (find li font_a_crit); reflexivity.
Qed.

Lemma item_record_no_anchor kwl li :
  find li font_a_crit = None -> item_record kwl li = None.
Proof. unfold item_record. intros ->. reflexivity. Qed.

Lemma soup_records_match kwl soup name url :
  (name, url) ∈ soup_records kwl soup -> substring_of kwl (str_lower name).
Proof.
  unfold soup_records. repeat case_match; try (intros ?%elem_of_nil; tauto).
  intros (li & _ & Hli)%list_elem_of_omap. eapply item_record_matches, Hli.
Qed.

Lemma page_records_match kwl html records name url :
  page_records kwl html = inr records ->
  (name, url) ∈ records -> substring_of kwl (str_lower name).
Proof.
  unfold page_records. destruct (falsy html).
  - intros [= <-] ?%elem_of_nil. tauto.
  - destruct (BeautifulSoup _) as [e|soup]; [discriminate|].
    intros [= <-]. apply soup_records_match.
Qed.

Lemma parse_run page st :
  _parse_and_filter_page page st =
  match _fetch_page page 0 st with
  | (Ret html, st1) =>
      (match page_records (keyword_lower_of (_keyword (self st1))) html with
       | inr records => Ret (page, records)
       | inl e => Raise e
       end, st1)
  | (Raise e, st1) => (Raise e, st1)
  | (OutOfFuel, st1) => (OutOfFuel, st1)
  end.
Proof.
  unfold _parse_and_filter_page, bind, page_records, soup_records.
  destruct (_fetch_page page 0 st) as [[html|e|] st1]; try reflexivity.
  destruct (falsy html); [reflexivity|].
  destruct (BeautifulSoup _) as [e|soup]; [reflexivity|].
  unfold lift_exc, ret. cbv beta iota.
  destruct (find _ section_crit) as [sec|]; [|reflexivity].
  destruct (find sec ul_crit) as [ul|]; reflexivity.
Qed.

Lemma parse_after_fetch page st html st1 :
  _fetch_page page 0 st = (Ret (Some html), st1) ->
  _parse_and_filter_page page st =
    (match page_records (keyword_lower_of (_keyword (self st))) (Some html) with
     | inr records => Ret (page, records)
     | inl e => Raise e
     end, st1).
Proof.
  intros Hfetch. rewrite parse_run, Hfetch.
  pose proof (fetch_page_sound page 0 st) as Hs. unfold wp in Hs.
  rewrite Hfetch in Hs. destruct Hs as (_ & Hst & _). cbn [snd] in Hst.
  rewrite (st_keyword _ _ Hst). reflexivity.
Qed.

Lemma page_records_parsed kwl html soup :
  truthy html = true ->
  BeautifulSoup html = inr soup ->
  page_records kwl (Some html) = inr (soup_records kwl soup).
Proof.
  intros Hhtml Hsoup. unfold page_records. cbn [falsy]. rewrite Hhtml. cbn [negb].
  change (default EmptyString (Some html)) with html. rewrite Hsoup. reflexivity.
Qed.

Lemma page_records_rejected kwl html e :
  truthy html = true ->
  BeautifulSoup html = inl e ->
  page_records kwl (Some html) = inl e.
Proof.
  intros Hhtml Hsoup. unfold page_records. cbn [falsy]. rewrite Hhtml. cbn [negb].
  change (default EmptyString (Some html)) with html. rewrite Hsoup. reflexivity.
Qed.

Lemma page_records_empty kwl : page_records kwl (Some EmptyString) = inr [].
Proof. reflexivity. Qed.

Lemma soup_records_found kwl soup target_section font_ul :
  find soup section_crit = Some target_section ->
  find target_section ul_crit = Some font_ul ->
  soup_records kwl soup = omap (item_record kwl) (find_all font_ul (has_name "li")).
Proof. intros Hsec Hul. unfold soup_records. rewrite Hsec, Hul. reflexivity. Qed.

(** C7 (amended): for every text fetched for a page that the parser
    accepts, [_parse_and_filter_page] returns; the record list is empty when
    the results container is missing and when the item list is missing in
    it; otherwise it holds at most one record per item, and an item without
    the anchor gives no record.  For a text the parser rejects, the
    exception of the parser leaves [_parse_and_filter_page]: the call
    raises, and the task of the page ends with that exception. *)
Theorem parse_tolerates_missing_markup page st html st1 :
  _fetch_page page 0 st = (Ret (Some html), st1) ->
  truthy html = true ->
  (forall e,
      BeautifulSoup html = inl e ->
      _parse_and_filter_page page st = (Raise e, st1) /\
      run_task page st = (Ret (inl e), st1)) /\
  (forall soup,
      BeautifulSoup html = inr soup ->
      exists records,
        _parse_and_filter_page page st = (Ret (page, records), st1) /\
        (find soup section_crit = None -> records = []) /\
        (forall target_section,
            find soup section_crit = Some target_section ->
            find target_section ul_crit = None -> records = []) /\
        (forall target_section font_ul,
            find soup section_crit = Some target_section ->
            find target_section ul_crit = Some font_ul ->
            records = omap (item_record (keyword_lower_of (_keyword (self st))))
                           (find_all font_ul (has_name "li")))) /\
  (forall kwl li, find li font_a_crit = None -> item_record kwl li = None).
Proof.
  intros Hfetch Hhtml. split; [|split].
  - intros e He. pose proof (parse_after_fetch page st html st1 Hfetch) as Hrun.
    rewrite (page_records_rejected _ html e Hhtml He) in Hrun.
    split; [exact Hrun|]. unfold run_task. rewrite Hrun. reflexivity.
  - intros soup Hsoup. eexists. split.
    { rewrite (parse_after_fetch page st html st1 Hfetch).
      rewrite (page_records_parsed _ html soup Hhtml Hsoup). reflexivity. }
    split; [|split].
    + intros Hsec. unfold soup_records. rewrite Hsec. reflexivity.
    + intros sec Hsec Hul. unfold soup_records. rewrite Hsec, Hul. reflexivity.
    + intros sec ul. apply soup_records_found.
  - apply item_record_no_anchor.
Qed.

End Parser.

(** ** Page-count detection *)

Lemma foldl_max_spec l : forall x,
  foldl Z.max x l ∈ x :: l /\ forall m, m ∈ x :: l -> m <= foldl Z.max x l.
Proof.
  induction l as [|a l IH]; intros x; cbn [foldl].
  - split; [left|]. intros m ->%list_elem_of_singleton. lia.
  - destruct (IH (Z.max x a)) as [Hin Hub]. split.
    + apply elem_of_cons in Hin as [->|Hin].
      * destruct (Z.max_spec x a) as [[_ ->]|[_ ->]]; [right; left | left].
      * right; right; exact Hin.
    + intros m Hm. assert (Z.max x a <= foldl Z.max (Z.max x a) l) by (apply Hub; left).
      apply elem_of_cons in Hm as [->|Hm]; [lia|].
      apply elem_of_cons in Hm as [->|Hm]; [lia|].
      apply Hub. right. exact Hm.
Qed.

Lemma py_max_spec l n :
  py_max l = Some n -> n ∈ l /\ forall m, m ∈ l -> m <= n.
Proof.
  destruct l as [|x l]; [discriminate|]. intros [= <-]. apply foldl_max_spec.
Qed.

Section Discovery.
Context `{Runtime}.

Lemma page_link_href link :
  page_link_crit link = true ->
  is_Some (page_regex_search (default EmptyString (get link "href"))).
Proof.
  unfold page_link_crit, attr_satisfies. intros [_ Hh]%andb_true_iff.
  destruct (get link "href") as [h|]; [|discriminate].
  apply bool_decide_eq_true in Hh. exact Hh.
Qed.

Lemma page_index_inv link r :
  page_index link = Some r ->
  exists g, page_regex_search (default EmptyString (get link "href")) = Some g /\
            py_int g = r.
Proof.
  unfold page_index. destruct (page_regex_search _) as [g|]; [|discriminate].
  intros [= <-]. eauto.
Qed.

(** The comprehension reads the page index of each link, in order. *)
Lemma page_numbers_of_indexes links : forall indexes,
  Forall2 (fun link i => page_index link = Some (inr i)) links indexes ->
  page_numbers_of links = inr indexes.
Proof.
  induction links as [|link links IH]; intros indexes Hall;
    inversion Hall as [|? i ? rest Hlink Hrest]; subst; [reflexivity|].
  cbn [page_numbers_of]. apply page_index_inv in Hlink as (g & -> & ->).
  rewrite (IH rest Hrest). reflexivity.
Qed.

Lemma page_numbers_of_raises links link e :
  link ∈ links -> page_index link = Some (inl e) ->
  exists e', page_numbers_of links = inl e'.
Proof.
  intros Hin Hlink. apply page_index_inv in Hlink as (g & Hg & Hint).
  induction links as [|l links IH]; [apply elem_of_nil in Hin; tauto|].
  cbn [page_numbers_of]. apply elem_of_cons in Hin as [<-|Hin].
  - rewrite Hg, Hint. exists e. reflexivity.
  - destruct (IH Hin) as [e' He'].
    destruct (page_regex_search (default EmptyString (get l "href"))) as [g'|];
      [|exists e'; exact He'].
    destruct (py_int g') as [e''|n]; [exists e''; reflexivity|].
    rewrite He'. exists e'. reflexivity.
Qed.

Lemma find_all_crit root crit :
  Forall (fun n => crit n = true) (find_all root crit).
Proof.
  apply Forall_forall. intros n Hn%list_elem_of_In.
  apply filter_In in Hn. tauto.
Qed.

Lemma detect_run st :
  _detect_total_pages st =
  match _fetch_page 1 0 st with
  | (Ret html, st1) => (Ret (pager_total html), st1)
  | (Raise e, st1) => (Ret 383, st1)
  | (OutOfFuel, st1) => (OutOfFuel, st1)
  end.
Proof.
  unfold _detect_total_pages, try_except, bind, pager_total.
  destruct (_fetch_page 1 0 st) as [[html|e|] st1]; try reflexivity.
  destruct (falsy html); [reflexivity|].
  destruct (BeautifulSoup _) as [e|soup]; [reflexivity|].
  unfold lift_exc at 1, ret at 1. cbv beta iota.
  destruct (find _ pager_crit) as [pager|]; [|reflexivity].
  destruct (find_all pager page_link_crit); [reflexivity|].
  unfold lift_exc. destruct (page_numbers_of _); reflexivity.
Qed.

Lemma pager_total_parsed html soup :
  truthy html = true -> BeautifulSoup html = inr soup ->
  pager_total (Some html) =
  match find soup pager_crit with
  | Some pager =>
      match find_all pager page_link_crit with
      | [] => 383
      | page_links =>
          match page_numbers_of page_links with
          | inl _ => 383
          | inr page_numbers => default 383 (py_max page_numbers)
          end
      end
  | None => 383
  end.
Proof.
  intros Hhtml Hsoup. unfold pager_total. cbn [falsy]. rewrite Hhtml. cbn [negb].
  change (default EmptyString (Some html)) with html. rewrite Hsoup. reflexivity.
Qed.

(** C4: [_detect_total_pages] always returns, and never raises.  It
    returns 383 when the fetch of page 1 gives nothing (it returns [None] or
    an empty text, or it raises), when the parser raises, when the page has
    no pager, when the pager has no page-number link, and when reading the
    page index of one of the links raises; otherwise every page-number link
    of the pager has a page index and the result is the largest of them. *)
Theorem detect_total_pages_fallback st :
  exists n st',
    _detect_total_pages st = (Ret n, st') /\
    ((_fetch_page 1 0 st).1 = Ret None \/
     (_fetch_page 1 0 st).1 = Ret (Some EmptyString) \/
     (exists e, (_fetch_page 1 0 st).1 = Raise e) ->
     n = 383) /\
    (forall html,
        (_fetch_page 1 0 st).1 = Ret (Some html) ->
        truthy html = true ->
        (forall e, BeautifulSoup html = inl e -> n = 383) /\
        (forall soup,
            BeautifulSoup html = inr soup ->
            (find soup pager_crit = None -> n = 383) /\
            (forall pager,
                find soup pager_crit = Some pager ->
                (find_all pager page_link_crit = [] -> n = 383) /\
                (forall link e,
                    link ∈ find_all pager page_link_crit ->
                    page_index link = Some (inl e) -> n = 383) /\
                (forall indexes,
                    find_all pager page_link_crit <> [] ->
                    Forall2 (fun link i => page_index link = Some (inr i))
                            (find_all pager page_link_crit) indexes ->
                    n ∈ indexes /\ forall m, m ∈ indexes -> m <= n) /\
                ((exists link e, link ∈ find_all pager page_link_crit /\
                                 page_index link = Some (inl e)) \/
                 (exists indexes,
                    Forall2 (fun link i => page_index link = Some (inr i))
                            (find_all pager page_link_crit) indexes))))).
Proof.
  pose proof (fetch_page_sound 1 0 st) as Hs. unfold wp in Hs.
  rewrite detect_run.
  destruct (_fetch_page 1 0 st) as [[html|e|] st1]; cbn [fst snd] in *;
    [| |destruct Hs as [Hs _]; congruence].
  2: { eexists _, _. split; [reflexivity|]. split; [reflexivity|].
       intros html [=]. }
  eexists _, _. split; [reflexivity|]. split.
  - intros [[= ->]|[[= ->]|[e [=]]]]; reflexivity.
  - intros html' [= ->] Ht. split.
    { intros e He. unfold pager_total. cbn [falsy]. rewrite Ht. cbn [negb].
      change (default EmptyString (Some html')) with html'. rewrite He. reflexivity. }
    intros soup Hsoup. rewrite (pager_total_parsed html' soup Ht Hsoup).
    split; [intros ->; reflexivity|]. intros pager ->.
    pose proof (find_all_crit pager page_link_crit) as Hcrit.
    destruct (find_all pager page_link_crit) as [|l links] eqn:Elinks;
      [repeat split; try congruence; right; exists []; constructor|].
    split; [discriminate|]. split; [|split].
    + intros link e Hin Hlink.
      destruct (page_numbers_of_raises _ link e Hin Hlink) as [e' ->]. reflexivity.
    + intros indexes _ Hall. rewrite (page_numbers_of_indexes _ _ Hall).
      inversion Hall as [|? i ? rest _ _]; subst. apply py_max_spec. reflexivity.
    + clear Elinks. induction Hcrit as [|link rest Hlink _ IH];
        [right; exists []; constructor|].
      destruct (page_link_href link Hlink) as [g Hg].
      assert (page_index link = Some (py_int g)) as Hidx
        by (unfold page_index; rewrite Hg; reflexivity).
      destruct (py_int g) as [e|i] eqn:Hint.
      * left. exists link, e. split; [left | exact Hidx].
      * destruct IH as [(link' & e & Hin & Hraise)|[indexes Hall]].
        -- left. exists link', e. split; [right; exact Hin | exact Hraise].
        -- right. exists (i :: indexes). constructor; assumption.
Qed.

End Discovery.

(** ** The generator *)

Lemma event_type_event ty c : event_type (event ty c) = Some ty.
Proof. apply lookup_insert_eq. Qed.

Lemma is_status_status c : is_status (status c) = true.
Proof. unfold is_status, status. rewrite event_type_event. reflexivity. Qed.

Lemma is_status_result r : is_status (result_event r) = false.
Proof. unfold is_status, result_event. rewrite event_type_event. reflexivity. Qed.

Lemma is_status_true ev : is_status ev = true <-> event_type ev = Some "status".
Proof. unfold is_status. apply bool_decide_eq_true. Qed.

Lemma status_not_done ev : event_type ev = Some "status" -> is_done ev = false.
Proof. unfold is_done. intros ->. reflexivity. Qed.

Lemma result_not_done r : is_done (result_event r) = false.
Proof. unfold is_done, result_event. rewrite event_type_event. reflexivity. Qed.

Lemma is_result_result r : is_result (result_event r) = true.
Proof. unfold is_result, result_event. rewrite event_type_event. reflexivity. Qed.

Lemma is_result_status c : is_result (status c) = false.
Proof. unfold is_result, status. rewrite event_type_event. reflexivity. Qed.

Lemma wp_bind_rel {A B} (m : M A) (k : A -> M B) P Q st :
  wp m P st ->
  (forall o st', P o st' ->
     match o with
     | Ret a => wp (k a) Q st'
     | Raise e => Q (Raise e) st'
     | OutOfFuel => Q OutOfFuel st'
     end) ->
  wp (bind m k) Q st.
Proof.
  intros Hm Hk. apply wp_bind. eapply wp_mono; [exact Hm|]. exact Hk.
Qed.

Ltac norm_all :=
  cbv beta iota in *;
  cbn [self world stats max_retries max_workers should_stop base_url timeout
       _keyword snapshots requests polls slept submitted yielded
       with_stats with_world with_keyword with_should_stop with_snapshots
       log_poll log_request log_sleep log_submit log_yield fst snd] in *.

Ltac emits_tac :=
  unfold emits in *;
  repeat match goal with
         | H : _ /\ _ |- _ => destruct H
         | H : stable _ _ |- _ => destruct H
         | H : quiet _ _ |- _ => destruct H
         end;
  norm_all;
  repeat split; norm; try congruence;
  try (intros ? ?; eauto 10);
  try (repeat match goal with
              | H : yielded (world ?s) = _ |- context [yielded (world ?s)] =>
                  rewrite H
              end;
       rewrite ?app_nil_r, <- ?app_assoc; reflexivity).

Lemma emits_refl st : emits [] st st.
Proof. emits_tac. Qed.

Lemma never_cancelled_stable st st' :
  stable st st' -> never_cancelled st -> never_cancelled st'.
Proof. intros [] Hn n. congruence. Qed.

Section Generator.
Context `{Runtime}.

Lemma run_task_sound page st :
  wp (run_task page)
     (fun o st' =>
        (exists r, o = Ret r /\
           forall p records, r = inr (p, records) ->
             forall name url, (name, url) ∈ records ->
               substring_of (keyword_lower_of (_keyword (self st))) (str_lower name)) /\
        emits [] st st') st.
Proof.
  unfold wp, run_task. rewrite parse_run.
  pose proof (fetch_page_sound page 0 st) as Hs. unfold wp in Hs.
  destruct (_fetch_page page 0 st) as [[html|e|] st1]; cbn [fst snd] in *;
    destruct Hs as (Hoof & Hst & Hq); [| |congruence].
  - destruct (page_records _ html) as [e|records] eqn:Hrec; cbn [fst snd].
    + split; [|emits_tac]. eexists. split; [reflexivity|]. discriminate.
    + split; [|emits_tac]. eexists. split; [reflexivity|].
      intros p recs [= <- <-] name url Hin.
      rewrite (st_keyword _ _ Hst) in Hrec. eapply page_records_match; eauto.
  - split; [|emits_tac]. eexists. split; [reflexivity|]. discriminate.
Qed.

Lemma run_remaining_sound pages : forall st,
  wp (run_remaining pages) (fun o st' => o = Ret tt /\ emits [] st st') st.
Proof.
  induction pages as [|page pages IH]; intros st; cbn [run_remaining].
  - apply wp_ret. split; [reflexivity | apply emits_refl].
  - eapply wp_bind_rel; [apply run_task_sound|].
    intros o st1 ((r & -> & _) & Hem). eapply wp_mono; [apply IH|].
    cbv beta. intros o st2 (-> & Hem2). split; [reflexivity|]. emits_tac.
Qed.

Lemma yield_all_sound evs : forall st,
  wp (yield_all evs) (fun o st' => o = Ret tt /\ emits evs st st') st.
Proof.
  induction evs as [|ev evs IH]; intros st; cbn [yield_all].
  - apply wp_ret. split; [reflexivity | apply emits_refl].
  - apply wp_bind, wp_yield. eapply wp_mono; [apply IH|].
    cbv beta. intros o st2 (-> & Hem2). split; [reflexivity|]. emits_tac.
Qed.

Lemma submit_all_sound pages : forall st,
  wp (submit_all pages)
     (fun o st' => o = Ret tt /\ stable st st' /\
                   yielded (world st') = yielded (world st) /\
                   submitted (world st') = submitted (world st) ++ pages) st.
Proof.
  induction pages as [|page pages IH]; intros st; cbn [submit_all].
  - apply wp_ret. rewrite app_nil_r. repeat split; auto.
  - apply wp_bind, wp_submit. eapply wp_mono; [apply IH|].
    cbv beta. intros o st2 (-> & [] & Hy & Hs). norm_all.
    repeat split; try congruence; auto. rewrite Hs, <- app_assoc. reflexivity.
Qed.

Lemma detect_sound st :
  wp _detect_total_pages
     (fun o st' => (exists n, o = Ret n) /\ emits [] st st') st.
Proof.
  unfold wp. rewrite detect_run.
  pose proof (fetch_page_sound 1 0 st) as Hs. unfold wp in Hs.
  destruct (_fetch_page 1 0 st) as [[html|e|] st1]; cbn [fst snd] in *;
    destruct Hs as (Hoof & Hst & Hq); [| |congruence];
    (split; [eauto | emits_tac]).
Qed.

Lemma result_events_reported kwl (records : list (string * string)) :
  (forall name url, (name, url) ∈ records -> substring_of kwl (str_lower name)) ->
  Forall (fun ev => event_type ev = Some "status" \/ matching_result kwl ev)
         (result_event <$> records).
Proof.
  intros Hrec. apply Forall_fmap, Forall_forall. intros [name url] Hin.
  right. exists name, url. split; [reflexivity|]. eapply Hrec, Hin.
Qed.

Lemma filter_status_results (records : list (string * string)) evs :
  List.filter is_status ((result_event <$> records) ++ evs) = List.filter is_status evs.
Proof.
  induction records as [|r records IH]; [reflexivity|].
  cbn [fmap list_fmap app List.filter]. rewrite is_status_result. exact IH.
Qed.

Lemma filter_result_results (records : list (string * string)) evs :
  length (List.filter is_result ((result_event <$> records) ++ evs)) =
  (length records + length (List.filter is_result evs))%nat.
Proof.
  induction records as [|r records IH]; [reflexivity|].
  cbn [fmap list_fmap app List.filter]. rewrite is_result_result. cbn [length].
  rewrite IH. reflexivity.
Qed.

Lemma drain_sound total_pages kwl futures : forall completed found st,
  keyword_lower_of (_keyword (self st)) = kwl ->
  wp (drain total_pages futures completed found)
     (fun o st' =>
        (exists found', o = Ret found') /\
        exists evs,
          emits evs st st' /\
          Forall (fun ev => event_type ev = Some "status" \/ matching_result kwl ev) evs /\
          (never_cancelled st ->
           length (List.filter is_status evs) = length futures) /\
          o = Ret (found + Z.of_nat (length (List.filter is_result evs)))) st.
Proof.
  induction futures as [|page rest IH]; intros completed found st Hk; cbn [drain].
  - apply wp_ret. split; [eauto|]. exists []. split; [apply emits_refl|].
    split; [constructor|]. split; [reflexivity|]. cbn. f_equal. lia.
  - eapply wp_bind_rel; [apply run_task_sound|].
    intros o st1 ((r & -> & Hr) & Hem1). rewrite Hk in Hr.
    assert (should_stop (self st1) = should_stop (self st)) as Hss
      by (destruct Hem1 as ([] & _); assumption).
    assert (keyword_lower_of (_keyword (self st1)) = kwl) as Hk1
      by (destruct Hem1 as ([] & _); congruence).
    apply wp_bind, wp_poll. norm.
    destruct (should_stop (self st1) (polls (world st1))) eqn:Hstop.
    + apply wp_bind, wp_yield. norm.
      eapply wp_bind_rel; [apply run_remaining_sound|].
      intros o st3 (-> & Hem3). apply wp_ret. split; [eauto|].
      eexists [_]. split; [emits_tac|]. split; [|split].
      * constructor; [left; apply event_type_event | constructor].
      * intros Hn. rewrite Hss, Hn in Hstop. discriminate.
      * cbn [List.filter]. rewrite is_result_status. cbn. f_equal. lia.
    + destruct r as [e|[p matched]].
      * apply wp_bind, wp_yield. norm.
        eapply wp_mono; [apply IH; exact Hk1|]. cbv beta.
        intros o st3 (Hret & evs & Hem & Hgood & Hcount & Hfound). split; [exact Hret|].
        eexists (_ :: evs). split; [emits_tac|]. split; [|split].
        -- constructor; [left; apply event_type_event | exact Hgood].
        -- intros Hn. cbn [List.filter]. rewrite is_status_status. cbn [length].
           f_equal. apply Hcount. intros n. norm. rewrite Hss. apply Hn.
        -- cbn [List.filter]. rewrite is_result_status. exact Hfound.
      * apply wp_bind, wp_yield. norm.
        destruct matched as [|m ms].
        -- eapply wp_mono; [apply IH; exact Hk1|]. cbv beta.
           intros o st3 (Hret & evs & Hem & Hgood & Hcount & Hfound). split; [exact Hret|].
           eexists (_ :: evs). split; [emits_tac|]. split; [|split].
           ++ constructor; [left; apply event_type_event | exact Hgood].
           ++ intros Hn. cbn [List.filter]. rewrite is_status_status. cbn [length].
              f_equal. apply Hcount. intros n. norm. rewrite Hss. apply Hn.
           ++ cbn [List.filter]. rewrite is_result_status. exact Hfound.
        -- eapply wp_bind_rel; [apply yield_all_sound|].
           intros o st2 (-> & Hem2).
           assert (keyword_lower_of (_keyword (self st2)) = kwl) as Hk2.
           { destruct Hem2 as ([] & _). norm_all. congruence. }
           assert (should_stop (self st2) = should_stop (self st1)) as Hss2.
           { destruct Hem2 as ([] & _). norm_all. congruence. }
           eapply wp_mono; [apply IH; exact Hk2|]. cbv beta.
           intros o st3 (Hret & evs & Hem & Hgood & Hcount & Hfound). split; [exact Hret|].
           eexists (_ :: (result_event <$> m :: ms) ++ evs).
           split; [emits_tac|]. split; [|split].
           ++ constructor; [left; apply event_type_event |].
              apply Forall_app. split; [|exact Hgood].
              apply result_events_reported. intros name url Hin.
              eapply (Hr p (m :: ms) eq_refl), Hin.
           ++ intros Hn. cbn [List.filter]. rewrite is_status_status. cbn [length].
              f_equal. rewrite filter_status_results. apply Hcount.
              intros n. rewrite Hss2, Hss. apply Hn.
           ++ cbn [List.filter]. rewrite is_result_status, filter_result_results.
              rewrite Hfound. f_equal. cbn [length]. lia.
Qed.

Lemma wp_self {A} (m : M A) (Q : outcome A -> State -> Prop) st :
  wp m Q st -> wp m (fun o st' => Q o st' /\ (m st).1 = o) st.
Proof. unfold wp. auto. Qed.

Lemma search_run keyword st :
  wp (search keyword)
     (fun o st' =>
        exists total_pages evs,
          (_detect_total_pages
             (with_world (log_yield (status detecting_msg) (world st))
                         (with_keyword keyword st))).1 = Ret total_pages /\
          submitted (world st') = submitted (world st) ++ seqZ 1 total_pages /\
          yielded (world st') = yielded (world st) ++ evs /\
          Forall (fun ev => event_type ev = Some "status" \/
                            matching_result (str_lower keyword) ev) evs /\
          (never_cancelled st -> has_counters st ->
           o = Ret tt /\
           exists drained total_found t s f r,
             evs = [status detecting_msg; status (detected_msg total_pages);
                    status (starting_msg (max_workers (self st)) keyword)]
                   ++ drained ++ [status (summary_msg total_found t s f r)] /\
             length (List.filter is_status drained) = Z.to_nat total_pages /\
             counter st' "total_requests" = Some t /\
             counter st' "successful_requests" = Some s /\
             counter st' "failed_requests" = Some f /\
             counter st' "retried_requests" = Some r /\
             total_found = Z.of_nat (length (List.filter is_result drained))) /\
          o <> OutOfFuel) st.
Proof.
  unfold search.
  match goal with |- wp _ ?Q _ => set (Post := Q) end.
  apply wp_bind, wp_set_keyword. apply wp_bind, wp_yield.
  eapply wp_bind_rel; [apply wp_self, detect_sound|].
  intros o st1 (((n & ->) & Hem1) & Hn).
  apply wp_bind, wp_yield. apply wp_bind, wp_attr. apply wp_bind, wp_yield.
  eapply wp_bind_rel; [apply submit_all_sound|].
  intros o st2 (-> & Hst2 & Hy2 & Hsub2).
  eapply wp_bind_rel; [apply (drain_sound n (str_lower keyword))|].
  { destruct Hst2, Hem1 as ([] & _). norm_all.
    replace (_keyword (self st2)) with (Some keyword) by congruence. reflexivity. }
  intros o st3 ((found & ->) & drained & Hem3 & Hgood & Hcount & Hfound).
  injection Hfound as Hfound. rewrite Z.add_0_l in Hfound.
  assert (should_stop (self st3) = should_stop (self st)) as Hss.
  { destruct Hst2, Hem1 as ([] & _), Hem3 as ([] & _). norm_all. congruence. }
  assert (max_workers (self st1) = max_workers (self st)) as Hmw.
  { destruct Hem1 as ([] & _). norm_all. congruence. }
  assert (forall k, is_Some (stats (self st) !! k) -> is_Some (stats (self st3) !! k)) as Hkeys.
  { destruct Hst2, Hem1 as ([] & _), Hem3 as ([] & _). norm_all. auto 10. }
  assert (submitted (world st3) = submitted (world st) ++ seqZ 1 n) as Hsub3.
  { destruct Hem1 as (_ & ? & _), Hem3 as (_ & ? & _). norm_all. congruence. }
  assert (yielded (world st3) =
          yielded (world st) ++
            ([status detecting_msg; status (detected_msg n);
              status (starting_msg (max_workers (self st)) keyword)] ++ drained)) as Hy3.
  { destruct Hem1 as (_ & _ & Hy1), Hem3 as (_ & _ & Hy3). norm_all.
    rewrite Hy3, Hy2, Hy1, Hmw, app_nil_r, <- !app_assoc. reflexivity. }
  assert (Forall (fun ev => event_type ev = Some "status" \/
                            matching_result (str_lower keyword) ev)
            ([status detecting_msg; status (detected_msg n);
              status (starting_msg (max_workers (self st)) keyword)] ++ drained)) as Hall.
  { apply Forall_app. split; [|exact Hgood].
    repeat (constructor; [left; apply event_type_event|]). constructor. }
  assert (should_stop (self st2) = should_stop (self st)) as Hss2.
  { destruct Hst2, Hem1 as ([] & _). norm_all. congruence. }
  clear Hem1 Hst2 Hy2 Hsub2 Hem3.
  apply wp_bind, wp_poll. norm.
  destruct (should_stop (self st3) (polls (world st3))) eqn:Hstop.
  { apply wp_ret. exists n. eexists. norm.
    split; [exact Hn|]. split; [exact Hsub3|]. split; [exact Hy3|].
    split; [exact Hall|]. split; [|discriminate]. intros Hnever _.
    rewrite Hss, Hnever in Hstop. discriminate. }
  assert (forall k e,
             k ∈ ["total_requests"; "successful_requests"; "failed_requests";
                  "retried_requests"] ->
             stats (self st3) !! k = None ->
             Post (Raise e) (with_world (log_poll (world st3)) st3)) as Hmiss.
  { intros k e Hk Hnone. exists n. eexists. norm.
    split; [exact Hn|]. split; [exact Hsub3|]. split; [exact Hy3|].
    split; [exact Hall|]. split; [|discriminate]. intros _ (H1 & H2 & H3 & H4). exfalso.
    unfold counter in *.
    assert (is_Some (stats (self st) !! k)) as Hsome.
    { repeat (apply elem_of_cons in Hk as [->|Hk]; [assumption|]).
      apply elem_of_nil in Hk. tauto. }
    apply Hkeys in Hsome. rewrite Hnone in Hsome. destruct Hsome; discriminate. }
  apply wp_bind, wp_getitem. norm.
  destruct (stats (self st3) !! "total_requests") as [t|] eqn:Et;
    [|apply (Hmiss "total_requests"); [set_solver | exact Et]].
  apply wp_bind, wp_getitem. norm.
  destruct (stats (self st3) !! "successful_requests") as [s|] eqn:Es;
    [|apply (Hmiss "successful_requests"); [set_solver | exact Es]].
  apply wp_bind, wp_getitem. norm.
  destruct (stats (self st3) !! "failed_requests") as [f|] eqn:Ef;
    [|apply (Hmiss "failed_requests"); [set_solver | exact Ef]].
  apply wp_bind, wp_getitem. norm.
  destruct (stats (self st3) !! "retried_requests") as [r|] eqn:Er;
    [|apply (Hmiss "retried_requests"); [set_solver | exact Er]].
  apply wp_yield. subst Post. norm.
  exists n, (([status detecting_msg; status (detected_msg n);
               status (starting_msg (max_workers (self st)) keyword)] ++ drained)
             ++ [status (summary_msg found t s f r)]).
  split; [assumption|]. split; [assumption|].
  split; [rewrite Hy3, <- !app_assoc; reflexivity|].
  split. { apply Forall_app. split; [exact Hall|].
           constructor; [left; apply event_type_event | constructor]. }
  split; [|discriminate]. intros Hnever _. split; [reflexivity|].
  exists drained, found, t, s, f, r. unfold counter. norm.
  split; [rewrite <- !app_assoc; reflexivity|].
  split; [|repeat (split; [assumption|]); exact Hfound].
  rewrite Hcount.
  - rewrite (Permutation_length (as_completed_perm _)), length_seqZ. reflexivity.
  - intros k. rewrite Hss2. apply Hnever.
Qed.

Lemma search_sound keyword st :
  wp (search keyword)
     (fun o st' =>
        exists total_pages evs,
          (_detect_total_pages
             (with_world (log_yield (status detecting_msg) (world st))
                         (with_keyword keyword st))).1 = Ret total_pages /\
          submitted (world st') = submitted (world st) ++ seqZ 1 total_pages /\
          yielded (world st') = yielded (world st) ++ evs /\
          Forall (fun ev => event_type ev = Some "status" \/
                            matching_result (str_lower keyword) ev) evs /\
          (never_cancelled st -> has_counters st ->
           o = Ret tt /\
           exists drained total_found t s f r,
             evs = [status detecting_msg; status (detected_msg total_pages);
                    status (starting_msg (max_workers (self st)) keyword)]
                   ++ drained ++ [status (summary_msg total_found t s f r)] /\
             length (List.filter is_status drained) = Z.to_nat total_pages /\
             counter st' "total_requests" = Some t /\
             counter st' "successful_requests" = Some s /\
             counter st' "failed_requests" = Some f /\
             counter st' "retried_requests" = Some r)) st.
Proof.
  eapply wp_mono; [apply search_run|]. cbv beta.
  intros o st' (n & evs & Hn & Hsub & Hy & Hgood & Hfull & _).
  exists n, evs. repeat (split; [assumption|]). intros Hnever Hcounters.
  destruct (Hfull Hnever Hcounters)
    as (Ho & drained & found & t & s & f & r & Hevs & Hlen & Ht & Hs & Hf & Hr & _).
  split; [exact Ho|]. exists drained, found, t, s, f, r. auto 10.
Qed.

End Generator.

(** ** Workers on the shared counters *)
Section WorkersFacts.
Import Workers.

Lemma remaining_split k l1 w l2 :
  remaining k (l1 ++ w :: l2) =
  remaining k l1 + occurrences k (pending w) + remaining k l2.
Proof.
  unfold remaining, occurrences.
  rewrite flat_map_app. cbn [flat_map].
  rewrite !List.filter_app, !length_app. lia.
Qed.

Lemma occurrences_cons k k' rest :
  occurrences k (k' :: rest) = (if String.eqb k k' then 1 else 0) + occurrences k rest.
Proof.
  unfold occurrences. cbn [List.filter]. destruct (String.eqb k k'); cbn [length]; lia.
Qed.

Lemma occurrences_nil k : occurrences k [] = 0.
Proof. reflexivity. Qed.

Lemma occurrences_nonneg k keys : 0 <= occurrences k keys.
Proof. unfold occurrences. lia. Qed.

Lemma step_at l1 w l2 st :
  step (length l1) (l1 ++ w :: l2, st) =
  (l1 ++ (step_worker w st).1 :: l2, (step_worker w st).2).
Proof.
  unfold step. cbn [fst snd]. rewrite list_lookup_middle by reflexivity.
  destruct (step_worker w st) as [w' st']. cbn [fst snd]. f_equal.
  rewrite <- (Nat.add_0_r (length l1)), insert_app_r. reflexivity.
Qed.

Lemma step_split i ws st w :
  ws !! i = Some w ->
  exists l1 l2,
    ws = l1 ++ w :: l2 /\ i = length l1 /\
    step i (ws, st) = (l1 ++ (step_worker w st).1 :: l2, (step_worker w st).2).
Proof.
  intros Hw. exists (take i ws), (drop (S i) ws).
  assert (length (take i ws) = i) as Hlen.
  { apply length_take_le. apply lookup_lt_Some in Hw. lia. }
  split; [symmetry; apply take_drop_middle; exact Hw|]. split; [auto|].
  rewrite <- (take_drop_middle ws i w Hw) at 1. rewrite <- Hlen at 1.
  apply step_at.
Qed.

Lemma step_none i ws st : ws !! i = None -> step i (ws, st) = (ws, st).
Proof. unfold step. cbn. intros ->. reflexivity. Qed.

Lemma turn_at l1 w l2 st :
  step (length l1) (step (length l1) (l1 ++ w :: l2, st)) =
  (l1 ++ (step_worker (step_worker w st).1 (step_worker w st).2).1 :: l2,
   (step_worker (step_worker w st).1 (step_worker w st).2).2).
Proof. rewrite step_at. apply step_at. Qed.

Section Bound.
Variables (k : string) (v0 B : Z).

Lemma in_flight_mono R R' w : R' <= R -> in_flight_ok k v0 B R w -> in_flight_ok k v0 B R' w.
Proof. intros HR Hw u rest Hl Hp. destruct (Hw u rest Hl Hp). lia. Qed.

Lemma step_bounded i s : bounded k v0 B s -> bounded k v0 B (step i s).
Proof.
  destruct s as [ws st]. intros (v & Hv & Hge & Hle & Hall). cbn [fst snd] in *.
  destruct (ws !! i) as [w|] eqn:Hw; [|rewrite step_none by exact Hw; exists v; auto].
  destruct (step_split i ws st w Hw) as (l1 & l2 & -> & _ & ->).
  rewrite remaining_split in Hle, Hall.
  unfold bounded, counter in *. cbn [fst snd]. rewrite remaining_split.
  assert (forall R R' w1 w2,
             R' <= R -> in_flight_ok k v0 B R' w1 ->
             Forall (in_flight_ok k v0 B R) (l1 ++ w2 :: l2) ->
             Forall (in_flight_ok k v0 B R') (l1 ++ w1 :: l2)) as Hrest.
  { intros R R' w1 w2 HR Hw1 [H1 [_ H2]%Forall_cons]%Forall_app.
    apply Forall_app. split; [|apply Forall_cons; split; [exact Hw1|]].
    - eapply Forall_impl; [exact H1|]. intros w'. apply in_flight_mono. exact HR.
    - eapply Forall_impl; [exact H2|]. intros w'. apply in_flight_mono. exact HR. }
  assert (in_flight_ok k v0 B (remaining k l1 + occurrences k (pending w) + remaining k l2) w)
    as Hw0 by (apply Forall_app in Hall as [_ [? _]%Forall_cons]; assumption).
  unfold step_worker.
  destruct (pending w) as [|k' rest] eqn:Hp.
  { exists v. cbn [fst snd]. rewrite Hp. auto. }
  rewrite occurrences_cons in *.
  pose proof (occurrences_nonneg k rest) as Hnn.
  destruct (loaded w) as [u|] eqn:Hl.
  - (* the write *)
    cbn [fst snd setitem pending loaded with_stats self stats].
    destruct (String.eqb k k') eqn:Hk.
    + apply String.eqb_eq in Hk as <-.
      destruct (Hw0 u rest Hl Hp) as [Hu1 Hu2].
      exists (u + 1). rewrite lookup_insert_eq.
      split; [reflexivity|]. split; [lia|]. split; [lia|].
      eapply Hrest; [|intros ? ? [=]|exact Hall]. lia.
    + apply String.eqb_neq in Hk.
      exists v. rewrite lookup_insert_ne by congruence.
      split; [exact Hv|]. split; [exact Hge|]. split; [lia|].
      eapply Hrest; [|intros ? ? [=]|exact Hall]. lia.
  - (* the read *)
    unfold stats_getitem. destruct (stats (self st) !! k') as [u|] eqn:Hu;
      cbn [fst snd pending loaded].
    + exists v. rewrite occurrences_cons.
      split; [exact Hv|]. split; [exact Hge|]. split; [exact Hle|].
      eapply Hrest; [|clear Hrest|exact Hall]; [lia|].
      intros u' rest' [= <-] [= -> <-].
      rewrite Hv in Hu. injection Hu as <-. rewrite String.eqb_refl in *. lia.
    + exists v. rewrite occurrences_nil.
      assert (0 <= (if String.eqb k k' then 1 else 0)) by (destruct (String.eqb k k'); lia).
      split; [exact Hv|]. split; [exact Hge|]. split; [lia|].
      eapply Hrest; [|intros ? ? [=]|exact Hall]. lia.
Qed.

Lemma run_bounded schedule : forall s, bounded k v0 B s -> bounded k v0 B (run schedule s).
Proof.
  induction schedule as [|i schedule IH]; intros s Hs; [exact Hs|].
  apply IH, step_bounded, Hs.
Qed.

Lemma turn_settled i s : settled k B s -> settled k B (step i (step i s)).
Proof.
  destruct s as [ws st]. intros (v & Hv & HB & Hall). cbn [fst snd] in *.
  destruct (ws !! i) as [w|] eqn:Hw;
    [|rewrite !step_none by exact Hw; exists v; auto].
  destruct (step_split i ws st w Hw) as (l1 & l2 & -> & -> & _).
  pose proof Hall as [Hl1 [[Hl Hkeys] Hl2]%Forall_cons]%Forall_app.
  rewrite remaining_split in HB. rewrite turn_at.
  unfold settled, counter in *.
  destruct (pending w) as [|k' rest] eqn:Hp.
  { assert (step_worker w st = (w, st)) as E
      by (unfold step_worker; rewrite Hp; reflexivity).
    rewrite E. cbn [fst snd]. rewrite E. cbn [fst snd].
    exists v. rewrite remaining_split, Hp. auto. }
  destruct (Hkeys k') as [u Hu]; [left|].
  assert (step_worker w st = ({| pending := k' :: rest; loaded := Some u |}, st)) as E
    by (unfold step_worker, stats_getitem; rewrite Hp, Hl, Hu; reflexivity).
  rewrite E. cbn [fst snd]. unfold step_worker.
  cbn [fst snd setitem pending loaded with_stats self stats].
  rewrite occurrences_cons in HB.
  assert (Forall (fun w0 => loaded w0 = None /\
                     forall key, key ∈ pending w0 ->
                                 is_Some (<[k' := u + 1]> (stats (self st)) !! key))
            (l1 ++ {| pending := rest; loaded := None |} :: l2)) as Hall'.
  { apply Forall_app. split; [|apply Forall_cons; split].
    - eapply Forall_impl; [exact Hl1|]. intros w' [? Hk']. split; [assumption|].
      intros key Hin. rewrite lookup_insert_is_Some'. right. apply Hk', Hin.
    - split; [reflexivity|]. intros key Hin. cbn [pending] in Hin.
      rewrite lookup_insert_is_Some'. right. apply Hkeys. right. exact Hin.
    - eapply Forall_impl; [exact Hl2|]. intros w' [? Hk']. split; [assumption|].
      intros key Hin. rewrite lookup_insert_is_Some'. right. apply Hk', Hin. }
  rewrite remaining_split. cbn [pending].
  destruct (String.eqb k k') eqn:Hk.
  - apply String.eqb_eq in Hk as <-. rewrite Hv in Hu. injection Hu as <-.
    exists (v + 1). rewrite lookup_insert_eq.
    split; [reflexivity|]. split; [lia | exact Hall'].
  - apply String.eqb_neq in Hk. exists v. rewrite lookup_insert_ne by congruence.
    split; [exact Hv|]. split; [lia | exact Hall'].
Qed.

Lemma run_serial_settled turns : forall s, settled k B s -> settled k B (run (serial turns) s).
Proof.
  induction turns as [|i turns IH]; intros s Hs; [exact Hs|].
  apply IH, turn_settled, Hs.
Qed.

End Bound.

Lemma remaining_start_nonneg k ws : 0 <= remaining k ws.
Proof. unfold remaining. lia. Qed.

(** C8 (amended): the counters are updated without a lock or an atomic
    primitive, each increment being a read followed by a write.  For every
    interleaving of the workers' steps a counter never goes below its
    starting value and never exceeds it by more than the number of
    increments written (an update can be lost); where the increments do not
    overlap (a serial schedule) and the incremented keys exist, the counter
    is exactly its starting value plus the increments written. *)
Theorem counters_without_lock k progs st v0 :
  counter st k = Some v0 ->
  (forall schedule,
      let s' := run schedule (start <$> progs, st) in
      exists v, counter s'.2 k = Some v /\ v0 <= v /\
                v + remaining k s'.1 <= v0 + remaining k (start <$> progs)) /\
  (forall turns,
      (forall keys key, keys ∈ progs -> key ∈ keys -> is_Some (counter st key)) ->
      let s' := run (serial turns) (start <$> progs, st) in
      exists v, counter s'.2 k = Some v /\
                v + remaining k s'.1 = v0 + remaining k (start <$> progs)).
Proof.
  intros Hv. split.
  - intros schedule s'.
    destruct (run_bounded k v0 (v0 + remaining k (start <$> progs)) schedule
                (start <$> progs, st)) as (v & ? & ? & ? & _); [|eauto].
    exists v0. cbn [fst snd]. split; [exact Hv|]. split; [lia|]. split; [lia|].
    apply Forall_fmap, Forall_forall. intros p _ u rest [=].
  - intros turns Hkeys s'.
    destruct (run_serial_settled k (v0 + remaining k (start <$> progs)) turns
                (start <$> progs, st)) as (v & ? & ? & _); [|eauto].
    exists v0. cbn [fst snd]. split; [exact Hv|]. split; [reflexivity|].
    apply Forall_fmap, Forall_forall. intros p Hp. split; [reflexivity|].
    intros key Hin. eapply Hkeys; eauto.
Qed.

End WorkersFacts.

(** ** The stream of a search *)

Lemma init_workers_clamped user_agent workers :
  1 <= max_workers (self (__init__ user_agent workers)) <= 20.
Proof. cbn. lia. Qed.

(** *** The drain, completion by completion *)

Lemma yielding_app evs1 evs2 st :
  yielding (evs1 ++ evs2) st = yielding evs2 (yielding evs1 st).
Proof. unfold yielding. apply foldl_app. Qed.

Lemma yielding_cons ev evs st :
  yielding (ev :: evs) st = yielding evs (with_world (log_yield ev (world st)) st).
Proof. reflexivity. Qed.

Lemma yielding_nil st : yielding [] st = st.
Proof. reflexivity. Qed.

Lemma yielding_emits evs : forall st, emits evs st (yielding evs st).
Proof.
  induction evs as [|ev evs IH]; intros st; [apply emits_refl|].
  change (yielding (ev :: evs) st)
    with (yielding evs (with_world (log_yield ev (world st)) st)).
  specialize (IH (with_world (log_yield ev (world st)) st)). emits_tac.
Qed.

Lemma never_cancelled_emits evs st st' :
  emits evs st st' -> never_cancelled st -> never_cancelled st'.
Proof. intros [Hs _]. apply never_cancelled_stable, Hs. Qed.

Section Completions.
Context `{Runtime}.

Lemma yield_all_yielding evs : forall st, yield_all evs st = (Ret tt, yielding evs st).
Proof.
  induction evs as [|ev evs IH]; intros st; [reflexivity|].
  cbn [yield_all]. unfold bind, yield. rewrite IH. reflexivity.
Qed.

Lemma parse_sound page st :
  (_parse_and_filter_page page st).1 <> OutOfFuel /\
  emits [] st (_parse_and_filter_page page st).2.
Proof.
  pose proof (run_task_sound page st) as Hs. unfold wp, run_task in Hs.
  destruct (_parse_and_filter_page page st) as [[r|e|] st1]; cbn [fst snd] in *;
    destruct Hs as ((r' & Hr & _) & Hem); (split; [congruence | exact Hem]).
Qed.

(** Without cancellation the loop of [search] yields the completions. *)
Lemma drain_completions total_pages futures : forall completed found st,
  never_cancelled st ->
  drain total_pages futures completed found st =
  (Ret (completions total_pages futures completed found st).1.2,
   (completions total_pages futures completed found st).2).
Proof.
  induction futures as [|page rest IH]; intros completed found st Hnever;
    [reflexivity|].
  cbn [drain completions]. unfold bind at 1, run_task.
  destruct (parse_sound page st) as [Hfuel Hem].
  destruct (_parse_and_filter_page page st) as [[[p records]|e|] st1];
    cbn [fst snd] in *; [| |congruence].
  - unfold bind at 1, call_should_stop.
    rewrite (never_cancelled_emits _ _ _ Hem Hnever). unfold bind at 1, yield.
    rewrite yielding_cons.
    set (st2 := with_world
                  (log_yield (status (progress_msg page (completed + 1) total_pages found))
                             (world (with_world (log_poll (world st1)) st1)))
                  (with_world (log_poll (world st1)) st1)).
    assert (never_cancelled st2) as Hnever2.
    { intros n. apply (never_cancelled_emits _ _ _ Hem Hnever). }
    destruct records as [|m ms].
    + change (yielding (result_event <$> []) st2) with st2.
      cbn [length Z.of_nat]. rewrite Z.add_0_r, (IH _ _ st2 Hnever2).
      destruct (completions _ rest _ _ _) as [[evs found'] st']. reflexivity.
    + unfold bind at 1. rewrite yield_all_yielding, IH.
      * destruct (completions _ rest _ _ _) as [[evs found'] st']. reflexivity.
      * eapply never_cancelled_emits; [apply yielding_emits | exact Hnever2].
  - unfold bind at 1, call_should_stop.
    rewrite (never_cancelled_emits _ _ _ Hem Hnever). unfold bind at 1, yield.
    rewrite yielding_cons, yielding_nil, IH.
    + destruct (completions _ rest _ _ _) as [[evs found'] st']. reflexivity.
    + intros n. apply (never_cancelled_emits _ _ _ Hem Hnever).
Qed.

Lemma completions_sound total_pages futures : forall completed found st,
  emits (completions total_pages futures completed found st).1.1 st
        (completions total_pages futures completed found st).2 /\
  Forall (fun ev => is_status ev = true \/ is_result ev = true)
         (completions total_pages futures completed found st).1.1 /\
  length (List.filter is_status (completions total_pages futures completed found st).1.1)
    = length futures /\
  (completions total_pages futures completed found st).1.2 =
    found + Z.of_nat (length (List.filter is_result
                                (completions total_pages futures completed found st).1.1)).
Proof.
  induction futures as [|page rest IH]; intros completed found st;
    cbn [completions].
  - cbn. split; [apply emits_refl|]. split; [constructor|]. split; [reflexivity | lia].
  - destruct (parse_sound page st) as [Hfuel Hem].
    destruct (_parse_and_filter_page page st) as [[[p records]|e|] st1];
      cbn [fst snd] in *; [| |congruence].
    + match goal with
      | |- context [completions total_pages rest ?c ?f ?s] =>
          pose proof (IH c f s) as (Hem' & Hall & Hcount & Hfound);
          pose proof (yielding_emits
                        (status (progress_msg page (completed + 1) total_pages found)
                           :: (result_event <$> records))
                        (with_world (log_poll (world st1)) st1)) as Hy;
          destruct (completions total_pages rest c f s) as [[evs found'] st']
      end.
      cbn [fst snd] in *. split; [|split; [|split]].
      * clear Hall Hcount Hfound. emits_tac.
      * constructor; [left; apply is_status_status|].
        apply Forall_app. split; [|exact Hall].
        apply Forall_fmap, Forall_forall. intros r _. right. apply is_result_result.
      * cbn [app List.filter]. rewrite is_status_status. cbn [length].
        rewrite filter_status_results, Hcount. reflexivity.
      * cbn [app List.filter]. rewrite is_result_status, filter_result_results.
        rewrite Hfound. lia.
    + match goal with
      | |- context [completions total_pages rest ?c ?f ?s] =>
          pose proof (IH c f s) as (Hem' & Hall & Hcount & Hfound);
          pose proof (yielding_emits [status (exception_msg page e)]
                        (with_world (log_poll (world st1)) st1)) as Hy;
          destruct (completions total_pages rest c f s) as [[evs found'] st']
      end.
      cbn [fst snd] in *. split; [|split; [|split]].
      * clear Hall Hcount Hfound. emits_tac.
      * constructor; [left; apply is_status_status | exact Hall].
      * cbn [app List.filter]. rewrite is_status_status. cbn [length].
        rewrite Hcount. reflexivity.
      * cbn [app List.filter]. rewrite is_result_status. exact Hfound.
Qed.

End Completions.

Lemma wp_exact {A} (m : M A) (r : outcome A) (st st' : State) :
  wp m (fun o s => o = r /\ s = st') st -> m st = (r, st').
Proof. unfold wp. destruct (m st) as [o s]. cbn. intros [-> ->]. reflexivity. Qed.

Section StreamExact.
Context `{Runtime}.

Lemma submit_all_ret pages st : (submit_all pages st).1 = Ret tt.
Proof. pose proof (submit_all_sound pages st) as Hs. unfold wp in Hs. tauto. Qed.

Lemma has_counters_stable st st' : stable st st' -> has_counters st -> has_counters st'.
Proof.
  intros Hs (H1 & H2 & H3 & H4). unfold has_counters, counter in *.
  repeat split; apply (st_keys _ _ Hs); assumption.
Qed.

(** A search that is not cancelled, step by step. *)
Lemma search_uncancelled keyword st :
  never_cancelled st ->
  has_counters st ->
  exists total_pages t s f r,
    let st0 := with_world (log_yield (status detecting_msg) (world st))
                          (with_keyword keyword st) in
    let st3 := (submit_all (seqZ 1 total_pages)
                  (yielding [status (detected_msg total_pages);
                             status (starting_msg (max_workers (self st)) keyword)]
                            (_detect_total_pages st0).2)).2 in
    let done := completions total_pages (as_completed (seqZ 1 total_pages)) 0 0 st3 in
    (_detect_total_pages st0).1 = Ret total_pages /\
    submitted (world st3) = submitted (world st) ++ seqZ 1 total_pages /\
    yielded (world st3) =
      yielded (world st) ++
      [status detecting_msg; status (detected_msg total_pages);
       status (starting_msg (max_workers (self st)) keyword)] /\
    counter done.2 "total_requests" = Some t /\
    counter done.2 "successful_requests" = Some s /\
    counter done.2 "failed_requests" = Some f /\
    counter done.2 "retried_requests" = Some r /\
    search keyword st =
      (Ret tt, yielding [status (summary_msg done.1.2 t s f r)]
                        (with_world (log_poll (world done.2)) done.2)).
Proof.
  intros Hnever Hcounters. cbv zeta.
  pose proof (detect_sound (with_world (log_yield (status detecting_msg) (world st))
                                       (with_keyword keyword st))) as Hdet.
  unfold wp in Hdet.
  destruct (_detect_total_pages _) as [o st1] eqn:Edet. cbn [fst snd] in Hdet.
  destruct Hdet as ((n & ->) & Hem1).
  assert (submitted (world st1) = submitted (world st) /\
          yielded (world st1) = yielded (world st) ++ [status detecting_msg] /\
          max_workers (self st1) = max_workers (self st) /\
          never_cancelled st1 /\ has_counters st1)
    as (Hsub1 & Hy1 & Hmw & Hnever1 & Hcounters1).
  { destruct Hem1 as (Hst1 & Hs1 & Hy1).
    split; [exact Hs1|]. split; [rewrite Hy1, app_nil_r; reflexivity|].
    split; [apply (st_max_workers _ _ Hst1)|].
    split; [eapply never_cancelled_stable; [exact Hst1 | exact Hnever]|].
    eapply has_counters_stable; [exact Hst1 | exact Hcounters]. }
  exists n. cbn [fst snd].
  set (st2 := yielding [status (detected_msg n);
                        status (starting_msg (max_workers (self st)) keyword)] st1).
  pose proof (yielding_emits [status (detected_msg n);
                              status (starting_msg (max_workers (self st)) keyword)] st1)
    as Hem2. fold st2 in Hem2.
  pose proof (submit_all_sound (seqZ 1 n) st2) as Hsub. unfold wp in Hsub.
  destruct (submit_all (seqZ 1 n) st2) as [o3 st3] eqn:Esub. cbn [fst snd] in *.
  destruct Hsub as (-> & Hst23 & Hy23 & Hsub23).
  assert (stable st1 st3) as Hst3.
  { etransitivity; [apply Hem2 | exact Hst23]. }
  assert (never_cancelled st3) as Hnever3 by (eapply never_cancelled_stable; eauto).
  pose proof (completions_sound n (as_completed (seqZ 1 n)) 0 0 st3)
    as (Hem4 & _).
  set (done := completions n (as_completed (seqZ 1 n)) 0 0 st3) in *.
  assert (has_counters done.2) as (H1 & H2 & H3 & H4).
  { eapply has_counters_stable; [|exact Hcounters1].
    etransitivity; [exact Hst3 | apply Hem4]. }
  destruct H1 as [t Ht], H2 as [s Hs], H3 as [f Hf], H4 as [r Hr].
  exists t, s, f, r.
  split; [reflexivity|].
  split.
  { rewrite Hsub23. destruct Hem2 as (_ & -> & _). rewrite Hsub1. reflexivity. }
  split.
  { rewrite Hy23. destruct Hem2 as (_ & _ & ->). rewrite Hy1, <- app_assoc.
    reflexivity. }
  repeat (split; [assumption|]).
  apply wp_exact. unfold search.
  apply wp_bind, wp_set_keyword. apply wp_bind, wp_yield.
  apply wp_bind. unfold wp at 1. norm. rewrite Edet. cbn [fst snd].
  apply wp_bind, wp_yield. apply wp_bind, wp_attr. apply wp_bind, wp_yield.
  norm. rewrite Hmw.
  apply wp_bind. unfold wp at 1.
  match goal with
  | |- context [submit_all (seqZ 1 n) ?x] => change x with st2
  end.
  rewrite Esub. cbn [fst snd].
  apply wp_bind. unfold wp at 1. rewrite (drain_completions _ _ _ _ _ Hnever3).
  fold done. cbn [fst snd].
  apply wp_bind, wp_poll.
  rewrite (never_cancelled_emits _ _ _ Hem4 Hnever3).
  unfold counter in Ht, Hs, Hf, Hr.
  apply wp_bind, wp_getitem. norm. rewrite Ht.
  apply wp_bind, wp_getitem. norm. rewrite Hs.
  apply wp_bind, wp_getitem. norm. rewrite Hf.
  apply wp_bind, wp_getitem. norm. rewrite Hr.
  apply wp_yield. split; reflexivity.
Qed.

End StreamExact.

Lemma status_or_result_not_done ev :
  is_status ev = true \/ is_result ev = true -> is_done ev = false.
Proof.
  unfold is_status, is_result, is_done.
  intros [Hs|Hr]; [apply bool_decide_eq_true in Hs | apply bool_decide_eq_true in Hr];
    apply bool_decide_eq_false; congruence.
Qed.

Section Stream.
Context `{Runtime}.

(** C1 (amended): with the stop callback never answering true and the
    four counters present, [search] returns after submitting exactly one
    task per page index from 1 to the detected total, each index once, and
    the futures complete in some order of these indexes.  It yields the
    three opening status events, then the events of [completions]: for each
    completed task, in completion order, one status event (the progress of
    the page, or the exception of its task) followed by the result events of
    the records of that page; and last a single status event with the total
    found, which is the number of result events yielded, and the four
    counters.  Every event is a status or a result: no done event is
    yielded. *)
Theorem search_dispatches_every_page_once keyword st :
  never_cancelled st ->
  has_counters st ->
  exists total_pages st' drained total_found t s f r,
    search keyword st = (Ret tt, st') /\
    (_detect_total_pages
       (with_world (log_yield (status detecting_msg) (world st))
                   (with_keyword keyword st))).1 = Ret total_pages /\
    submitted (world st') = submitted (world st) ++ seqZ 1 total_pages /\
    NoDup (seqZ 1 total_pages) /\
    (forall page, page ∈ seqZ 1 total_pages <-> 1 <= page <= total_pages) /\
    as_completed (seqZ 1 total_pages) ≡ₚ seqZ 1 total_pages /\
    yielded (world st') =
      yielded (world st) ++
      [status detecting_msg; status (detected_msg total_pages);
       status (starting_msg (max_workers (self st)) keyword)] ++
      drained ++ [status (summary_msg total_found t s f r)] /\
    (completions total_pages (as_completed (seqZ 1 total_pages)) 0 0
       (submit_all (seqZ 1 total_pages)
          (yielding [status (detected_msg total_pages);
                     status (starting_msg (max_workers (self st)) keyword)]
             (_detect_total_pages
                (with_world (log_yield (status detecting_msg) (world st))
                            (with_keyword keyword st))).2)).2).1
      = (drained, total_found) /\
    total_found = Z.of_nat (length (List.filter is_result drained)) /\
    Forall (fun ev => is_status ev = true \/ is_result ev = true) drained /\
    length (List.filter is_status drained) = Z.to_nat total_pages /\
    Forall (fun ev => is_done ev = false) drained /\
    counter st' "total_requests" = Some t /\
    counter st' "successful_requests" = Some s /\
    counter st' "failed_requests" = Some f /\
    counter st' "retried_requests" = Some r.
Proof.
  intros Hnever Hcounters.
  destruct (search_uncancelled keyword st Hnever Hcounters)
    as (n & t & s & f & r & Hrun). cbv zeta in Hrun.
  destruct Hrun as (Hdet & Hsub3 & Hy3 & Ht & Hs & Hf & Hr & Hrun).
  match type of Hrun with
  | context [completions n ?futures 0 0 ?st3] =>
      pose proof (completions_sound n futures 0 0 st3) as (Hem & Hall & Hcount & Hfound);
      set (done := completions n futures 0 0 st3) in *
  end.
  destruct Hem as (_ & Hsub4 & Hy4).
  eexists n, _, done.1.1, done.1.2, t, s, f, r.
  split; [exact Hrun|]. split; [exact Hdet|].
  split; [unfold yielding; cbn [foldl]; norm; rewrite Hsub4; exact Hsub3|].
  split; [apply NoDup_seqZ|].
  split; [intros page; rewrite elem_of_seqZ; lia|].
  split; [apply as_completed_perm|].
  split.
  { unfold yielding; cbn [foldl]. norm. rewrite Hy4, Hy3, <- !app_assoc. reflexivity. }
  split; [apply surjective_pairing|].
  split; [rewrite Hfound; lia|].
  split; [exact Hall|].
  split.
  { rewrite Hcount, (Permutation_length (as_completed_perm _)), length_seqZ.
    reflexivity. }
  split.
  { eapply Forall_impl; [exact Hall|]. apply status_or_result_not_done. }
  repeat split; assumption.
Qed.

(** C5: every record [_parse_and_filter_page] returns has a name whose
    lowered form holds the lowered keyword as a substring; with no keyword
    or an empty one the filter passes every item's record, so the page's
    list is the list of the records extracted from its items; and every
    result event [search] yields is the event of a record whose lowered
    name holds the lowered keyword. *)
Theorem results_match_keyword :
  (forall page st p records st',
      _parse_and_filter_page page st = (Ret (p, records), st') ->
      forall name url, (name, url) ∈ records ->
        substring_of (keyword_lower_of (_keyword (self st))) (str_lower name)) /\
  (forall li,
      item_record (keyword_lower_of None) li = anchor_record li /\
      item_record (keyword_lower_of (Some EmptyString)) li = anchor_record li) /\
  (forall page st html st1 soup target_section font_ul,
      _keyword (self st) = None \/ _keyword (self st) = Some EmptyString ->
      _fetch_page page 0 st = (Ret (Some html), st1) ->
      truthy html = true ->
      BeautifulSoup html = inr soup ->
      find soup section_crit = Some target_section ->
      find target_section ul_crit = Some font_ul ->
      _parse_and_filter_page page st =
        (Ret (page, omap anchor_record (find_all font_ul (has_name "li"))), st1)) /\
  (forall keyword st,
      exists evs,
        yielded (world (search keyword st).2) = yielded (world st) ++ evs /\
        forall ev, ev ∈ evs -> is_result ev = true ->
                   matching_result (str_lower keyword) ev).
Proof.
  split; [|split; [|split]].
  - intros page st p records st' Hrun name url Hin.
    rewrite parse_run in Hrun.
    pose proof (fetch_page_sound page 0 st) as Hs. unfold wp in Hs.
    destruct (_fetch_page page 0 st) as [[html|e|] st1]; try discriminate.
    destruct Hs as (_ & Hst & _). cbn [snd] in Hst.
    destruct (page_records _ html) as [e|recs] eqn:Hrec; [discriminate|].
    injection Hrun as <- <- <-. rewrite (st_keyword _ _ Hst) in Hrec.
    eapply page_records_match; eauto.
  - intros li. cbn [keyword_lower_of]. rewrite str_lower_empty.
    split; apply item_record_empty.
  - intros page st html st1 soup sec ul Hkw Hfetch Hhtml Hsoup Hsec Hul.
    rewrite (parse_after_fetch page st html st1 Hfetch).
    rewrite (page_records_parsed _ html soup Hhtml Hsoup).
    rewrite (soup_records_found _ soup sec ul Hsec Hul).
    assert (keyword_lower_of (_keyword (self st)) = EmptyString) as ->.
    { destruct Hkw as [-> | ->]; cbn [keyword_lower_of]; [reflexivity|].
      apply str_lower_empty. }
    reflexivity.
  - intros keyword st.
    pose proof (search_sound keyword st) as Hs. unfold wp in Hs.
    destruct Hs as (n & evs & _ & _ & Hy & Hgood & _).
    exists evs. split; [exact Hy|]. intros ev Hin Hres.
    rewrite Forall_forall in Hgood. destruct (Hgood ev Hin) as [Hst|Hm]; [|exact Hm].
    unfold is_result in Hres. rewrite Hst in Hres. discriminate.
Qed.

End Stream.

(** ** More on the fetcher *)

Ltac ltb_facts :=
  repeat match goal with
         | E : (_ <? _) = true |- _ => apply Z.ltb_lt in E
         | E : (_ <? _) = false |- _ => apply Z.ltb_ge in E
         end.

Section FetcherMore.
Context `{Runtime}.

Lemma fetch_rec_request_bound fuel : forall page rc st,
  (Z.to_nat (max_retries (self st) - rc) <= fuel)%nat ->
  wp (_fetch_page_rec fuel page rc)
     (fun o st' =>
        exists n k,
          requests (world st') =
            requests (world st) ++ replicate n (format_page (base_url (self st)) page) /\
          length (slept (world st')) = (length (slept (world st)) + k)%nat /\
          (n <= Z.to_nat (max_retries (self st) - rc) + 1)%nat /\
          (k <= n)%nat /\ (k <= Z.to_nat (max_retries (self st) - rc))%nat) st.
Proof.
  induction fuel as [|fuel IH]; intros page rc st Hfuel; cbn [_fetch_page_rec].
  - wp_run; ltb_facts; try (exfalso; lia).
    all: first [ exists 0%nat, 0%nat; rewrite ?app_nil_r; repeat split; cbn; lia
               | exists 1%nat, 0%nat; repeat split; cbn; lia ].
  - wp_run; ltb_facts.
    all: try first [ exists 0%nat, 0%nat; rewrite ?app_nil_r; repeat split; cbn; lia
                   | exists 1%nat, 0%nat; repeat split; cbn; lia ].
    all: eapply wp_mono; [apply IH; norm; lia|]; norm.
    all: intros o st' (n & k & Hreq & Hsl & Hn & Hk1 & Hk2); exists (S n), (S k).
    all: rewrite Hreq, Hsl, length_app, <- app_assoc; cbn [length].
    all: repeat split; lia.
Qed.

(** X1: one call of [_fetch_page] issues at most
    [max_retries - retry_count + 1] requests, all of them to the URL of its
    page; it sleeps at most once per request and at most
    [max_retries - retry_count] times. *)
Theorem fetch_page_request_bound page rc st :
  exists n k,
    requests (world (_fetch_page page rc st).2) =
      requests (world st) ++ replicate n (format_page (base_url (self st)) page) /\
    length (slept (world (_fetch_page page rc st).2)) =
      (length (slept (world st)) + k)%nat /\
    (n <= Z.to_nat (max_retries (self st) - rc) + 1)%nat /\
    (k <= n)%nat /\ (k <= Z.to_nat (max_retries (self st) - rc))%nat.
Proof.
  apply (fetch_rec_request_bound (Z.to_nat (max_retries (self st) - rc)) page rc st).
  lia.
Qed.

Lemma status_ok_false resp :
  ~ 400 <= status_code resp < 600 ->
  (400 <=? status_code resp) && (status_code resp <? 600) = false.
Proof.
  intros Hc. apply andb_false_iff.
  destruct (Z.leb_spec 400 (status_code resp)); [right|left; reflexivity].
  apply Z.ltb_ge. lia.
Qed.

Lemma fetch_rec_recovers k : forall fuel page rc st t s f r resp,
  never_cancelled st ->
  (k <= fuel)%nat ->
  Z.of_nat k <= max_retries (self st) - rc ->
  (forall j, (j < k)%nat ->
     fails (session_get (length (requests (world st)) + j)
                        (format_page (base_url (self st)) page)
                        (timeout (self st)) false)) ->
  session_get (length (requests (world st)) + k)
              (format_page (base_url (self st)) page) (timeout (self st)) false
    = inr resp ->
  ~ 400 <= status_code resp < 600 ->
  counter st "total_requests" = Some t ->
  counter st "successful_requests" = Some s ->
  counter st "failed_requests" = Some f ->
  counter st "retried_requests" = Some r ->
  wp (_fetch_page_rec fuel page rc)
     (fun o st' =>
        o = Ret (Some (text resp)) /\
        counter st' "total_requests" = Some (t + Z.of_nat k + 1) /\
        counter st' "successful_requests" = Some (s + 1) /\
        counter st' "failed_requests" = Some (f + Z.of_nat k) /\
        counter st' "retried_requests" = Some (r + Z.of_nat k) /\
        requests (world st') =
          requests (world st) ++
          replicate (S k) (format_page (base_url (self st)) page) /\
        length (slept (world st')) = (length (slept (world st)) + k)%nat) st.
Proof.
  induction k as [|k IH];
    intros fuel page rc st t s f r resp Hnever Hfuel Hk Hfail Hget Hcode Ht Hs Hf Hr;
    unfold counter in *.
  - rewrite Nat.add_0_r in Hget. pose proof (status_ok_false resp Hcode) as Hok.
    destruct fuel; cbn [_fetch_page_rec];
      (wp_go ltac:(rewrite ?Hnever, ?Hget, ?Hok, ?Ht, ?Hs; simpl_lookup));
      repeat split; rewrite ?Hf, ?Hr, ?Nat.add_0_r; try (f_equal; lia); reflexivity.
  - destruct fuel as [|fuel]; [lia|]. cbn [_fetch_page_rec].
    pose proof (Hfail 0%nat ltac:(lia)) as Hfail0. rewrite Nat.add_0_r in Hfail0.
    assert ((rc <? max_retries (self st)) = true) as Hlt by (apply Z.ltb_lt; lia).
    wp_go ltac:(rewrite ?Hnever, ?Hlt, ?Ht, ?Hs, ?Hf, ?Hr; simpl_lookup; cbn [negb]).
    all: cbv beta iota delta [fails] in Hfail0.
    all: try (exfalso; congruence).
    all: try (exfalso;
              match goal with
              | E : (_ <=? _) && (_ <? _) = false |- _ =>
                  apply andb_false_iff in E; destruct E as [E|E];
                  [apply Z.leb_gt in E | apply Z.ltb_ge in E]; lia
              end).
    all: (eapply wp_mono;
          [ apply (IH fuel page (rc + 1) _ (t + 1) s (f + 1) (r + 1) resp);
            unfold never_cancelled, counter; norm; simpl_lookup; auto; try lia
          | ]).
    all: try (intros j Hj; rewrite length_app; cbn [length];
              replace (length (requests (world st)) + 1 + j)%nat
                with (length (requests (world st)) + S j)%nat by lia;
              apply Hfail; lia).
    all: try (rewrite length_app; cbn [length];
              replace (length (requests (world st)) + 1 + k)%nat
                with (length (requests (world st)) + S k)%nat by lia;
              exact Hget).
    all: unfold counter; norm; simpl_lookup;
      intros o st' (-> & -> & -> & -> & -> & -> & ->);
      repeat split; try (f_equal; lia);
      [ rewrite <- app_assoc; reflexivity
      | rewrite length_app; cbn [length]; lia ].
Qed.

(** X2: with the stop callback never answering true, if the first [k]
    requests of a call fail ([k] within the retries allowed) and the next one
    is answered with a status outside 400..599, [_fetch_page] returns the
    text of that answer after [k + 1] requests to the URL of the page and [k]
    sleeps; [total_requests] grows by [k + 1], [failed_requests] and
    [retried_requests] by [k], [successful_requests] by one. *)
Theorem fetch_page_recovers k page st t s f r resp :
  never_cancelled st ->
  Z.of_nat k <= max_retries (self st) ->
  (forall j, (j < k)%nat ->
     fails (session_get (length (requests (world st)) + j)
                        (format_page (base_url (self st)) page)
                        (timeout (self st)) false)) ->
  session_get (length (requests (world st)) + k)
              (format_page (base_url (self st)) page) (timeout (self st)) false
    = inr resp ->
  ~ 400 <= status_code resp < 600 ->
  counter st "total_requests" = Some t ->
  counter st "successful_requests" = Some s ->
  counter st "failed_requests" = Some f ->
  counter st "retried_requests" = Some r ->
  exists st',
    _fetch_page page 0 st = (Ret (Some (text resp)), st') /\
    counter st' "total_requests" = Some (t + Z.of_nat k + 1) /\
    counter st' "successful_requests" = Some (s + 1) /\
    counter st' "failed_requests" = Some (f + Z.of_nat k) /\
    counter st' "retried_requests" = Some (r + Z.of_nat k) /\
    requests (world st') =
      requests (world st) ++ replicate (S k) (format_page (base_url (self st)) page) /\
    length (slept (world st')) = (length (slept (world st)) + k)%nat.
Proof.
  intros Hnever Hk Hfail Hget Hcode Ht Hs Hf Hr. apply wp_result, wp_fetch_page.
  eapply wp_mono; [eapply (fetch_rec_recovers k); eauto; lia | auto].
Qed.

(** X3: if a request fails with a retry left and the stop callback,
    false on entry, answers true when asked before the retry, [_fetch_page]
    returns [None] after that one request, without sleeping;
    [total_requests] and [failed_requests] grow by one, [retried_requests]
    and [successful_requests] do not change. *)
Theorem fetch_page_cancelled_after_failure page rc st t f :
  should_stop (self st) (polls (world st)) = false ->
  fails (session_get (length (requests (world st)))
                     (format_page (base_url (self st)) page) (timeout (self st)) false) ->
  rc < max_retries (self st) ->
  should_stop (self st) (S (polls (world st))) = true ->
  counter st "total_requests" = Some t ->
  counter st "failed_requests" = Some f ->
  exists st',
    _fetch_page page rc st = (Ret None, st') /\
    counter st' "total_requests" = Some (t + 1) /\
    counter st' "failed_requests" = Some (f + 1) /\
    counter st' "retried_requests" = counter st "retried_requests" /\
    counter st' "successful_requests" = counter st "successful_requests" /\
    requests (world st') =
      requests (world st) ++ [format_page (base_url (self st)) page] /\
    slept (world st') = slept (world st).
Proof.
  intros Hgo Hfail Hlt Hstop Ht Hf. apply wp_result, wp_fetch_page.
  unfold counter in *. apply Z.ltb_lt in Hlt.
  destruct (Z.to_nat _); cbn [_fetch_page_rec];
    (wp_go ltac:(rewrite ?Hgo, ?Hlt, ?Hstop, ?Ht, ?Hf; simpl_lookup; cbn [negb]));
    cbv beta iota delta [fails] in Hfail;
    try (exfalso; congruence);
    try (exfalso;
         match goal with
         | E : (_ <=? _) && (_ <? _) = false |- _ =>
             apply andb_false_iff in E; destruct E as [E|E];
             [apply Z.leb_gt in E | apply Z.ltb_ge in E]; lia
         end);
    repeat split.
Qed.

(** X4: an exception of the transport that is not a request exception
    is not caught by [_fetch_page]: it leaves the call after one request,
    with [total_requests] grown by one and no other counter changed. *)
Theorem fetch_page_other_exception page rc st e t :
  should_stop (self st) (polls (world st)) = false ->
  session_get (length (requests (world st)))
              (format_page (base_url (self st)) page) (timeout (self st)) false
    = inl e ->
  is_RequestException e = false ->
  counter st "total_requests" = Some t ->
  exists st',
    _fetch_page page rc st = (Raise e, st') /\
    counter st' "total_requests" = Some (t + 1) /\
    counter st' "successful_requests" = counter st "successful_requests" /\
    counter st' "failed_requests" = counter st "failed_requests" /\
    counter st' "retried_requests" = counter st "retried_requests" /\
    requests (world st') =
      requests (world st) ++ [format_page (base_url (self st)) page].
Proof.
  intros Hgo Hget He Ht. apply wp_result, wp_fetch_page. unfold counter in *.
  destruct (Z.to_nat _); cbn [_fetch_page_rec];
    (wp_go ltac:(rewrite ?Hgo, ?Hget, ?He, ?Ht; simpl_lookup));
    repeat split.
Qed.

(** X5: for a page whose requests always fail, with the stop callback
    never answering true, [_parse_and_filter_page] returns the page index
    with an empty list of records, and the task of the page completes with
    that result: it does not raise. *)
Theorem parse_of_dead_page page st t f r :
  always_fails (format_page (base_url (self st)) page) ->
  never_cancelled st ->
  0 <= max_retries (self st) ->
  counter st "total_requests" = Some t ->
  counter st "failed_requests" = Some f ->
  counter st "retried_requests" = Some r ->
  (_parse_and_filter_page page st).1 = Ret (page, []) /\
  (run_task page st).1 = Ret (inr (page, [])).
Proof.
  intros Hfail Hnever Hmax Ht Hf Hr.
  pose proof (fetch_rec_always_failing (Z.to_nat (max_retries (self st) - 0))
                page 0 st t f r Hfail Hnever ltac:(lia) Ht Hf Hr) as Hrun.
  unfold wp in Hrun. destruct Hrun as (Hnone & _).
  assert ((_parse_and_filter_page page st).1 = Ret (page, [])) as Hparse.
  { rewrite parse_run. unfold _fetch_page.
    destruct (_fetch_page_rec _ page 0 st) as [o st1]. cbn [fst] in *. subst o.
    reflexivity. }
  split; [exact Hparse|]. unfold run_task.
  destruct (_parse_and_filter_page page st) as [o st1]. cbn [fst] in *. subst o.
  reflexivity.
Qed.

End FetcherMore.

(** ** The page-link pattern and the page count *)

Lemma str_app_cons c s t : String c s +:+ t = String c (s +:+ t).
Proof. reflexivity. Qed.

Lemma str_app_empty t : EmptyString +:+ t = t.
Proof. reflexivity. Qed.

Lemma str_app_nil_r s : s +:+ EmptyString = s.
Proof.
  induction s as [|c s IH]; [reflexivity|]. rewrite str_app_cons, IH. reflexivity.
Qed.

Lemma str_app_assoc s : forall t u, (s +:+ t) +:+ u = s +:+ t +:+ u.
Proof.
  induction s as [|c s IH]; intros t u; [reflexivity|].
  rewrite !str_app_cons, IH. reflexivity.
Qed.

Lemma str_length_app s : forall t,
  String.length (s +:+ t) = (String.length s + String.length t)%nat.
Proof.
  induction s as [|c s IH]; intros t; [reflexivity|].
  rewrite str_app_cons. cbn [String.length]. rewrite IH. reflexivity.
Qed.

Lemma str_drop_app p : forall s, str_drop (String.length p) (p +:+ s) = s.
Proof. induction p as [|c p IH]; intros s; [destruct s; reflexivity|]. apply IH. Qed.

Lemma str_take_app p : forall s, str_take (String.length p) (p +:+ s) = p.
Proof.
  induction p as [|c p IH]; intros s; [destruct s; reflexivity|].
  rewrite str_app_cons. cbn [String.length str_take]. rewrite IH. reflexivity.
Qed.

Lemma str_take_drop n : forall s, s = str_take n s +:+ str_drop n s.
Proof.
  induction n as [|n IH]; intros [|c s]; try reflexivity.
  cbn [str_take str_drop]. rewrite str_app_cons, <- IH. reflexivity.
Qed.

Lemma str_drop_length n : forall s,
  (String.length (str_drop n s) = String.length s - n)%nat.
Proof.
  induction n as [|n IH]; intros [|c s]; cbn [str_drop String.length]; try lia.
  rewrite IH. lia.
Qed.

Lemma utf8_width_pos c : (1 <= utf8_width c)%nat.
Proof. unfold utf8_width. repeat case_match; lia. Qed.

Lemma utf8_width_ascii c : (nat_of_ascii c < 192)%nat -> utf8_width c = 1%nat.
Proof.
  intros Hc. unfold utf8_width. apply Nat.ltb_lt in Hc. rewrite Hc. reflexivity.
Qed.

Lemma is_ascii_digit_byte c : is_ascii_digit c = true -> (nat_of_ascii c < 128)%nat.
Proof.
  unfold is_ascii_digit. intros [_ H2]%andb_true_iff. apply Nat.leb_le in H2. lia.
Qed.

Lemma is_digit_value c :
  is_ascii_digit c = true -> 0 <= Z.of_nat (nat_of_ascii c) - 48 <= 9.
Proof.
  unfold is_ascii_digit. intros [H1 H2]%andb_true_iff.
  apply Nat.leb_le in H1, H2. lia.
Qed.

Section Digits.
Context `{Runtime}.

Lemma concat_cons_chars ch chars :
  String.concat EmptyString (ch :: chars) = ch +:+ String.concat EmptyString chars.
Proof.
  destruct chars; cbn [String.concat]; [rewrite str_app_nil_r|]; reflexivity.
Qed.

Lemma digit_at_byte c s :
  (nat_of_ascii c < 192)%nat ->
  digit_at (String c s) =
  if is_ascii_digit c
  then Some (String c EmptyString, Z.of_nat (nat_of_ascii c) - 48, s)
  else None.
Proof.
  intros Hc. unfold digit_at. rewrite (utf8_width_ascii c Hc).
  cbn [str_take str_drop String.length Nat.eqb]. rewrite decimal_ascii.
  destruct (is_ascii_digit c); reflexivity.
Qed.

Lemma digit_at_cjk a b c s :
  (228 <= nat_of_ascii a <= 233)%nat ->
  digit_at (String a (String b (String c s))) = None.
Proof.
  intros Ha. unfold digit_at.
  assert (utf8_width a = 3%nat) as ->.
  { unfold utf8_width.
    destruct (Nat.ltb_spec (nat_of_ascii a) 192); [lia|].
    destruct (Nat.ltb_spec (nat_of_ascii a) 224); [lia|].
    destruct (Nat.ltb_spec (nat_of_ascii a) 240); [reflexivity | lia]. }
  cbn [str_take str_drop String.length Nat.eqb]. rewrite (decimal_cjk a b c Ha).
  reflexivity.
Qed.

Lemma digit_at_spec s ch v rest :
  digit_at s = Some (ch, v, rest) ->
  s = ch +:+ rest /\ is_decimal_char ch /\ decimal ch = Some v.
Proof.
  unfold digit_at. destruct s as [|c s]; [discriminate|].
  destruct (Nat.eqb_spec (String.length (str_take (utf8_width c) (String c s)))
                         (utf8_width c)) as [Hlen|]; [|discriminate].
  destruct (decimal _) as [v'|] eqn:Hdec; [|discriminate].
  intros [= <- <- <-]. split; [apply str_take_drop|]. split; [|exact Hdec].
  split; [|rewrite Hdec; eauto].
  pose proof (utf8_width_pos c) as Hw.
  destruct (utf8_width c) as [|w] eqn:Ew; [lia|].
  cbn [str_take] in *. rewrite Ew. exact Hlen.
Qed.

Lemma digit_at_char ch v rest :
  is_decimal_char ch -> decimal ch = Some v ->
  digit_at (ch +:+ rest) = Some (ch, v, rest).
Proof.
  intros [Hch _] Hdec. destruct ch as [|c tl]; [tauto|].
  rewrite str_app_cons. unfold digit_at. rewrite <- Hch, <- str_app_cons.
  rewrite str_take_app, str_drop_app, Nat.eqb_refl, Hdec. reflexivity.
Qed.

Lemma digit_at_shorter s ch v rest :
  digit_at s = Some (ch, v, rest) -> (String.length rest < String.length s)%nat.
Proof.
  unfold digit_at. destruct s as [|c s]; [discriminate|].
  destruct (_ =? _)%nat; [|discriminate]. destruct (decimal _); [|discriminate].
  intros [= <- <- <-]. rewrite str_drop_length.
  pose proof (utf8_width_pos c). cbn [String.length]. lia.
Qed.

Lemma span_upto_spec fuel : forall s,
  exists chars,
    (span_digits_upto fuel s).1 = String.concat EmptyString chars /\
    Forall is_decimal_char chars /\
    s = (span_digits_upto fuel s).1 +:+ (span_digits_upto fuel s).2.
Proof.
  induction fuel as [|fuel IH]; intros s; cbn [span_digits_upto].
  - exists []. repeat split; constructor.
  - destruct (digit_at s) as [[[ch v] rest]|] eqn:Hd;
      [|exists []; repeat split; constructor].
    destruct (digit_at_spec _ _ _ _ Hd) as (-> & Hch & _).
    destruct (IH rest) as (chars & Hc & Hall & Hrest).
    destruct (span_digits_upto fuel rest) as [ds rest']. cbn [fst snd] in *.
    exists (ch :: chars). split; [|split].
    + rewrite concat_cons_chars, Hc. reflexivity.
    + constructor; assumption.
    + rewrite str_app_assoc, <- Hrest. reflexivity.
Qed.

Lemma span_upto_stops fuel : forall s,
  (String.length s <= fuel)%nat -> digit_at (span_digits_upto fuel s).2 = None.
Proof.
  induction fuel as [|fuel IH]; intros s Hlen; cbn [span_digits_upto].
  - destruct s; [reflexivity | cbn in Hlen; lia].
  - destruct (digit_at s) as [[[ch v] rest]|] eqn:Hd; [|exact Hd].
    pose proof (digit_at_shorter _ _ _ _ Hd) as Hshort.
    specialize (IH rest ltac:(lia)).
    destruct (span_digits_upto fuel rest) as [ds rest']. exact IH.
Qed.

Lemma span_upto_chars chars : forall fuel rest,
  Forall is_decimal_char chars -> digit_at rest = None ->
  (length chars <= fuel)%nat ->
  span_digits_upto fuel (String.concat EmptyString chars +:+ rest) =
    (String.concat EmptyString chars, rest).
Proof.
  induction chars as [|ch chars IH]; intros fuel rest Hall Hrest Hfuel.
  - change (String.concat EmptyString []) with EmptyString. rewrite str_app_empty.
    destruct fuel; cbn [span_digits_upto]; [reflexivity|]. rewrite Hrest. reflexivity.
  - inversion Hall as [|? ? Hch Hchars]; subst.
    destruct fuel as [|fuel]; [cbn in Hfuel; lia|].
    rewrite concat_cons_chars, str_app_assoc. cbn [span_digits_upto].
    destruct Hch as [Hone [v Hv]].
    rewrite (digit_at_char ch v _ (conj Hone (ex_intro _ v Hv)) Hv).
    rewrite (IH fuel rest Hchars Hrest) by (cbn in Hfuel; lia). reflexivity.
Qed.

Lemma chars_length chars :
  Forall is_decimal_char chars ->
  (length chars <= String.length (String.concat EmptyString chars))%nat.
Proof.
  induction 1 as [|ch chars [Hone _] _ IH]; [cbn; lia|].
  rewrite concat_cons_chars, str_length_app. cbn [length].
  destruct ch as [|c tl]; [tauto|]. cbn [String.length]. lia.
Qed.

Lemma span_digits_chars chars rest :
  Forall is_decimal_char chars -> digit_at rest = None ->
  span_digits (String.concat EmptyString chars +:+ rest) =
    (String.concat EmptyString chars, rest).
Proof.
  intros Hall Hrest. unfold span_digits. apply span_upto_chars; [assumption..|].
  rewrite str_length_app. pose proof (chars_length chars Hall). lia.
Qed.

(** A string of ASCII digits is a run of decimal digits. *)
Lemma ascii_digits_chars ds :
  all_ascii_digits ds = true ->
  exists chars, ds = String.concat EmptyString chars /\ Forall is_decimal_char chars /\
                length chars = String.length ds.
Proof.
  induction ds as [|c ds IH]; [exists []; repeat split; constructor|].
  cbn [all_ascii_digits]. intros [Hc Hds]%andb_true_iff.
  destruct (IH Hds) as (chars & -> & Hall & Hlen).
  exists (String c EmptyString :: chars). rewrite concat_cons_chars.
  split; [reflexivity|]. split; [|cbn [length String.length]; rewrite Hlen; reflexivity].
  constructor; [|exact Hall]. split.
  - cbn [String.length]. rewrite utf8_width_ascii; [reflexivity|].
    pose proof (is_ascii_digit_byte c Hc). lia.
  - rewrite decimal_ascii, Hc. eauto.
Qed.

Lemma span_digits_app ds rest :
  all_ascii_digits ds = true -> digit_at rest = None ->
  span_digits (ds +:+ rest) = (ds, rest).
Proof.
  intros Hds Hrest. destruct (ascii_digits_chars ds Hds) as (chars & -> & Hall & _).
  apply span_digits_chars; assumption.
Qed.

Lemma page_regex_at_sound s g :
  page_regex_at s = Some g ->
  exists chars post,
    chars <> [] /\ Forall is_decimal_char chars /\
    g = String.concat EmptyString chars /\
    s = "list_200_" +:+ g +:+ ".html" +:+ post.
Proof.
  unfold page_regex_at. destruct (String.prefix "list_200_" s) eqn:Hp; [|discriminate].
  apply prefix_app in Hp as [tl ->].
  change 9%nat with (String.length "list_200_"). rewrite str_drop_app.
  unfold span_digits.
  destruct (span_upto_spec (String.length tl) tl) as (chars & Hc & Hall & Htl).
  destruct (span_digits_upto (String.length tl) tl) as [ds rest]. cbn [fst snd] in *.
  destruct (truthy ds) eqn:Ht; [|discriminate]. cbn [andb].
  destruct (String.prefix ".html" rest) eqn:Hr; [|discriminate].
  intros [= <-]. apply prefix_app in Hr as [post ->].
  exists chars, post. split; [intros ->; subst ds; discriminate|].
  split; [exact Hall|]. split; [exact Hc|]. rewrite Htl. reflexivity.
Qed.

Lemma digit_at_dot post : digit_at (".html" +:+ post) = None.
Proof.
  rewrite !str_app_cons. rewrite digit_at_byte by (apply Nat.ltb_lt; reflexivity).
  reflexivity.
Qed.

Lemma truthy_chars chars :
  chars <> [] -> Forall is_decimal_char chars ->
  truthy (String.concat EmptyString chars) = true.
Proof.
  intros Hne Hall. destruct chars as [|ch chars]; [congruence|].
  inversion Hall as [|? ? [Hone _] _]; subst. rewrite concat_cons_chars.
  destruct ch; [tauto | reflexivity].
Qed.

Lemma page_regex_at_chars chars post :
  chars <> [] -> Forall is_decimal_char chars ->
  page_regex_at ("list_200_" +:+ String.concat EmptyString chars +:+ ".html" +:+ post)
  = Some (String.concat EmptyString chars).
Proof.
  intros Hne Hall. unfold page_regex_at.
  assert (String.prefix "list_200_"
            ("list_200_" +:+ String.concat EmptyString chars +:+ ".html" +:+ post) = true)
    as -> by (apply prefix_app; eauto).
  change 9%nat with (String.length "list_200_"). rewrite str_drop_app.
  rewrite (span_digits_chars chars (".html" +:+ post) Hall (digit_at_dot post)).
  rewrite (truthy_chars chars Hne Hall). cbn [andb].
  assert (String.prefix ".html" (".html" +:+ post) = true) as ->
    by (apply prefix_app; eauto).
  reflexivity.
Qed.

Lemma page_regex_at_complete ds post :
  truthy ds = true -> all_ascii_digits ds = true ->
  page_regex_at ("list_200_" +:+ ds +:+ ".html" +:+ post) = Some ds.
Proof.
  intros Ht Hds. destruct (ascii_digits_chars ds Hds) as (chars & -> & Hall & _).
  apply page_regex_at_chars; [|exact Hall]. intros ->. discriminate.
Qed.

Lemma page_regex_search_sound s : forall g,
  page_regex_search s = Some g ->
  exists chars,
    chars <> [] /\ Forall is_decimal_char chars /\
    g = String.concat EmptyString chars /\
    substring_of ("list_200_" +:+ g +:+ ".html") s.
Proof.
  induction s as [|c s IH]; intros g; cbn [page_regex_search].
  - destruct (page_regex_at EmptyString) eqn:E; [|discriminate].
    apply page_regex_at_sound in E as (? & ? & _ & _ & _ & Hs). discriminate.
  - destruct (page_regex_at (String c s)) as [g'|] eqn:E.
    + intros [= ->]. apply page_regex_at_sound in E as (chars & post & Hne & Hall & Hg & Hs).
      exists chars. repeat (split; [assumption|]). exists EmptyString, post.
      rewrite str_app_empty, Hs, !str_app_assoc. reflexivity.
    + intros Hg. destruct (IH g Hg) as (chars & Hne & Hall & Hgc & pre & post & ->).
      exists chars. repeat (split; [assumption|]). exists (String c pre), post. reflexivity.
Qed.

Lemma page_regex_search_complete chars pre : forall post,
  chars <> [] -> Forall is_decimal_char chars ->
  is_Some (page_regex_search
             (pre +:+ "list_200_" +:+ String.concat EmptyString chars +:+ ".html" +:+ post)).
Proof.
  induction pre as [|c pre IH]; intros post Hne Hall.
  - rewrite str_app_empty. pose proof (page_regex_at_chars chars post Hne Hall) as E.
    destruct ("list_200_" +:+ String.concat EmptyString chars +:+ ".html" +:+ post);
      cbn [page_regex_search]; rewrite E; eauto.
  - rewrite str_app_cons. cbn [page_regex_search].
    destruct (page_regex_at _); [eauto|]. apply IH; assumption.
Qed.

(** X6: the page-link pattern finds a match in a text exactly when the
    text holds [list_200_], a non-empty run of decimal digits (of any
    script) and [.html] in a row. *)
Theorem page_regex_search_matches s :
  is_Some (page_regex_search s) <->
  exists digits,
    digits <> [] /\ Forall is_decimal_char digits /\
    substring_of ("list_200_" +:+ String.concat EmptyString digits +:+ ".html") s.
Proof.
  split.
  - intros [g Hg]. apply page_regex_search_sound in Hg as (chars & Hne & Hall & -> & Hs).
    exists chars. auto.
  - intros (chars & Hne & Hall & pre & post & ->). rewrite !str_app_assoc.
    apply page_regex_search_complete; assumption.
Qed.

Lemma digit_values_range fuel : forall s vs,
  digit_values_upto fuel s = Some vs -> Forall (fun v => 0 <= v <= 9) vs.
Proof.
  induction fuel as [|fuel IH]; intros [|c s] vs; cbn [digit_values_upto];
    try (intros [= <-]; constructor); try discriminate.
  destruct (digit_at (String c s)) as [[[ch v] rest]|] eqn:Hd; [|discriminate].
  destruct (digit_values_upto fuel rest) as [vs'|] eqn:Hrest; [|discriminate].
  intros [= <-]. constructor; [|eapply IH; eassumption].
  apply digit_at_spec in Hd as (_ & _ & Hv). eapply decimal_range, Hv.
Qed.

Lemma foldl_digits_nonneg vs : forall acc,
  Forall (fun v => 0 <= v <= 9) vs -> 0 <= acc ->
  0 <= foldl (fun acc d => 10 * acc + d) acc vs.
Proof.
  induction vs as [|v vs IH]; intros acc Hall Hacc; [exact Hacc|].
  inversion Hall as [|? ? Hv Hvs]; subst. cbn [foldl]. apply IH; [exact Hvs|].
  cbv beta. lia.
Qed.

Lemma py_int_nonneg g n : py_int g = inr n -> 0 <= n.
Proof.
  unfold py_int, digit_values.
  destruct (digit_values_upto _ g) as [[|v vs]|] eqn:Hv; try discriminate.
  destruct (_ && _); [discriminate|]. intros [= <-].
  apply (foldl_digits_nonneg (v :: vs) 0); [|lia]. eapply digit_values_range, Hv.
Qed.

Lemma digit_values_ascii ds : forall fuel,
  all_ascii_digits ds = true -> (String.length ds <= fuel)%nat ->
  exists vs, digit_values_upto fuel ds = Some vs /\
             length vs = String.length ds /\
             forall acc, foldl (fun acc d => 10 * acc + d) acc vs = digits_value acc ds.
Proof.
  induction ds as [|c ds IH]; intros fuel Hds Hfuel.
  - exists []. destruct fuel; repeat split.
  - cbn [all_ascii_digits] in Hds. apply andb_true_iff in Hds as [Hc Hds].
    destruct fuel as [|fuel]; [cbn in Hfuel; lia|].
    destruct (IH fuel Hds ltac:(cbn in Hfuel; lia)) as (vs & Hvs & Hlen & Hval).
    exists ((Z.of_nat (nat_of_ascii c) - 48) :: vs). cbn [digit_values_upto].
    rewrite digit_at_byte by (pose proof (is_ascii_digit_byte c Hc); lia).
    rewrite Hc, Hvs. split; [reflexivity|].
    split; [cbn [length String.length]; rewrite Hlen; reflexivity|].
    intros acc. cbn [foldl digits_value]. apply Hval.
Qed.

Lemma py_int_ascii ds :
  truthy ds = true -> all_ascii_digits ds = true ->
  (int_max_str_digits <? String.length ds)%nat = false ->
  py_int ds = inr (digits_value 0 ds).
Proof.
  intros Ht Hds Hlimit. unfold py_int, digit_values.
  destruct (digit_values_ascii ds (String.length ds) Hds (le_n _))
    as (vs & -> & Hlen & Hval).
  destruct vs as [|v vs]; [destruct ds; discriminate|].
  rewrite Hlen, Hlimit, andb_false_r, Hval. reflexivity.
Qed.

End Digits.

Section DiscoveryMore.
Context `{Runtime}.

Lemma page_numbers_nonneg links : forall nums,
  page_numbers_of links = inr nums -> Forall (fun n => 0 <= n) nums.
Proof.
  induction links as [|link links IH]; intros nums; cbn [page_numbers_of].
  - intros [= <-]. constructor.
  - destruct (page_regex_search _) as [g|] eqn:Hg; [|apply IH].
    destruct (py_int g) as [e|n] eqn:Hint; [discriminate|].
    destruct (page_numbers_of links) as [|ns]; [discriminate|].
    intros [= <-]. constructor; [|apply IH; reflexivity].
    eapply py_int_nonneg, Hint.
Qed.

Lemma pager_total_nonneg html : 0 <= pager_total html.
Proof.
  unfold pager_total. destruct (falsy html); [lia|].
  destruct (BeautifulSoup _) as [e|soup]; [lia|].
  destruct (find _ pager_crit) as [pager|]; [|lia].
  destruct (find_all pager page_link_crit) as [|l links] eqn:E; [lia|].
  destruct (page_numbers_of (l :: links)) as [|nums] eqn:Hn; [lia|].
  destruct (py_max nums) as [n|] eqn:Hm; [|cbn; lia]. cbn [default].
  apply py_max_spec in Hm as [Hin _].
  apply page_numbers_nonneg in Hn. rewrite Forall_forall in Hn. apply Hn, Hin.
Qed.

(** X7: [_detect_total_pages] returns a number that is not negative. *)
Theorem detect_total_pages_nonneg st :
  exists n, (_detect_total_pages st).1 = Ret n /\ 0 <= n.
Proof.
  pose proof (fetch_page_sound 1 0 st) as Hs. unfold wp in Hs.
  rewrite detect_run.
  destruct (_fetch_page 1 0 st) as [[html|e|] st1]; cbn [fst snd] in *.
  - exists (pager_total html). split; [reflexivity | apply pager_total_nonneg].
  - exists 383. split; [reflexivity | lia].
  - destruct Hs as [Hs _]. congruence.
Qed.

End DiscoveryMore.

(** ** The URL of a page *)

Lemma all_digits_app d1 : forall d2,
  all_ascii_digits d1 = true -> all_ascii_digits d2 = true ->
  all_ascii_digits (d1 +:+ d2) = true.
Proof.
  induction d1 as [|c d1 IH]; intros d2 H1 H2; [exact H2|].
  rewrite str_app_cons. cbn [all_ascii_digits] in *. apply andb_true_iff in H1 as [Hc H1].
  rewrite Hc, (IH d2 H1 H2). reflexivity.
Qed.

Lemma truthy_app_r d1 c : truthy (d1 +:+ String c EmptyString) = true.
Proof. destruct d1; reflexivity. Qed.

Lemma pretty_N_char_digit x :
  (x < 10)%N ->
  is_ascii_digit (pretty_N_char x) = true /\
  Z.of_nat (nat_of_ascii (pretty_N_char x)) - 48 = Z.of_N x.
Proof.
  intros Hx.
  assert (x = 0 \/ x = 1 \/ x = 2 \/ x = 3 \/ x = 4 \/ x = 5 \/ x = 6 \/ x = 7 \/
          x = 8 \/ x = 9)%N as Hc by lia.
  repeat destruct Hc as [->|Hc]; try subst x; split; reflexivity.
Qed.

Lemma pretty_N_go_digits x : forall s,
  exists d k,
    pretty_N_go x s = d +:+ s /\ all_ascii_digits d = true /\
    ((0 < x)%N -> truthy d = true) /\ 0 <= k /\
    forall acc, digits_value acc (d +:+ s) = digits_value (acc * 10 ^ k + Z.of_N x) s.
Proof.
  induction (N.lt_wf_0 x) as [x _ IH]; intros s.
  destruct (N.eq_dec x 0) as [->|Hx].
  - exists EmptyString, 0. rewrite pretty_N_go_0, str_app_empty.
    repeat split; [lia..|]. intros acc. f_equal. lia.
  - assert (0 < x)%N as Hpos by lia. rewrite (pretty_N_go_step x s Hpos).
    destruct (IH (x `div` 10)%N (N.div_lt x 10 Hpos eq_refl)
                 (String (pretty_N_char (x `mod` 10)) s))
      as (d & k & Hgo & Hd & _ & Hk & Hval).
    destruct (pretty_N_char_digit (x `mod` 10)%N) as [Hc Hv];
      [apply N.mod_lt; lia|].
    exists (d +:+ String (pretty_N_char (x `mod` 10)) EmptyString), (k + 1).
    rewrite Hgo, str_app_assoc, str_app_cons, str_app_empty.
    split; [reflexivity|].
    split; [apply all_digits_app; [exact Hd|]; cbn; rewrite Hc; reflexivity|].
    split; [intros _; apply truthy_app_r|]. split; [lia|].
    intros acc. rewrite Hval. cbn [digits_value]. f_equal. rewrite Hv.
    rewrite Z.pow_add_r, Z.pow_1_r by lia.
    pose proof (N.div_mod x 10 ltac:(lia)) as Hdm.
    assert (Z.of_N x = 10 * Z.of_N (x `div` 10) + Z.of_N (x `mod` 10)) as -> by lia.
    ring.
Qed.

Lemma pretty_nonneg_digits (page : Z) :
  0 <= page ->
  all_ascii_digits (pretty page) = true /\ truthy (pretty page) = true /\
  digits_value 0 (pretty page) = page.
Proof.
  intros Hpage. destruct page as [|p|p]; [repeat split| |lia].
  change (pretty (Z.pos p)) with (pretty_N_go (N.pos p) EmptyString).
  destruct (pretty_N_go_digits (N.pos p) EmptyString) as (d & k & Hgo & Hd & Ht & Hk & Hval).
  rewrite Hgo. pose proof (str_app_nil_r d) as Hnil.
  rewrite Hnil in *. split; [exact Hd|]. split; [apply Ht; lia|].
  rewrite (Hval 0). cbn [digits_value]. lia.
Qed.

Section Urls.
Context `{Runtime}.

Lemma page_regex_search_skip c s :
  page_regex_at (String c s) = None ->
  page_regex_search (String c s) = page_regex_search s.
Proof. intros E. cbn [page_regex_search]. rewrite E. reflexivity. Qed.

Lemma page_regex_search_here s g :
  page_regex_at s = Some g -> page_regex_search s = Some g.
Proof. intros E. destruct s; cbn [page_regex_search]; rewrite E; reflexivity. Qed.

(** X8: on an engine as [__init__] leaves it, the URL [_fetch_page]
    builds for a page index that is not negative is the site prefix, the
    decimal digits of the index and [.html]; the page-link pattern of
    [_detect_total_pages] finds these digits in it, and [int] reads the index
    back from them when the digit limit allows. *)
Theorem page_url_round_trip user_agent workers page :
  0 <= page ->
  let url := format_page (base_url (self (__init__ user_agent workers))) page in
  url = "http://www.downcc.com/font/list_200_" +:+ pretty page +:+ ".html" /\
  page_regex_search url = Some (pretty page) /\
  ((int_max_str_digits <? String.length (pretty page))%nat = false ->
   py_int (pretty page) = inr page).
Proof.
  intros Hpage url. destruct (pretty_nonneg_digits page Hpage) as (Hd & Ht & Hv).
  assert (url = "http://www.downcc.com/font/list_200_" +:+ pretty page +:+ ".html") as Hurl
    by reflexivity.
  split; [exact Hurl|]. split.
  - rewrite Hurl.
    change ("http://www.downcc.com/font/list_200_" +:+ pretty page +:+ ".html")
      with ("http://www.downcc.com/font/" +:+ "list_200_" +:+ pretty page +:+ ".html" +:+ EmptyString).
    rewrite !str_app_cons, str_app_empty.
    repeat (rewrite page_regex_search_skip by reflexivity).
    apply page_regex_search_here, page_regex_at_complete; assumption.
  - intros Hlimit. rewrite (py_int_ascii _ Ht Hd Hlimit), Hv. reflexivity.
Qed.

End Urls.

(** ** More on the parser, the snapshots and cancellation *)

Lemma substring_of_trans a b c :
  substring_of a b -> substring_of b c -> substring_of a c.
Proof.
  intros (pre1 & post1 & ->) (pre2 & post2 & ->).
  exists (pre2 +:+ pre1), (post1 +:+ post2). rewrite !str_app_assoc. reflexivity.
Qed.

Lemma substring_of_empty a : substring_of a EmptyString -> a = EmptyString.
Proof.
  intros (pre & post & Hp). destruct pre; [|discriminate].
  rewrite str_app_empty in Hp. destruct a; [reflexivity | discriminate].
Qed.


Section ParserMore.
Context `{Runtime}.

Lemma item_record_mono k1 k2 li r :
  substring_of k1 k2 -> item_record k2 li = Some r -> item_record k1 li = Some r.
Proof.
  intros Hsub. unfold item_record. destruct (find li font_a_crit) as [a|]; [|discriminate].
  destruct (truthy k2 && _) eqn:E2; [discriminate|]. intros [= <-].
  destruct (truthy k1 && _) eqn:E1; [|reflexivity]. exfalso.
  apply andb_true_iff in E1 as [Ht1 Hn1]. apply negb_true_iff in Hn1.
  apply andb_false_iff in E2 as [E2|E2].
  - destruct k2; [|discriminate]. apply substring_of_empty in Hsub. subst k1. discriminate.
  - apply negb_false_iff, str_contains_spec in E2.
    assert (str_contains (str_lower (get_text_strip a)) k1 = true) as Hc
      by (apply str_contains_spec; eapply substring_of_trans; eassumption).
    congruence.
Qed.

Lemma omap_item_record_sublist k1 k2 lis :
  substring_of k1 k2 ->
  sublist (omap (item_record k2) lis) (omap (item_record k1) lis).
Proof.
  intros Hsub. induction lis as [|li lis IH]; [constructor|]. cbn [omap list_omap].
  destruct (item_record k2 li) as [r|] eqn:E2.
  - rewrite (item_record_mono k1 k2 li r Hsub E2). constructor. exact IH.
  - destruct (item_record k1 li); [constructor|]; exact IH.
Qed.

Lemma soup_records_sublist k1 k2 soup :
  substring_of k1 k2 -> sublist (soup_records k2 soup) (soup_records k1 soup).
Proof.
  intros Hsub. unfold soup_records.
  destruct (find _ section_crit) as [sec|]; [|constructor].
  destruct (find sec ul_crit) as [ul|]; [|constructor].
  apply omap_item_record_sublist, Hsub.
Qed.

(** X10: when two engines fetch the same text for a page and the
    lowered keyword of the first is a substring of the lowered keyword of the
    second, the two calls of [_parse_and_filter_page] end alike: either the
    parser rejects the text and both raise its exception, or both return,
    and the records of the second are a subsequence of the records of the
    first, in the same order. *)
Theorem narrower_keyword_fewer_records page st1 st2 html :
  (_fetch_page page 0 st1).1 = Ret html ->
  (_fetch_page page 0 st2).1 = Ret html ->
  substring_of (keyword_lower_of (_keyword (self st1)))
               (keyword_lower_of (_keyword (self st2))) ->
  (exists text e,
     html = Some text /\ BeautifulSoup text = inl e /\
     (_parse_and_filter_page page st1).1 = Raise e /\
     (_parse_and_filter_page page st2).1 = Raise e) \/
  (exists records1 records2,
     (_parse_and_filter_page page st1).1 = Ret (page, records1) /\
     (_parse_and_filter_page page st2).1 = Ret (page, records2) /\
     sublist records2 records1).
Proof.
  intros H1 H2 Hsub. rewrite !parse_run.
  pose proof (fetch_page_sound page 0 st1) as Hs1.
  pose proof (fetch_page_sound page 0 st2) as Hs2. unfold wp in Hs1, Hs2.
  destruct (_fetch_page page 0 st1) as [o1 st1'], (_fetch_page page 0 st2) as [o2 st2'].
  cbn [fst snd] in *. subst o1 o2.
  destruct Hs1 as (_ & Hst1 & _), Hs2 as (_ & Hst2 & _).
  rewrite (st_keyword _ _ Hst1), (st_keyword _ _ Hst2). unfold page_records.
  destruct (falsy html) eqn:Hf.
  { right. exists [], []. repeat split. constructor. }
  destruct html as [text|]; [|discriminate].
  change (default EmptyString (Some text)) with text.
  destruct (BeautifulSoup text) as [e|soup] eqn:Hsoup.
  - left. exists text, e.
    split; [reflexivity|]. split; [exact Hsoup|]. split; reflexivity.
  - right. eexists _, _. split; [reflexivity|]. split; [reflexivity|].
    apply soup_records_sublist, Hsub.
Qed.



End ParserMore.

Section SnapshotsMore.
Context `{Runtime}.

Lemma fetch_pages_quiet pages : forall st, quiet st (fetch_pages pages st).
Proof.
  induction pages as [|page pages IH]; intros st; [reflexivity|].
  change (fetch_pages (page :: pages) st)
    with (fetch_pages pages (_fetch_page page 0 st).2).
  etransitivity; [|apply IH].
  pose proof (fetch_page_sound page 0 st) as Hs. unfold wp in Hs. tauto.
Qed.

(** X11: the dict [get_stats] returns keeps the counters as they were
    at the call, whatever [_fetch_page] calls come after it. *)
Theorem snapshot_survives_fetches st pages :
  exists i st1,
    get_stats st = (Ret (Snapshot i), st1) /\
    deref (fetch_pages pages st1) (Snapshot i) = Some (stats (self st)).
Proof.
  eexists _, _. split; [reflexivity|]. cbn [deref].
  rewrite (q_snapshots _ _ (fetch_pages_quiet pages _)). cbn [get_stats snd]. norm.
  rewrite lookup_app_r, Nat.sub_diag by lia. reflexivity.
Qed.

End SnapshotsMore.

Ltac calm_tac :=
  repeat match goal with
         | H : _ /\ _ |- _ => destruct H
         | H : calm _ _ |- _ => destruct H
         end;
  norm_all;
  repeat split; norm; try congruence.

Section Cancelled.
Context `{Runtime}.

Lemma fetch_cancelled_calm page rc st :
  should_stop (self st) (polls (world st)) = true ->
  wp (_fetch_page page rc) (fun o st' => o = Ret None /\ calm st st') st.
Proof.
  intros Hstop. apply wp_fetch_page.
  destruct (Z.to_nat _); cbn [_fetch_page_rec];
    (apply wp_bind, wp_poll; rewrite Hstop; norm; apply wp_ret; calm_tac).
Qed.

Lemma run_task_cancelled page st :
  always_cancelled st ->
  wp (run_task page) (fun o st' => o = Ret (inr (page, [])) /\ calm st st') st.
Proof.
  intros Hstop. unfold wp, run_task. rewrite parse_run.
  pose proof (fetch_cancelled_calm page 0 st (Hstop _)) as Hf. unfold wp in Hf.
  destruct (_fetch_page page 0 st) as [o st1]. cbn [fst snd] in *.
  destruct Hf as [-> Hc]. cbn [fst snd]. split; [reflexivity | exact Hc].
Qed.

Lemma always_cancelled_calm st st' :
  calm st st' -> always_cancelled st -> always_cancelled st'.
Proof. intros [] Hn n. rewrite c_self0. apply Hn. Qed.

Lemma run_remaining_cancelled pages : forall st,
  always_cancelled st ->
  wp (run_remaining pages) (fun o st' => o = Ret tt /\ calm st st') st.
Proof.
  induction pages as [|page pages IH]; intros st Hstop; cbn [run_remaining].
  - apply wp_ret. calm_tac.
  - eapply wp_bind_rel; [apply run_task_cancelled, Hstop|].
    intros o st1 (-> & Hc). eapply wp_mono; [apply IH; eapply always_cancelled_calm; eauto|].
    cbv beta. intros o st2 (-> & Hc2). calm_tac.
Qed.

Lemma detect_cancelled st :
  should_stop (self st) (polls (world st)) = true ->
  wp _detect_total_pages (fun o st' => o = Ret 383 /\ calm st st') st.
Proof.
  intros Hstop. unfold wp. rewrite detect_run.
  pose proof (fetch_cancelled_calm 1 0 st Hstop) as Hf. unfold wp in Hf.
  destruct (_fetch_page 1 0 st) as [o st1]. cbn [fst snd] in *.
  destruct Hf as [-> Hc]. cbn [fst snd]. split; [reflexivity | exact Hc].
Qed.

Lemma submit_all_only_submits pages : forall st,
  wp (submit_all pages)
     (fun o st' => o = Ret tt /\ self st' = self st /\
                   snapshots (world st') = snapshots (world st) /\
                   requests (world st') = requests (world st) /\
                   slept (world st') = slept (world st) /\
                   yielded (world st') = yielded (world st) /\
                   submitted (world st') = submitted (world st) ++ pages) st.
Proof.
  induction pages as [|page pages IH]; intros st; cbn [submit_all].
  - apply wp_ret. rewrite app_nil_r. repeat split; auto.
  - apply wp_bind, wp_submit. eapply wp_mono; [apply IH|].
    cbv beta. intros o st2 (-> & ? & ? & ? & ? & ? & Hs). norm_all.
    repeat split; try congruence. rewrite Hs, <- app_assoc. reflexivity.
Qed.

(** X12: when the stop callback answers true from the start, [search]
    returns after yielding exactly four status events (detecting, the
    fallback total of 383, starting, aborted) and no result; it still
    submits the 383 tasks, but issues no request, sleeps never and changes no
    counter. *)
Theorem search_cancelled_from_start keyword st :
  always_cancelled st ->
  exists st',
    search keyword st = (Ret tt, st') /\
    yielded (world st') =
      yielded (world st) ++
      [status detecting_msg; status (detected_msg 383);
       status (starting_msg (max_workers (self st)) keyword);
       status "⏹ 搜索已中止"] /\
    submitted (world st') = submitted (world st) ++ seqZ 1 383 /\
    requests (world st') = requests (world st) /\
    slept (world st') = slept (world st) /\
    stats (self st') = stats (self st).
Proof.
  intros Hstop. apply wp_result. unfold search.
  apply wp_bind, wp_set_keyword. apply wp_bind, wp_yield.
  eapply wp_bind_rel; [apply detect_cancelled; norm; apply Hstop|].
  intros o st1 (-> & Hc1).
  apply wp_bind, wp_yield. apply wp_bind, wp_attr. apply wp_bind, wp_yield.
  eapply wp_bind_rel; [apply submit_all_only_submits|].
  intros o st2 (-> & Hself2 & Hsn2 & Hrq2 & Hsl2 & Hy2 & Hsub2).
  assert (always_cancelled st2) as Hstop2.
  { intros n. rewrite Hself2. norm. destruct Hc1 as [Hs1]. norm_all.
    rewrite Hs1. norm. apply Hstop. }
  pose proof (as_completed_perm (seqZ 1 383)) as Hperm.
  destruct (as_completed (seqZ 1 383)) as [|p rest] eqn:Eas.
  { apply Permutation_length in Hperm. rewrite length_seqZ in Hperm. discriminate. }
  cbn [drain].
  eapply wp_bind_rel; [eapply wp_bind_rel; [apply run_task_cancelled, Hstop2|]|].
  { intros o st3 (-> & Hc3). apply wp_bind, wp_poll.
    rewrite (always_cancelled_calm _ _ Hc3 Hstop2). norm.
    apply wp_bind, wp_yield.
    eapply wp_bind_rel; [apply run_remaining_cancelled|].
    { intros n. norm. apply (always_cancelled_calm _ _ Hc3 Hstop2). }
    intros o st4 (-> & Hc4). apply wp_ret.
    instantiate (1 := fun o st' =>
      o = Ret 0 /\ self st' = self st2 /\
      requests (world st') = requests (world st2) /\
      slept (world st') = slept (world st2) /\
      submitted (world st') = submitted (world st2) /\
      yielded (world st') = yielded (world st2) ++ [status "⏹ 搜索已中止"]).
    cbv beta. calm_tac. }
  intros o st5 (-> & Hself5 & Hrq5 & Hsl5 & Hsub5 & Hy5).
  apply wp_bind, wp_poll.
  assert (should_stop (self st5) (polls (world st5)) = true) as ->
    by (rewrite Hself5; apply Hstop2).
  norm. apply wp_ret. split; [reflexivity|]. norm.
  destruct Hc1 as [Hs1 Hsn1 Hrq1 Hsl1 Hsub1 Hy1]. norm_all.
  rewrite Hy5, Hy2, Hy1, Hsub5, Hsub2, Hsub1, Hrq5, Hrq2, Hrq1, Hsl5, Hsl2, Hsl1,
          Hself5, Hself2, Hs1.
  norm. rewrite <- !app_assoc. repeat split.
Qed.

End Cancelled.

(** ** More on the stream *)

Section StreamMore.
Context `{Runtime}.

(** X13: with the stop callback never answering true and the four
    counters present, the total in the closing status event of [search] is
    the number of result events the call has yielded. *)
Theorem summary_counts_results keyword st :
  never_cancelled st ->
  has_counters st ->
  exists st' evs total_found t s f r,
    search keyword st = (Ret tt, st') /\
    yielded (world st') =
      yielded (world st) ++ evs ++ [status (summary_msg total_found t s f r)] /\
    total_found = Z.of_nat (length (List.filter is_result evs)) /\
    total_found =
      Z.of_nat (length (List.filter is_result (yielded (world st')))) -
      Z.of_nat (length (List.filter is_result (yielded (world st)))).
Proof.
  intros Hnever Hcounters.
  pose proof (search_run keyword st) as Hs. unfold wp in Hs.
  destruct (search keyword st) as [o st'] eqn:E. cbn [fst snd] in Hs.
  destruct Hs as (n & evs & Hn & Hsub & Hy & Hgood & Hfull & _).
  destruct (Hfull Hnever Hcounters)
    as (-> & drained & found & t & s & f & r & -> & Hlen & Ht & Hs & Hf & Hr & Hfound).
  exists st', ([status detecting_msg; status (detected_msg n);
                status (starting_msg (max_workers (self st)) keyword)] ++ drained),
         found, t, s, f, r.
  split; [reflexivity|]. split; [rewrite Hy, <- !app_assoc; reflexivity|].
  assert (length (List.filter is_result
            ([status detecting_msg; status (detected_msg n);
              status (starting_msg (max_workers (self st)) keyword)] ++ drained))
          = length (List.filter is_result drained)) as Hopen.
  { cbn [app List.filter]. rewrite !is_result_status. reflexivity. }
  split; [rewrite Hopen; exact Hfound|].
  rewrite Hy, !List.filter_app, !length_app. cbn [app List.filter].
  rewrite !is_result_status. cbn [length]. lia.
Qed.

(** X14: in every run of [search], cancelled or not, returning or
    raising, a task has been submitted for every page index from 1 to the
    detected total, and every event yielded is a status or a result event:
    the generator itself yields no done and no error event. *)
Theorem search_submits_all_and_yields_no_done keyword st :
  exists total_pages evs,
    (search keyword st).1 <> OutOfFuel /\
    (_detect_total_pages
       (with_world (log_yield (status detecting_msg) (world st))
                   (with_keyword keyword st))).1 = Ret total_pages /\
    submitted (world (search keyword st).2) =
      submitted (world st) ++ seqZ 1 total_pages /\
    yielded (world (search keyword st).2) = yielded (world st) ++ evs /\
    Forall (fun ev => (is_status ev = true \/ is_result ev = true) /\
                      is_done ev = false /\
                      event_type ev <> Some "error") evs.
Proof.
  pose proof (search_run keyword st) as Hs. unfold wp in Hs.
  destruct Hs as (n & evs & Hn & Hsub & Hy & Hgood & _ & Hfuel).
  exists n, evs. repeat (split; [assumption|]).
  eapply Forall_impl; [exact Hgood|]. intros ev [Hst|(name & url & -> & _)].
  - split; [left; apply is_status_true, Hst|].
    split; [apply status_not_done, Hst | rewrite Hst; discriminate].
  - split; [right; apply is_result_result|].
    split; [apply result_not_done|].
    unfold result_event. rewrite event_type_event. discriminate.
Qed.

End StreamMore.

(** X15: [__init__] keeps the number of workers between 1 and 20: a
    smaller argument gives 1, a larger one 20, one in the range is kept, and
    building an engine from the clamped number changes nothing. *)
Theorem init_clamps_workers user_agent workers :
  let m := max_workers (self (__init__ user_agent workers)) in
  1 <= m <= 20 /\
  (workers < 1 -> m = 1) /\ (20 < workers -> m = 20) /\
  (1 <= workers <= 20 -> m = workers) /\
  max_workers (self (__init__ user_agent m)) = m.
Proof. cbn. lia. Qed.

(** ** The window *)

Lemma avoids_digits c0 s :
  is_ascii_digit c0 = false -> all_ascii_digits s = true -> avoids c0 s = true.
Proof.
  intros Hc0. induction s as [|c s IH]; [reflexivity|]. cbn [all_ascii_digits avoids].
  intros [Hc Hs]%andb_true_iff. rewrite (IH Hs), andb_true_r.
  apply negb_true_iff, Ascii.eqb_neq. intros ->. congruence.
Qed.

Lemma pretty_avoids (z : Z) c0 :
  is_ascii_digit c0 = false -> c0 <> "-"%char -> avoids c0 (pretty z) = true.
Proof.
  intros Hd Hm. destruct z as [|p|p].
  - apply avoids_digits; [exact Hd | reflexivity].
  - apply avoids_digits; [exact Hd|]. apply (pretty_nonneg_digits (Z.pos p)). lia.
  - change (pretty (Z.neg p)) with ("-" +:+ pretty (Z.pos p)).
    rewrite str_app_cons, str_app_empty. cbn [avoids].
    rewrite (avoids_digits c0 (pretty (Z.pos p)) Hd),  andb_true_r.
    + apply negb_true_iff, Ascii.eqb_neq. congruence.
    + apply (pretty_nonneg_digits (Z.pos p)). lia.
Qed.

Section WindowFacts.
Context `{Runtime}.

Lemma counted_skip lead c s :
  counted_regex_at lead (String c s) = None ->
  counted_regex_search lead (String c s) = counted_regex_search lead s.
Proof. intros E. cbn [counted_regex_search]. rewrite E. reflexivity. Qed.

Lemma counted_here lead s g :
  counted_regex_at lead s = Some g -> counted_regex_search lead s = Some g.
Proof. intros E. destruct s; cbn [counted_regex_search]; rewrite E; reflexivity. Qed.

Lemma prefix_head_mismatch a p c s :
  c <> a -> String.prefix (String a p) (String c s) = false.
Proof. intros Hne. cbn. destruct (Ascii.ascii_dec a c); congruence. Qed.

(** A stretch of text without the first character of the pattern holds
    no match and starts none. *)
Lemma counted_skip_plain a p d : forall rest,
  avoids a d = true ->
  counted_regex_search (String a p) (d +:+ rest) =
  counted_regex_search (String a p) rest.
Proof.
  induction d as [|c d IH]; intros rest Hd; [reflexivity|].
  cbn [avoids] in Hd. apply andb_true_iff in Hd as [Hc Hd].
  apply negb_true_iff, Ascii.eqb_neq in Hc.
  rewrite str_app_cons, counted_skip; [apply IH, Hd|].
  unfold counted_regex_at. rewrite (prefix_head_mismatch a p c _ Hc). reflexivity.
Qed.

Lemma counted_misses_plain a p d :
  avoids a d = true -> counted_regex_search (String a p) d = None.
Proof.
  intros Hd. rewrite <- (str_app_nil_r d), counted_skip_plain by exact Hd. reflexivity.
Qed.

Lemma counted_regex_at_complete lead ds post :
  truthy ds = true -> all_ascii_digits ds = true ->
  counted_regex_at lead (lead +:+ ds +:+ "页" +:+ post) = Some ds.
Proof.
  intros Ht Hds. unfold counted_regex_at.
  assert (String.prefix lead (lead +:+ ds +:+ "页" +:+ post) = true) as ->
    by (apply prefix_app; eauto).
  rewrite str_drop_app.
  rewrite (span_digits_app ds ("页" +:+ post) Hds)
    by (apply digit_at_cjk; split; apply Nat.leb_le; reflexivity).
  rewrite Ht. cbn [andb].
  assert (String.prefix "页" ("页" +:+ post) = true) as ->
    by (apply prefix_app; eauto).
  reflexivity.
Qed.

Ltac skip_text :=
  rewrite ?str_app_cons, ?str_app_empty;
  repeat (rewrite counted_skip by reflexivity).

Lemma total_pattern_misses_progress page completed_pages total found :
  counted_regex_search "共" (progress_msg page completed_pages total found) = None.
Proof.
  unfold progress_msg.
  assert (forall z : Z, avoids "229" (pretty z) = true) as Hav
    by (intros z; apply pretty_avoids; [reflexivity | discriminate]).
  change "共" with (String "229" (String "133" (String "177" EmptyString))).
  skip_text. rewrite counted_skip_plain by apply Hav.
  skip_text. rewrite counted_skip_plain by apply Hav.
  skip_text. rewrite counted_skip_plain by apply Hav.
  skip_text. rewrite counted_skip_plain by apply Hav.
  skip_text. reflexivity.
Qed.

Lemma total_pattern_misses_detected n :
  counted_regex_search "共" (detected_msg n) = None.
Proof.
  unfold detected_msg.
  change "共" with (String "229" (String "133" (String "177" EmptyString))).
  skip_text. apply counted_misses_plain, pretty_avoids; [reflexivity | discriminate].
Qed.

Lemma page_pattern_misses_detected n :
  counted_regex_search "第" (detected_msg n) = None.
Proof.
  unfold detected_msg.
  change "第" with (String "231" (String "172" (String "172" EmptyString))).
  skip_text. apply counted_misses_plain, pretty_avoids; [reflexivity | discriminate].
Qed.

Lemma page_pattern_reads_progress page completed_pages total found :
  0 <= page ->
  counted_regex_search "第" (progress_msg page completed_pages total found) =
  Some (pretty page).
Proof.
  intros Hpage. destruct (pretty_nonneg_digits page Hpage) as (Hd & Ht & _).
  apply counted_here.
  apply (counted_regex_at_complete "第" (pretty page)
           ("完成 | " +:+ "已处理 " +:+ pretty completed_pages +:+ "/" +:+
            pretty total +:+ " 页 | " +:+ "找到 " +:+ pretty found +:+ " 个字体")
           Ht Hd).
Qed.

Lemma event_content ty c : event ty c !! "content" = Some c.
Proof. unfold event. rewrite lookup_insert_ne by done. apply lookup_insert_eq. Qed.

Lemma check_queue_status content g :
  check_queue (status content) g =
  match read_count "第" content with_current_page g with
  | inl e => Some (inl e)
  | inr g1 =>
      match read_count "共" content with_total_pages g1 with
      | inl e => Some (inl e)
      | inr g2 => Some (inr (with_status_var content g2))
      end
  end.
Proof.
  pose proof (event_type_event "status" content) as E. unfold event_type in E.
  unfold check_queue, status. rewrite E, event_content. reflexivity.
Qed.

Lemma check_queue_result r g :
  check_queue (result_event r) g =
  Some (inr (with_result (dquote +:+ fst r +:+ dquote +:+ " 符合条件" +:+ newline +:+
                          "下载页面：" +:+ snd r) g)).
Proof.
  unfold check_queue, result_event.
  pose proof (event_type_event "result"
                (dquote +:+ fst r +:+ dquote +:+ " 符合条件" +:+ newline +:+
                 "下载页面：" +:+ snd r)) as E.
  unfold event_type in E. rewrite E, event_content. reflexivity.
Qed.

(** X16: on the progress event of a page, [check_queue] sets
    [current_page] to the index of that page (not to the number of pages
    completed), puts the message on the status line, and leaves
    [total_pages], the count and the list as they are. *)
Theorem check_queue_reads_page_of_progress page completed_pages total found g :
  0 <= page ->
  (int_max_str_digits <? String.length (pretty page))%nat = false ->
  check_queue (status (progress_msg page completed_pages total found)) g =
  Some (inr (with_status_var (progress_msg page completed_pages total found)
               (with_current_page page g))).
Proof.
  intros Hpage Hlimit. rewrite check_queue_status.
  unfold read_count. rewrite (page_pattern_reads_progress _ _ _ _ Hpage).
  rewrite total_pattern_misses_progress.
  destruct (pretty_nonneg_digits page Hpage) as (Hd & Ht & Hv).
  rewrite (py_int_ascii _ Ht Hd Hlimit), Hv. reflexivity.
Qed.

(** X17: the status event by which [search] announces the detected
    number of pages matches neither pattern of [check_queue]: the window
    shows the message and keeps its own [total_pages] and [current_page]. *)
Theorem check_queue_ignores_detected_total n g :
  exists g',
    check_queue (status (detected_msg n)) g = Some (inr g') /\
    total_pages g' = total_pages g /\ current_page g' = current_page g /\
    status_var g' = detected_msg n.
Proof.
  rewrite check_queue_status. unfold read_count.
  rewrite total_pattern_misses_detected, page_pattern_misses_detected.
  eexists. split; [reflexivity|]. repeat split.
Qed.

(** A match of [p] that begins in [s] ends in [s], or runs into [t]
    through its first character. *)
Lemma prefix_straddle p : forall s t,
  String.prefix p (s +:+ t) = true ->
  String.prefix p s = true \/
  exists c t', t = String c t' /\ occurs c p = true.
Proof.
  induction p as [|a p IH]; intros s t Hp.
  - left. destruct s; reflexivity.
  - destruct s as [|b s].
    + rewrite str_app_empty in Hp. destruct t as [|c t']; [discriminate|].
      right. exists c, t'. split; [reflexivity|]. cbn in Hp |- *.
      destruct (Ascii.ascii_dec a c) as [->|]; [|discriminate].
      rewrite Ascii.eqb_refl. reflexivity.
    + rewrite str_app_cons in Hp. cbn in Hp |- *.
      destruct (Ascii.ascii_dec a b) as [->|]; [|discriminate].
      destruct (IH s t Hp) as [Hl|(c & t' & -> & Hc)]; [left; exact Hl|].
      right. exists c, t'. split; [reflexivity|]. rewrite Hc. apply orb_true_r.
Qed.

Lemma url_skip c s :
  url_regex_at (String c s) = None ->
  url_regex_search (String c s) = url_regex_search s.
Proof. intros E. cbn [url_regex_search]. rewrite E. reflexivity. Qed.

Lemma url_here s g : url_regex_at s = Some g -> url_regex_search s = Some g.
Proof. intros E. destruct s; cbn [url_regex_search]; rewrite E; reflexivity. Qed.

Lemma url_skip_name name : forall c t,
  ~ substring_of url_marker name ->
  occurs c url_marker = false ->
  url_regex_search (name +:+ String c t) = url_regex_search (String c t).
Proof.
  induction name as [|b name IH]; intros c t Hname Hc; [reflexivity|].
  rewrite str_app_cons, url_skip.
  - apply IH; [|exact Hc]. intros (pre & post & ->). apply Hname.
    exists (String b pre), post. reflexivity.
  - unfold url_regex_at.
    destruct (String.prefix url_marker (String b (name +:+ String c t))) eqn:Hp;
      [|reflexivity].
    exfalso. change (String b (name +:+ String c t))
      with (String b name +:+ String c t) in Hp.
    apply prefix_straddle in Hp as [Hp|(c' & t' & [= <- <-] & Hc')].
    + apply prefix_app in Hp as [post Hpost]. apply Hname.
      exists EmptyString, post. exact Hpost.
    + congruence.
Qed.

Lemma line_head_whole s : avoids (ascii_of_nat 10) s = true -> line_head s = s.
Proof.
  induction s as [|c s IH]; [reflexivity|]. cbn [avoids line_head].
  intros [Hc Hs]%andb_true_iff. apply negb_true_iff in Hc. rewrite Hc, (IH Hs).
  reflexivity.
Qed.

Lemma url_regex_reads_url name url :
  ~ substring_of url_marker name ->
  truthy url = true ->
  avoids (ascii_of_nat 10) url = true ->
  url_regex_search (dquote +:+ name +:+ dquote +:+ " 符合条件" +:+ newline +:+
                    "下载页面：" +:+ url) = Some url.
Proof.
  intros Hname Hurl Hline.
  change (dquote +:+ name +:+ dquote +:+ " 符合条件" +:+ newline +:+ "下载页面：" +:+ url)
    with (String (ascii_of_nat 34)
            (name +:+ String (ascii_of_nat 34)
                        (" 符合条件" +:+ newline +:+ "下载页面：" +:+ url))).
  rewrite url_skip by reflexivity.
  rewrite url_skip_name by (assumption || reflexivity).
  unfold newline. rewrite ?str_app_cons, ?str_app_empty.
  repeat (rewrite url_skip by reflexivity).
  apply url_here. unfold url_regex_at.
  assert (String.prefix url_marker (url_marker +:+ url) = true) as Hp
    by (apply prefix_app; eauto).
  unfold url_marker in Hp at 2. rewrite ?str_app_cons, ?str_app_empty in Hp. rewrite Hp.
  change (str_drop (String.length url_marker) ?s) with url.
  rewrite (line_head_whole url Hline), Hurl. reflexivity.
Qed.

(** X18: on the result event of a record whose name does not hold the
    marker [下载页面：] and whose URL is non-empty and on one line,
    [check_queue] counts one more font and appends the message to the list,
    and [copy_all_urls] reads the URL of the record back from it. *)
Theorem listed_result_gives_back_url name url g :
  str_contains name url_marker = false ->
  truthy url = true ->
  avoids (ascii_of_nat 10) url = true ->
  exists g',
    check_queue (result_event (name, url)) g = Some (inr g') /\
    found_count g' = found_count g + 1 /\
    result_list g' = result_list g ++
      [dquote +:+ name +:+ dquote +:+ " 符合条件" +:+ newline +:+ "下载页面：" +:+ url] /\
    copy_all_urls g' = copy_all_urls g ++ [url].
Proof.
  intros Hcontains Hurl Hline.
  assert (~ substring_of url_marker name) as Hname.
  { intros Hs. apply str_contains_spec in Hs. congruence. }
  rewrite check_queue_result. eexists. split; [reflexivity|].
  split; [reflexivity|]. split; [reflexivity|].
  unfold copy_all_urls, with_result. cbn [result_list fst snd].
  rewrite omap_app. cbn [omap list_omap].
  rewrite (url_regex_reads_url name url Hname Hurl Hline). reflexivity.
Qed.

Lemma check_queue_all_counts evs : forall g g',
  check_queue_all evs g = Some (inr g') ->
  found_count g' = found_count g + Z.of_nat (length (List.filter is_result evs)) /\
  length (result_list g') =
    (length (result_list g) + length (List.filter is_result evs))%nat.
Proof.
  induction evs as [|ev evs IH]; intros g g'; cbn [check_queue_all].
  - intros [= <-]. cbn. split; lia.
  - destruct (check_queue ev g) as [[e|g1]|] eqn:E; try discriminate.
    intros Hrest. apply IH in Hrest as [Hc Hl]. rewrite Hc, Hl.
    cbn [List.filter]. unfold is_result, event_type. revert E. unfold check_queue.
    destruct (ev !! "type") as [ty|]; [|discriminate].
    destruct (String.eqb_spec ty "status") as [Hs|Hs].
    + subst ty. rewrite bool_decide_eq_false_2 by discriminate.
      destruct (ev !! "content") as [content|]; [|discriminate].
      unfold read_count. intros E.
      repeat (match type of E with
              | context [match ?x with _ => _ end] =>
                  lazymatch x with
                  | context [match _ with _ => _ end] => fail
                  | _ => destruct x
                  end
              end; try discriminate);
        injection E as <-; cbn; split; lia.
    + destruct (String.eqb_spec ty "result") as [Hr|Hr]; [|discriminate].
      subst ty. rewrite bool_decide_eq_true_2 by reflexivity.
      destruct (ev !! "content") as [content|]; [|discriminate].
      intros [= <-]. cbn [length with_result found_count result_list].
      rewrite length_app. cbn [length]. split; lia.
Qed.

(** X19: when [check_queue] is fed all the events of a search that is
    never cancelled, its count of fonts grows by the total given in the
    closing status event of the search, and so does the length of its
    list. *)
Theorem window_count_matches_report keyword st g g' :
  never_cancelled st ->
  has_counters st ->
  yielded (world st) = [] ->
  check_queue_all (yielded (world (search keyword st).2)) g = Some (inr g') ->
  exists total_found t s f r,
    last (yielded (world (search keyword st).2)) =
      Some (status (summary_msg total_found t s f r)) /\
    found_count g' = found_count g + total_found /\
    Z.of_nat (length (result_list g')) =
      Z.of_nat (length (result_list g)) + total_found.
Proof.
  intros Hnever Hcounters Hfresh Hall.
  pose proof (search_run keyword st) as Hs. unfold wp in Hs.
  destruct Hs as (n & evs & _ & _ & Hy & _ & Hfull & _).
  destruct (Hfull Hnever Hcounters)
    as (_ & drained & found & t & s & f & r & -> & _ & _ & _ & _ & _ & Hfound).
  rewrite Hfresh, app_nil_l in Hy. rewrite Hy in Hall |- *.
  exists found, t, s, f, r. split.
  { rewrite !app_assoc. apply last_snoc. }
  apply check_queue_all_counts in Hall as [Hc Hl]. rewrite Hc, Hl, Hfound.
  rewrite !List.filter_app, !length_app. cbn [List.filter].
  rewrite !is_result_status. cbn [length]. split; lia.
Qed.

End WindowFacts.

(** ** The sample catalog, run *)

Example detect_sample_catalog :
  (@_detect_total_pages (Demo.runtime Demo.net_catalog) Demo.fresh).1 = Ret 2.
Proof. vm_compute. reflexivity. Qed.

Example detect_dead_network :
  (@_detect_total_pages (Demo.runtime Demo.net_down) Demo.fresh).1 = Ret 383.
Proof. vm_compute. reflexivity. Qed.

Example detect_arabic_indic_pager :
  (@_detect_total_pages (Demo.runtime Demo.net_arabic) Demo.fresh).1 = Ret 12.
Proof. vm_compute. reflexivity. Qed.

Example parse_sample_page :
  (@_parse_and_filter_page (Demo.runtime Demo.net_catalog) 1
     (with_keyword "song" Demo.fresh)).1
  = Ret (1, [("Song A", "http://www.downcc.com/font/1.html")]).
Proof. vm_compute. reflexivity. Qed.

Example parse_sample_page_no_keyword :
  (@_parse_and_filter_page (Demo.runtime Demo.net_catalog) 1 Demo.fresh).1
  = Ret (1, [("Song A", "http://www.downcc.com/font/1.html");
             ("Other", "http://www.downcc.com/font/2.html")]).
Proof. vm_compute. reflexivity. Qed.

Example search_sample_results :
  List.filter is_result (yielded (world Demo.song_search.2)) =
  [result_event ("SONG B", "http://www.downcc.com/font/3.html");
   result_event ("Song A", "http://www.downcc.com/font/1.html")].
Proof. vm_compute. reflexivity. Qed.

(** The search of the sample catalog ends on a status event and yields no
    done event. *)
Lemma search_yields_no_done :
  Demo.song_search.1 = Ret tt /\
  event_type <$> last (yielded (world Demo.song_search.2)) = Some (Some "status") /\
  List.filter is_done (yielded (world Demo.song_search.2)) = [].
Proof. vm_compute. repeat split. Qed.

(** A redirect is returned as the body of the page and counted as a
    success. *)
Lemma redirect_counted_as_success :
  Demo.fetch_moved.1 = Ret (Some "<moved>") /\
  counter Demo.fetch_moved.2 "failed_requests" = Some 0 /\
  counter Demo.fetch_moved.2 "successful_requests" = Some 1.
Proof. vm_compute. repeat split. Qed.

(** A page whose text the parser rejects: the fetch returns the text and
    [_parse_and_filter_page] raises the parser's exception. *)
Lemma parse_raises_on_rejected_markup :
  (@_fetch_page (Demo.runtime Demo.net_rejected) 1 0 Demo.fresh).1 =
    Ret (Some "<![x y]>") /\
  (@_parse_and_filter_page (Demo.runtime Demo.net_rejected) 1 Demo.fresh).1 =
    Raise (ParserRejectedMarkup "The markup you provided was rejected by the parser.").
Proof. vm_compute. split; reflexivity. Qed.

(** One fetch, on an engine as [__init__] leaves it, over a transport that
    raises an exception of its own: the request is counted, and neither as a
    success nor as a failure, so the total is not the sum of the two.  And
    two successful fetches run by two workers of the pool, the reads of
    [total_requests] before its writes: one request is counted for two
    successes. *)
Lemma other_exception_breaks_counters :
  (counter (@fetch_pages (Demo.runtime Demo.net_broken) [5] Demo.fresh)
           "total_requests" = Some 1 /\
   counter (@fetch_pages (Demo.runtime Demo.net_broken) [5] Demo.fresh)
           "successful_requests" = Some 0 /\
   counter (@fetch_pages (Demo.runtime Demo.net_broken) [5] Demo.fresh)
           "failed_requests" = Some 0 /\
   ~ counters_consistent (@fetch_pages (Demo.runtime Demo.net_broken) [5] Demo.fresh)) /\
  (let overlapped :=
     Workers.run [0; 1; 0; 1; 0; 0; 1; 1]%nat
       ([Workers.start ["total_requests"; "successful_requests"];
         Workers.start ["total_requests"; "successful_requests"]], Demo.fresh) in
   Forall (fun w => Workers.finished w = true) overlapped.1 /\
   counter overlapped.2 "total_requests" = Some 1 /\
   counter overlapped.2 "successful_requests" = Some 2 /\
   counter overlapped.2 "failed_requests" = Some 0 /\
   1 <> 2 + 0).
Proof.
  split.
  - split; [reflexivity|]. split; [reflexivity|]. split; [reflexivity|].
    intros (t & s & f & r & Ht & Hs & Hf & _ & Heq & _).
    vm_compute in Ht, Hs, Hf. injection Ht as <-. injection Hs as <-. injection Hf as <-.
    lia.
  - cbv zeta. split; [repeat constructor|]. split; [reflexivity|].
    split; [reflexivity|]. split; [reflexivity | lia].
Qed.

(** Two increments written, one counted. *)
Lemma lost_update :
  Forall (fun w => Workers.finished w = true) Demo.racing.1 /\
  counter Demo.fresh "total_requests" = Some 0 /\
  counter Demo.racing.2 "total_requests" = Some 1 /\
  1 <> 0 + 2.
Proof.
  split; [|split; [|split]]; [repeat constructor | reflexivity | reflexivity | lia].
Qed.

Lemma search_dispatches_every_page_once_witness :
  never_cancelled Demo.fresh /\ has_counters Demo.fresh /\
  exists st',
    Demo.song_search = (Ret tt, st') /\ submitted (world st') = [1; 2].
Proof.
  assert (never_cancelled Demo.fresh) as H1 by (intros n; reflexivity).
  assert (has_counters Demo.fresh) as H2 by (repeat split; eexists; reflexivity).
  destruct (@search_dispatches_every_page_once (Demo.runtime Demo.net_catalog)
              "Song" Demo.fresh H1 H2)
    as (n & st' & drained & found & t & s & f & r & Hrun & Hdet & Hsub & _).
  vm_compute in Hdet. injection Hdet as <-.
  split; [exact H1|]. split; [exact H2|]. exists st'. split; [exact Hrun | exact Hsub].
Defined.

Lemma fetch_page_always_failing_witness :
  @always_fails (Demo.runtime Demo.net_down)
     (format_page (base_url (self Demo.fresh)) 5) /\
  never_cancelled Demo.fresh /\
  exists st',
    Demo.fetch_down = (Ret None, st') /\
    counter st' "total_requests" = Some 4 /\
    counter st' "failed_requests" = Some 4 /\
    counter st' "retried_requests" = Some 3.
Proof.
  assert (@always_fails (Demo.runtime Demo.net_down)
            (format_page (base_url (self Demo.fresh)) 5)) as H1
    by (intros n t b; reflexivity).
  assert (never_cancelled Demo.fresh) as H2 by (intros n; reflexivity).
  destruct (@fetch_page_always_failing (Demo.runtime Demo.net_down) 5 Demo.fresh 0 0 0
              H1 H2 ltac:(cbn; lia) eq_refl eq_refl eq_refl)
    as (st' & Hrun & Ht & Hf & Hr & _).
  split; [exact H1|]. split; [exact H2|]. exists st'.
  split; [exact Hrun|]. split; [exact Ht|]. split; [exact Hf | exact Hr].
Defined.

Lemma fetch_page_redirect_is_success_witness :
  should_stop (self Demo.fresh) (polls (world Demo.fresh)) = false /\
  300 <= 302 < 400 /\
  exists st',
    Demo.fetch_moved = (Ret (Some "<moved>"), st') /\
    counter st' "successful_requests" = Some 1 /\
    counter st' "failed_requests" = Some 0.
Proof.
  destruct (@fetch_page_redirect_is_success (Demo.runtime Demo.net_moved) 5 0 Demo.fresh
              {| status_code := 302; text := "<moved>" |} 0 0
              eq_refl eq_refl ltac:(cbn; lia) eq_refl eq_refl)
    as (st' & Hrun & _ & Hs & Hf & _).
  split; [reflexivity|]. split; [lia|]. exists st'.
  split; [exact Hrun|]. split; [exact Hs | exact Hf].
Defined.

Lemma fetch_page_cancelled_on_entry_witness :
  should_stop (self Demo.stopped) (polls (world Demo.stopped)) = true /\
  exists st',
    @_fetch_page (Demo.runtime Demo.net_catalog) 1 0 Demo.stopped = (Ret None, st') /\
    stats (self st') = stats (self Demo.stopped) /\
    requests (world st') = requests (world Demo.stopped) /\
    slept (world st') = slept (world Demo.stopped).
Proof.
  split; [reflexivity|].
  apply (@fetch_page_cancelled_on_entry (Demo.runtime Demo.net_catalog) 1 0 Demo.stopped).
  reflexivity.
Defined.

Lemma parse_tolerates_missing_markup_witness :
  exists st1 records,
    @_fetch_page (Demo.runtime Demo.net_moved) 5 0 Demo.fresh =
      (Ret (Some "<moved>"), st1) /\
    truthy "<moved>" = true /\
    @_parse_and_filter_page (Demo.runtime Demo.net_moved) 5 Demo.fresh =
      (Ret (5, records), st1) /\
    records = [].
Proof.
  exists Demo.fetch_moved.2.
  destruct (@parse_tolerates_missing_markup (Demo.runtime Demo.net_moved) 5 Demo.fresh
              "<moved>" Demo.fetch_moved.2 eq_refl eq_refl)
    as (_ & Hparsed & _).
  destruct (Hparsed _ eq_refl) as (records & Hrun & Hnone & _).
  exists records. split; [reflexivity|]. split; [reflexivity|]. split; [exact Hrun|].
  apply Hnone. reflexivity.
Defined.

Lemma counters_without_lock_witness :
  counter Demo.fresh "total_requests" = Some 0 /\
  exists v,
    counter Demo.racing.2 "total_requests" = Some v /\ 0 <= v /\
    v + Workers.remaining "total_requests" Demo.racing.1 <= 0 + 2.
Proof.
  split; [reflexivity|].
  apply (counters_without_lock "total_requests"
           [["total_requests"]; ["total_requests"]] Demo.fresh 0 eq_refl).
Defined.

Lemma counters_consistent_after_fetches_witness :
  @regular_transport (Demo.runtime Demo.net_down) /\
  counters_consistent
    (@fetch_pages (Demo.runtime Demo.net_down) [1; 2]
       (with_should_stop (fun n => (3 <=? n)%nat) (__init__ "Mozilla/5.0" 4))).
Proof.
  assert (@regular_transport (Demo.runtime Demo.net_down)) as H1
    by (intros n url t b e [= <-]; reflexivity).
  split; [exact H1|].
  apply (@counters_consistent_after_fetches (Demo.runtime Demo.net_down)), H1.
Defined.

Lemma fetch_page_recovers_witness :
  never_cancelled Demo.fresh /\
  exists st',
    @_fetch_page (Demo.runtime Demo.net_flaky) 5 0 Demo.fresh =
      (Ret (Some "<page1>"), st') /\
    counter st' "total_requests" = Some 3 /\
    counter st' "successful_requests" = Some 1 /\
    counter st' "failed_requests" = Some 2 /\
    counter st' "retried_requests" = Some 2 /\
    length (slept (world st')) = 2%nat.
Proof.
  assert (never_cancelled Demo.fresh) as H1 by (intros n; reflexivity).
  assert (forall j, (j < 2)%nat ->
            @fails (@session_get (Demo.runtime Demo.net_flaky)
                      (length (requests (world Demo.fresh)) + j)
                      (format_page (base_url (self Demo.fresh)) 5)
                      (timeout (self Demo.fresh)) false)) as H2
    by (intros [|[|j]] Hj; [reflexivity | reflexivity | lia]).
  destruct (@fetch_page_recovers (Demo.runtime Demo.net_flaky) 2 5 Demo.fresh 0 0 0 0
              {| status_code := 200; text := "<page1>" |}
              H1 ltac:(cbn; lia) H2 eq_refl ltac:(cbn; lia)
              eq_refl eq_refl eq_refl eq_refl)
    as (st' & Hrun & Ht & Hs & Hf & Hr & _ & Hsl).
  split; [exact H1|]. exists st'.
  split; [exact Hrun|]. split; [exact Ht|]. split; [exact Hs|].
  split; [exact Hf|]. split; [exact Hr | exact Hsl].
Defined.

Lemma fetch_page_cancelled_after_failure_witness :
  should_stop (self Demo.stopped_later) 0 = false /\
  should_stop (self Demo.stopped_later) 1 = true /\
  exists st',
    @_fetch_page (Demo.runtime Demo.net_down) 5 0 Demo.stopped_later = (Ret None, st') /\
    counter st' "total_requests" = Some 1 /\
    counter st' "failed_requests" = Some 1 /\
    counter st' "retried_requests" = Some 0 /\
    slept (world st') = [].
Proof.
  destruct (@fetch_page_cancelled_after_failure (Demo.runtime Demo.net_down) 5 0
              Demo.stopped_later 0 0
              eq_refl eq_refl ltac:(cbn; lia) eq_refl eq_refl eq_refl)
    as (st' & Hrun & Ht & Hf & Hr & _ & _ & Hsl).
  split; [reflexivity|]. split; [reflexivity|]. exists st'.
  split; [exact Hrun|]. split; [exact Ht|]. split; [exact Hf|].
  split; [exact Hr | exact Hsl].
Defined.

Lemma fetch_page_other_exception_witness :
  is_RequestException (ValueError "bad url") = false /\
  exists st',
    @_fetch_page (Demo.runtime Demo.net_broken) 5 0 Demo.fresh =
      (Raise (ValueError "bad url"), st') /\
    counter st' "total_requests" = Some 1 /\
    counter st' "successful_requests" = Some 0 /\
    counter st' "failed_requests" = Some 0.
Proof.
  destruct (@fetch_page_other_exception (Demo.runtime Demo.net_broken) 5 0 Demo.fresh
              (ValueError "bad url") 0 eq_refl eq_refl eq_refl eq_refl)
    as (st' & Hrun & Ht & Hs & Hf & _).
  split; [reflexivity|]. exists st'.
  split; [exact Hrun|]. split; [exact Ht|]. split; [exact Hs | exact Hf].
Defined.

Lemma parse_of_dead_page_witness :
  @always_fails (Demo.runtime Demo.net_down)
     (format_page (base_url (self Demo.fresh)) 5) /\
  never_cancelled Demo.fresh /\
  (@_parse_and_filter_page (Demo.runtime Demo.net_down) 5 Demo.fresh).1 = Ret (5, []).
Proof.
  assert (@always_fails (Demo.runtime Demo.net_down)
            (format_page (base_url (self Demo.fresh)) 5)) as H1
    by (intros n t b; reflexivity).
  assert (never_cancelled Demo.fresh) as H2 by (intros n; reflexivity).
  destruct (@parse_of_dead_page (Demo.runtime Demo.net_down) 5 Demo.fresh 0 0 0
              H1 H2 ltac:(cbn; lia) eq_refl eq_refl eq_refl) as [Hparse _].
  split; [exact H1|]. split; [exact H2 | exact Hparse].
Defined.

Lemma page_url_round_trip_witness :
  0 <= 7 /\
  @page_regex_search (Demo.runtime Demo.net_catalog)
     (format_page (base_url (self Demo.fresh)) 7) = Some "7".
Proof.
  destruct (@page_url_round_trip (Demo.runtime Demo.net_catalog) "Mozilla/5.0" 10 7
              ltac:(lia)) as (_ & Hsearch & _).
  split; [lia | exact Hsearch].
Defined.


Lemma narrower_keyword_fewer_records_witness :
  exists records1 records2,
    (@_parse_and_filter_page (Demo.runtime Demo.net_catalog) 1
       (with_keyword "o" Demo.fresh)).1 = Ret (1, records1) /\
    (@_parse_and_filter_page (Demo.runtime Demo.net_catalog) 1
       (with_keyword "on" Demo.fresh)).1 = Ret (1, records2) /\
    sublist records2 records1.
Proof.
  destruct (@narrower_keyword_fewer_records (Demo.runtime Demo.net_catalog) 1
              (with_keyword "o" Demo.fresh) (with_keyword "on" Demo.fresh)
              (Some "<page1>"))
    as [(text & e & Htext & Hsoup & _)|Hret].
  - vm_compute. reflexivity.
  - vm_compute. reflexivity.
  - exists EmptyString, "n". reflexivity.
  - injection Htext as <-. vm_compute in Hsoup. discriminate.
  - exact Hret.
Defined.

Lemma search_cancelled_from_start_witness :
  always_cancelled Demo.stopped /\
  exists st',
    @search (Demo.runtime Demo.net_catalog) "Song" Demo.stopped = (Ret tt, st') /\
    length (yielded (world st')) = 4%nat /\
    length (submitted (world st')) = 383%nat /\
    requests (world st') = [].
Proof.
  assert (always_cancelled Demo.stopped) as H1 by (intros n; reflexivity).
  destruct (@search_cancelled_from_start (Demo.runtime Demo.net_catalog) "Song"
              Demo.stopped H1)
    as (st' & Hrun & Hy & Hsub & Hreq & _).
  split; [exact H1|]. exists st'. split; [exact Hrun|].
  split; [rewrite Hy; reflexivity|].
  split; [rewrite Hsub; reflexivity | exact Hreq].
Defined.

Lemma summary_counts_results_witness :
  never_cancelled Demo.fresh /\ has_counters Demo.fresh /\
  exists st' evs total_found t s f r,
    Demo.song_search = (Ret tt, st') /\
    yielded (world st') = evs ++ [status (summary_msg total_found t s f r)] /\
    total_found = Z.of_nat (length (List.filter is_result evs)).
Proof.
  assert (never_cancelled Demo.fresh) as H1 by (intros n; reflexivity).
  assert (has_counters Demo.fresh) as H2 by (repeat split; eexists; reflexivity).
  destruct (@summary_counts_results (Demo.runtime Demo.net_catalog) "Song" Demo.fresh H1 H2)
    as (st' & evs & found & t & s & f & r & Hrun & Hy & Hfound & _).
  split; [exact H1|]. split; [exact H2|].
  exists st', evs, found, t, s, f, r.
  split; [exact Hrun|]. split; [exact Hy | exact Hfound].
Defined.

Lemma check_queue_reads_page_of_progress_witness :
  0 <= 7 /\
  current_page <$>
    (@check_queue (Demo.runtime Demo.net_catalog) (status (progress_msg 7 3 383 2))
       gui_init ≫= (fun r => match r with inr g => Some g | inl _ => None end))
  = Some 7.
Proof.
  split; [lia|].
  rewrite (@check_queue_reads_page_of_progress (Demo.runtime Demo.net_catalog)
             7 3 383 2 gui_init ltac:(lia) eq_refl).
  reflexivity.
Defined.

Lemma listed_result_gives_back_url_witness :
  str_contains "Song A" url_marker = false /\
  exists g',
    @check_queue (Demo.runtime Demo.net_catalog)
      (result_event ("Song A", "http://www.downcc.com/font/1.html")) gui_init
    = Some (inr g') /\
    found_count g' = 1 /\
    copy_all_urls g' = ["http://www.downcc.com/font/1.html"].
Proof.
  destruct (@listed_result_gives_back_url (Demo.runtime Demo.net_catalog)
              "Song A" "http://www.downcc.com/font/1.html" gui_init
              eq_refl eq_refl eq_refl)
    as (g' & Hrun & Hc & _ & Hurls).
  split; [reflexivity|]. exists g'.
  split; [exact Hrun|]. split; [exact Hc | exact Hurls].
Defined.

Lemma window_count_matches_report_witness :
  never_cancelled Demo.fresh /\ has_counters Demo.fresh /\
  exists g' total_found t s f r,
    Demo.window = Some (inr g') /\
    last (yielded (world Demo.song_search.2)) =
      Some (status (summary_msg total_found t s f r)) /\
    found_count g' = found_count gui_init + total_found.
Proof.
  assert (never_cancelled Demo.fresh) as H1 by (intros n; reflexivity).
  assert (has_counters Demo.fresh) as H2 by (repeat split; eexists; reflexivity).
  assert (exists g', Demo.window = Some (inr g')) as [g' Hg]
    by (vm_compute; eexists; reflexivity).
  destruct (@window_count_matches_report (Demo.runtime Demo.net_catalog) "Song"
              Demo.fresh gui_init g' H1 H2 eq_refl Hg)
    as (found & t & s & f & r & Hlast & Hc & _).
  split; [exact H1|]. split; [exact H2|].
  exists g', found, t, s, f, r.
  split; [exact Hg|]. split; [exact Hlast | exact Hc].
Defined.
